(** * biometric-lock: a shallow embedding of the authentication core

    The development follows the layout of the repository: one module per
    source file ([Security] for security.py, [Models] for models.py,
    [IrisRecognition] for iris_recognition.py, [Utils] for utils.py and
    [App] for app.py), after a module [Runtime] for what the files share
    at run time: requests, responses and the state of the process.
    [Cv2] and [Numpy] hold the library operations that the files rely on;
    library calls whose code is not part of the repository (OpenCV,
    dlib, werkzeug) are parameters of the definitions that use them.
    [Spec] states the predicates of the specification and [Samples] the
    concrete data of the examples; the properties follow the definitions.

    Conventions:
    - [bytes] is a Python byte string;
    - a [datetime] is a number of microseconds on the time line, a
      [timedelta] a number of microseconds;
    - a Python call that may raise returns a [res]. *)

From Stdlib Require Import ZArith QArith Qround List Bool Lia Reals Psatz.
From Stdlib Require SpecFloat.
From stdpp Require Import base option strings list gmap.
Import ListNotations.

Local Open Scope string_scope.
Local Open Scope list_scope.
Local Open Scope Z_scope.

(** ** Python values shared by the modules *)

Definition bytes := list Byte.byte.

#[global] Instance byte_eq_dec : EqDecision Byte.byte := Byte.byte_eq_dec.

Definition datetime := Z.
Definition timedelta := Z.

Definition timedelta_seconds (s : Z) : timedelta := s * 1000000.
Definition timedelta_minutes (m : Z) : timedelta := timedelta_seconds (m * 60).

(** The exceptions that the embedded code can meet. *)
Inductive exn : Type :=
| NameError (name : string)
| TypeError
| ValueError
| IndexError
| cv2_error.

(** Outcome of a call: a value, or an exception on its way up. *)
Inductive res (A : Type) : Type :=
| Ok (a : A)
| Raise (e : exn).
Arguments Ok {A} a.
Arguments Raise {A} e.

Definition res_bind {A B} (r : res A) (k : A -> res B) : res B :=
  match r with
  | Ok a => k a
  | Raise e => Raise e
  end.

(** Truthiness of a byte string: [if data:] is false for [b''] as well. *)
Definition bytes_truthy (b : bytes) : bool :=
  match b with
  | [] => false
  | _ :: _ => true
  end.

(** Name lookup in a module's namespace: a name that the module neither
    defines nor imports raises [NameError] when the statement that uses
    it runs. *)
Definition load_global (namespace : list string) (name : string) : res unit :=
  if decide (name ∈ namespace) then Ok tt else Raise (NameError name).

(** ** State of the process, requests and responses *)
Module Runtime.

(** class User of app.py (the table that its routes query). *)
Record User : Type := mkUser {
  id : Z;
  username : string;
  password_hash : string;
  iris_data : option bytes;
  created_at : datetime
}.

(** A key of the Redis server: its integer value and when it expires. *)
Record redis_entry : Type := mkEntry {
  value : Z;
  expires_at : option datetime
}.

(** A value of the dictionary [rate_limit_storage] of security.py:
    [{'attempts': n, 'start_time': t}]. *)
Record RateData : Type := mkRateData {
  attempts : Z;
  start_time : datetime
}.

(** The mutable state a request runs in: the clock, the rows of the
    users table in primary-key order, the user that flask-login holds in
    the session, and the two globals of security.py ([redis_client] is
    [None] or a client of a reachable server, given by its keys). *)
Record world : Type := mkWorld {
  clock : datetime;
  users : list User;
  session_user : option Z;
  redis_client : option (gmap string redis_entry);
  rate_limit_storage : gmap string RateData
}.

Definition with_session_user (s : option Z) (w : world) : world :=
  mkWorld (clock w) (users w) s (redis_client w) (rate_limit_storage w).

Definition with_redis (db : gmap string redis_entry) (w : world) : world :=
  mkWorld (clock w) (users w) (session_user w) (Some db) (rate_limit_storage w).

Definition with_rate_limit_storage (m : gmap string RateData) (w : world) : world :=
  mkWorld (clock w) (users w) (session_user w) (redis_client w) m.

Definition with_clock (t : datetime) (w : world) : world :=
  mkWorld t (users w) (session_user w) (redis_client w) (rate_limit_storage w).

(** What a request does besides answering, in the order it does it. *)
Inductive event : Type :=
| EvImdecode (data : bytes)
| EvHoughCircles
| EvQueryUsersWithIris
| EvQueryUserByName (name : string)
| EvCheckPassword (user_id : Z)
| EvCompareIris (user_id : Z)
| EvLoginUser (user_id : Z).

#[global] Instance event_eq_dec : EqDecision event.
Proof. solve_decision. Defined.

(** Computations of a request: they read and write the world and log
    events. *)
Definition M (A : Type) : Type := world -> A * world * list event.

Definition ret {A} (a : A) : M A := fun w => (a, w, []).

Definition bind {A B} (m : M A) (k : A -> M B) : M B :=
  fun w =>
    let '(a, w1, t1) := m w in
    let '(b, w2, t2) := k a w1 in
    (b, w2, t1 ++ t2).

Definition emit (e : event) : M unit := fun w => (tt, w, [e]).
Definition get_world : M world := fun w => (w, w, []).

Definition result {A} (r : A * world * list event) : A := fst (fst r).
Definition final {A} (r : A * world * list event) : world := snd (fst r).
Definition events {A} (r : A * world * list event) : list event := snd r.

(** Flask's request, as far as the views read it. *)
Record request : Type := mkRequest {
  method : string;
  remote_addr : string;
  get_json : option (gmap string string);
  files : gmap string bytes
}.

Inductive jvalue : Type :=
| JStr (s : string)
| JInt (n : Z).

Inductive body : Type :=
| jsonify (fields : list (string * jvalue))
| render_template (name : string).

(** A view's return value [(body, status)]. *)
Record response : Type := mkResponse {
  payload : body;
  status : Z
}.

Definition view : Type := request -> M response.

(** flask-login's [login_user]: the user's id goes into the session
    (app.py's User inherits [is_active = True] from UserMixin). *)
Definition login_user (user : User) : M unit :=
  bind (emit (EvLoginUser (id user)))
       (fun _ w => (tt, with_session_user (Some (id user)) w, [])).

End Runtime.

Notation "'let*' x ':=' c 'in' k" := (Runtime.bind c (fun x => k))
  (at level 10, x name, c at level 100, k at level 200).

(** ** security.py *)
Module Security.
Import Runtime.

(** The two environment variables that [is_rate_limited] reads, as the
    integers that [int(os.getenv(...))] yields; [None] when unset. *)
Record environ : Type := mkEnviron {
  RATE_LIMIT_WINDOW : option Z;
  MAX_ATTEMPTS : option Z
}.

Definition default_environ : environ := mkEnviron None None.

Definition getenv_int (v : option Z) (dflt : Z) : Z :=
  match v with
  | Some n => n
  | None => dflt
  end.

Definition get_rate_limit_key (ip : string) : string := "rate_limit:" +:+ ip.

(** The three Redis commands of the file, at server time [now]. *)
Definition redis_live (now : datetime) (e : redis_entry) : bool :=
  match expires_at e with
  | Some t => now <? t
  | None => true
  end.

Definition redis_get (now : datetime) (db : gmap string redis_entry)
    (key : string) : option Z :=
  match db !! key with
  | Some e => if redis_live now e then Some (value e) else None
  | None => None
  end.

Definition redis_setex (now : datetime) (db : gmap string redis_entry)
    (key : string) (seconds : Z) (v : Z) : gmap string redis_entry :=
  <[key := mkEntry v (Some (now + timedelta_seconds seconds))]> db.

Definition redis_incr (now : datetime) (db : gmap string redis_entry)
    (key : string) : gmap string redis_entry :=
  match db !! key with
  | Some e =>
      if redis_live now e then <[key := mkEntry (value e + 1) (expires_at e)]> db
      else <[key := mkEntry 1 None]> db
  | None => <[key := mkEntry 1 None]> db
  end.

(** [int(os.getenv('RATE_LIMIT_WINDOW', 3600))] and
    [int(os.getenv('MAX_ATTEMPTS', 5))] *)
Definition window_of (env : environ) : Z := getenv_int (RATE_LIMIT_WINDOW env) 3600.
Definition max_attempts_of (env : environ) : Z := getenv_int (MAX_ATTEMPTS env) 5.

Definition is_rate_limited (env : environ) (ip : string) : M bool :=
  fun w =>
    let window := window_of env in
    let max_attempts := max_attempts_of env in
    match redis_client w with
    | Some db =>
        let key := get_rate_limit_key ip in
        match redis_get (clock w) db key with
        | None => (false, with_redis (redis_setex (clock w) db key window 1) w, [])
        | Some attempts =>
            if max_attempts <=? attempts then (true, w, [])
            else (false, with_redis (redis_incr (clock w) db key) w, [])
        end
    | None =>
        let now := clock w in
        match rate_limit_storage w !! ip with
        | Some data =>
            if timedelta_seconds window <? now - start_time data then
              (false,
               with_rate_limit_storage
                 (<[ip := mkRateData 1 now]> (rate_limit_storage w)) w, [])
            else if max_attempts <=? attempts data then (true, w, [])
            else
              (false,
               with_rate_limit_storage
                 (<[ip := mkRateData (attempts data + 1) (start_time data)]>
                    (rate_limit_storage w)) w, [])
        | None =>
            (false,
             with_rate_limit_storage
               (<[ip := mkRateData 1 now]> (rate_limit_storage w)) w, [])
        end
    end.

(** The decorator [rate_limit]. *)
Definition rate_limit (env : environ) (f : view) : view :=
  fun req =>
    let* limited := is_rate_limited env (remote_addr req) in
    if limited then
       ret (mkResponse
              (jsonify [("error", JStr "Too many attempts. Please try again later.");
                        ("retry_after", JInt (window_of env))])
              429)
    else f req.

Definition encrypt_iris_data (iris_data : bytes) : bytes := iris_data.

Definition decrypt_iris_data (encrypted_data : bytes) : bytes := encrypted_data.

End Security.

(** ** models.py *)
Module Models.

(** A row of the [users] table.  [failed_attempts] is the value of a
    persisted row (the column default 0 applied). *)
Record User : Type := mkUser {
  id : Z;
  username : string;
  password_hash : string;
  email : option string;
  iris_data : option bytes;
  is_active : bool;
  created_at : datetime;
  last_login : option datetime;
  failed_attempts : Z;
  locked_until : option datetime
}.

Definition with_iris_data (d : option bytes) (u : User) : User :=
  mkUser (id u) (username u) (password_hash u) (email u) d (is_active u)
         (created_at u) (last_login u) (failed_attempts u) (locked_until u).

Definition with_last_login (t : option datetime) (u : User) : User :=
  mkUser (id u) (username u) (password_hash u) (email u) (iris_data u)
         (is_active u) (created_at u) t (failed_attempts u) (locked_until u).

Definition with_failed_attempts (n : Z) (u : User) : User :=
  mkUser (id u) (username u) (password_hash u) (email u) (iris_data u)
         (is_active u) (created_at u) (last_login u) n (locked_until u).

Definition with_locked_until (t : option datetime) (u : User) : User :=
  mkUser (id u) (username u) (password_hash u) (email u) (iris_data u)
         (is_active u) (created_at u) (last_login u) (failed_attempts u) t.

(** The names bound at the top level of models.py: its imports
    ([from datetime import datetime], [Optional], [SQLAlchemy],
    [UserMixin], the two werkzeug functions, the two functions of
    security.py), [db] and its five classes.  Neither the module nor
    Python's builtins bind [timedelta]. *)
Definition module_globals : list string :=
  [ "datetime"; "Optional"; "SQLAlchemy"; "UserMixin";
    "generate_password_hash"; "check_password_hash";
    "encrypt_iris_data"; "decrypt_iris_data";
    "db"; "User"; "IrisEnrollment"; "AccessLog"; "SecurityEvent";
    "SystemConfig" ].

Definition set_iris_data (self : User) (data : bytes) : User :=
  with_iris_data (Some (Security.encrypt_iris_data data)) self.

Definition get_iris_data (self : User) : option bytes :=
  match iris_data self with
  | Some stored =>
      if bytes_truthy stored then Some (Security.decrypt_iris_data stored)
      else None
  | None => None
  end.

(** The body of [record_login_attempt] run with the global names
    [namespace]: the object after the call (attribute assignments made
    before an exception stay) and how the call ended.  [utcnow] is the
    value of [datetime.utcnow()]; it is evaluated before the name
    [timedelta] is looked up. *)
Definition record_login_attempt_in (namespace : list string)
    (utcnow : datetime) (self : User) (success : bool) : User * res unit :=
  if success then
    let self := with_failed_attempts 0 self in
    let self := with_last_login (Some utcnow) self in
    let self := with_locked_until None self in
    (self, Ok tt)
  else
    let self := with_failed_attempts (failed_attempts self + 1) self in
    if 5 <=? failed_attempts self then
      match load_global namespace "timedelta" with
      | Ok _ =>
          (with_locked_until (Some (utcnow + timedelta_minutes 30)) self,
           Ok tt)
      | Raise e => (self, Raise e)
      end
    else (self, Ok tt).

(** [User.record_login_attempt], in the namespace of models.py. *)
Definition record_login_attempt : datetime -> User -> bool -> User * res unit :=
  record_login_attempt_in module_globals.

(** The columns of a row that class User of app.py declares. *)
Definition user_row (u : User) : Runtime.User :=
  Runtime.mkUser (id u) (username u) (password_hash u) (iris_data u) (created_at u).

(** The two states of the attempt policy, read off a row at time [now]. *)
Definition Locked (now : datetime) (u : User) : Prop :=
  exists t, locked_until u = Some t /\ now < t.

Definition Active (now : datetime) (u : User) : Prop := ~ Locked now u.

End Models.

(** ** OpenCV and numpy, as app.py and iris_recognition.py call them *)
Module Cv2.

(** A circle as [cv2.HoughCircles] reports it: centre and radius, three
    floating-point numbers, each taken as the rational it denotes. *)
Definition circle : Type := (Q * Q * Q)%type.

(** The keyword arguments of a [cv2.HoughCircles] call
    (method HOUGH_GRADIENT). *)
Record hough_args : Type := mkHough {
  dp : Z;
  minDist : Z;
  param1 : Z;
  param2 : Z;
  minRadius : Z;
  maxRadius : Z
}.

(** [np.round]: to the nearest integer, a tie to the even one. *)
Definition np_round (q : Q) : Z :=
  let f := Qfloor q in
  match Qcompare (q - inject_Z f) (1 # 2) with
  | Lt => f
  | Gt => f + 1
  | Eq => if Z.even f then f else f + 1
  end.

(** [np.round(circles[0, :]).astype("int")] *)
Definition round_circles (circles : list circle) : list (Z * Z * Z) :=
  map (fun c : circle =>
         let '(x, y, r) := c in (np_round x, np_round y, np_round r))
      circles.

(** The OpenCV entry points that app.py uses, for an image type of the
    library's own: [imdecode] yields [None] for a buffer that is not an
    image, [HoughCircles] yields [None] when it finds no circle, and
    each of them may raise. *)
Record api (image : Type) : Type := mkApi {
  imdecode : bytes -> res (option image);
  cvtColor_BGR2GRAY : image -> res image;
  HoughCircles : image -> hough_args -> res (option (list circle))
}.
Arguments imdecode {image} _ _.
Arguments cvtColor_BGR2GRAY {image} _ _.
Arguments HoughCircles {image} _ _ _.

End Cv2.

(** ** app.py *)
Module App.
Import Runtime.

Section Routes.

Context {image : Type} (cv : Cv2.api image).

(** werkzeug's [check_password_hash pwhash password]. *)
Variable check_password_hash : string -> string -> bool.

Definition check_password (self : User) (password : string) : M bool :=
  let* _ := emit (EvCheckPassword (id self)) in
  ret (check_password_hash (password_hash self) password).

(** [User.query.filter_by(username=name).first()]: the first row with
    that user name. *)
Definition first_by_username (w : world) (name : string) : option User :=
  head (filter (fun u => bool_decide (username u = name)) (users w)).

Definition query_first_by_username (name : string) : M (option User) :=
  let* _ := emit (EvQueryUserByName name) in
  let* w := get_world in
  ret (first_by_username w name).

(** [User.query.filter(User.iris_data.isnot(None)).all()]: the rows that
    have iris data, in the order of the table. *)
Definition enrolled (w : world) : list User :=
  filter (fun u => bool_decide (iris_data u <> None)) (users w).

Definition query_users_with_iris : M (list User) :=
  let* _ := emit EvQueryUsersWithIris in
  let* w := get_world in
  ret (enrolled w).

Definition login (req : request) : M response :=
  if bool_decide (method req = "POST") then
    match get_json req with
    | None => ret (mkResponse (jsonify [("error", JStr "No JSON data provided")]) 400)
    | Some data =>
        if bool_decide (data = ∅) then
          ret (mkResponse (jsonify [("error", JStr "No JSON data provided")]) 400)
        else
          match data !! "username", data !! "password" with
          | Some name, Some password =>
              let* user := query_first_by_username name in
              match user with
              | Some user =>
                  let* ok := check_password user password in
                  if ok then
                    let* _ := login_user user in
                    ret (mkResponse (jsonify [("message", JStr "Login successful")]) 200)
                  else
                    ret (mkResponse
                           (jsonify [("error", JStr "Invalid username or password")]) 401)
              | None =>
                  ret (mkResponse
                         (jsonify [("error", JStr "Invalid username or password")]) 401)
              end
          | _, _ =>
              ret (mkResponse
                     (jsonify [("error", JStr "Username and password are required")]) 400)
          end
    end
  else ret (mkResponse (render_template "login.html") 200).

(** The loop over the rounded circles: [True] at the first radius
    above 15. *)
Fixpoint any_iris_like (circles : list (Z * Z * Z)) : bool :=
  match circles with
  | [] => false
  | (_, _, r) :: rest => if 15 <? r then true else any_iris_like rest
  end.

Definition detect_args : Cv2.hough_args := Cv2.mkHough 1 30 50 30 10 100.

(** [detect_iris_in_image]; every exception ends in [return False]. *)
Definition detect_iris_in_image (image_data : bytes) : M bool :=
  let* _ := emit (EvImdecode image_data) in
  match Cv2.imdecode cv image_data with
  | Raise _ => ret false
  | Ok None => ret false
  | Ok (Some img) =>
      match Cv2.cvtColor_BGR2GRAY cv img with
      | Raise _ => ret false
      | Ok gray =>
          let* _ := emit EvHoughCircles in
          match Cv2.HoughCircles cv gray detect_args with
          | Raise _ => ret false
          | Ok None => ret false
          | Ok (Some circles) => ret (any_iris_like (Cv2.round_circles circles))
          end
      end
  end.

Definition compare_iris_images (stored_iris_data new_iris_data : bytes) : bool :=
  true.

(** The loop of [verify_iris] over the users that have iris data. *)
Fixpoint compare_with_each (users_with_iris : list User) (iris_image_data : bytes)
    : M response :=
  match users_with_iris with
  | [] =>
      ret (mkResponse
             (jsonify [("error", JStr "Iris authentication failed. No matching iris found.")])
             401)
  | user :: rest =>
      let* _ := emit (EvCompareIris (id user)) in
      let match_result :=
        compare_iris_images (default [] (iris_data user)) iris_image_data in
      if match_result then
        let* _ := login_user user in
        ret (mkResponse
               (jsonify [("message", JStr "Iris authentication successful");
                         ("username", JStr (username user))])
               200)
      else compare_with_each rest iris_image_data
  end.

(** [verify_iris].  The calls inside its [try] that are modelled here as
    total (reading the upload, the query, flask-login) are the ones its
    500 handler is for, so that answer does not appear. *)
Definition verify_iris (req : request) : M response :=
  match files req !! "iris_image" with
  | None => ret (mkResponse (jsonify [("error", JStr "No iris image provided")]) 400)
  | Some iris_image_data =>
      let* iris_detected := detect_iris_in_image iris_image_data in
      if negb iris_detected then
        ret (mkResponse
               (jsonify [("error", JStr "No iris detected in the image. Please ensure your eye is clearly visible and well-lit.")])
               400)
      else
        let* users_with_iris := query_users_with_iris in
        match users_with_iris with
        | [] =>
            ret (mkResponse
                   (jsonify [("error", JStr "No registered iris data found in the system")])
                   400)
        | _ :: _ => compare_with_each users_with_iris iris_image_data
        end
  end.

(** The views as [@app.route] registers them: a rule and the function
    under the decorator, nothing in between. *)
Definition url_map (rule : string) : option view :=
  if bool_decide (rule = "/login") then Some login
  else if bool_decide (rule = "/verify_iris") then Some verify_iris
  else None.

(** Requests served one after the other: arrival time, rule, request. *)
Fixpoint serve (route : string -> option view)
    (reqs : list (datetime * string * request)) (w : world)
    : list (response * list event) * world :=
  match reqs with
  | [] => ([], w)
  | (t, rule, req) :: rest =>
      match route rule with
      | Some f =>
          let '(resp, w1, tr) := f req (with_clock t w) in
          let '(out, w2) := serve route rest w1 in
          ((resp, tr) :: out, w2)
      | None =>
          let '(out, w2) := serve route rest (with_clock t w) in
          ((mkResponse (jsonify [("error", JStr "Not Found")]) 404, []) :: out, w2)
      end
  end.

End Routes.

End App.

(** ** numpy arithmetic on float64 values *)
Module Numpy.
Local Open Scope R_scope.

(** A float64 value: a number, taken as the real it denotes (rounding
    is not part of the embedding), an infinity or NaN. *)
Inductive float64 : Type :=
| Num (r : R)
| Inf (negative : bool)
| NaN.

Definition is_negative (x : R) : bool := if Rlt_dec x 0 then true else false.

Definition fmul (a b : float64) : float64 :=
  match a, b with
  | NaN, _ | _, NaN => NaN
  | Num x, Num y => Num (x * y)
  | Inf s, Num y | Num y, Inf s =>
      if Req_dec_T y 0 then NaN else Inf (xorb s (is_negative y))
  | Inf s, Inf s' => Inf (xorb s s')
  end.

Definition fadd (a b : float64) : float64 :=
  match a, b with
  | NaN, _ | _, NaN => NaN
  | Num x, Num y => Num (x + y)
  | Inf s, Num _ | Num _, Inf s => Inf s
  | Inf s, Inf s' => if Bool.eqb s s' then Inf s else NaN
  end.

(** Division as numpy does it: [x / 0] is an infinity, [0 / 0] is NaN,
    and neither raises. *)
Definition fdiv (a b : float64) : float64 :=
  match a, b with
  | NaN, _ | _, NaN => NaN
  | Num x, Num y =>
      if Req_dec_T y 0 then
        if Req_dec_T x 0 then NaN else Inf (is_negative x)
      else Num (x / y)
  | Inf s, Num y => Inf (xorb s (is_negative y))
  | Num _, Inf _ => Num 0
  | Inf _, Inf _ => NaN
  end.

(** [a < b] and [a >= b]; every comparison with NaN is false. *)
Definition flt (a b : float64) : bool :=
  match a, b with
  | NaN, _ | _, NaN => false
  | Num x, Num y => if Rlt_dec x y then true else false
  | Inf s, Num _ => s
  | Num _, Inf s => negb s
  | Inf s, Inf s' => s && negb s'
  end.

Definition fge (a b : float64) : bool :=
  match a, b with
  | NaN, _ | _, NaN => false
  | Num x, Num y => if Rge_dec x y then true else false
  | Inf s, Num _ => negb s
  | Num _, Inf s => s
  | Inf s, Inf s' => negb s || s'
  end.

(** Python's [min(a, b)]: [b] when [b < a], otherwise [a]. *)
Definition py_min (a b : float64) : float64 := if flt b a then b else a.

Fixpoint sum (v : list R) : R :=
  match v with
  | [] => 0
  | x :: v' => x + sum v'
  end.

(** [np.mean]: NaN for an array without elements. *)
Definition mean (v : list R) : float64 :=
  fdiv (Num (sum v)) (Num (INR (length v))).

(** The real number that [np.mean] divides out when there are elements. *)
Definition average (v : list R) : R := sum v / INR (length v).

(** [np.var] and [np.std]: the mean of the squared deviations, and its
    square root. *)
Definition var (v : list R) : float64 :=
  mean (map (fun x => (x - average v) * (x - average v)) v).

Definition fsqrt (a : float64) : float64 :=
  match a with
  | Num x => if Rlt_dec x 0 then NaN else Num (sqrt x)
  | Inf false => Inf false
  | Inf true => NaN
  | NaN => NaN
  end.

Definition std (v : list R) : float64 := fsqrt (var v).

Fixpoint sum_squares (v : list R) : R :=
  match v with
  | [] => 0
  | x :: v' => x * x + sum_squares v'
  end.

(** [np.linalg.norm] of a one-dimensional array. *)
Definition linalg_norm (v : list R) : R := sqrt (sum_squares v).

(** [array / scalar], element by element. *)
Definition true_divide (v : list R) (n : R) : list float64 :=
  map (fun x => fdiv (Num x) (Num n)) v.

(** [np.dot] of two one-dimensional arrays; arrays of different lengths
    raise ValueError.  The products are added from the right, which in
    this arithmetic gives the sum of any other order. *)
Fixpoint dot (a b : list float64) : res float64 :=
  match a, b with
  | [], [] => Ok (Num 0)
  | x :: a', y :: b' => res_bind (dot a' b') (fun s => Ok (fadd (fmul x y) s))
  | _, _ => Raise ValueError
  end.

(** [np.arange(start, stop, step)] for a positive step. *)
Definition arange (start stop step : Q) : list Q :=
  map (fun i => (start + inject_Z (Z.of_nat i) * step)%Q)
      (seq 0 (Z.to_nat (Qceiling ((stop - start) / step)))).

(** Python's slice [l[lo:hi]]: negative bounds count from the end, and
    bounds outside the list are clipped. *)
Definition slice_index (n i : Z) : Z :=
  if (i <? 0)%Z then Z.max (i + n) 0 else Z.min i n.

Definition py_slice {A} (l : list A) (lo hi : Z) : list A :=
  let n := Z.of_nat (length l) in
  let a := slice_index n lo in
  let b := slice_index n hi in
  firstn (Z.to_nat (b - a)) (skipn (Z.to_nat a) l).

(** [np.uint16] of an integer. *)
Definition uint16 (z : Z) : Z := (z mod 65536)%Z.

End Numpy.

(** ** iris_recognition.py *)
Module IrisRecognition.
Import Numpy.

(** Images as arrays of rows: one byte per pixel, or three (B, G, R). *)
Definition gray_image : Type := list (list Byte.byte).
Definition bgr_image : Type := list (list (Byte.byte * Byte.byte * Byte.byte)).

(** [array.size] of a two-dimensional array and [array.flatten()]. *)
Definition size {A} (a : list (list A)) : nat := length (concat a).
Definition flatten {A} (a : list (list A)) : list A := concat a.

(** [rows, cols] of an array whose rows have one length. *)
Definition has_shape {A} (a : list (list A)) (rows cols : nat) : Prop :=
  length a = rows /\ Forall (fun row => length row = cols) a.

(** [image[y0:y1, x0:x1]] *)
Definition crop {A} (image : list (list A)) (y0 y1 x0 x1 : Z) : list (list A) :=
  map (fun row => py_slice row x0 x1) (py_slice image y0 y1).

(** The keyword arguments of [cv2.getGaborKernel]; [theta] is given in
    units of pi. *)
Record gabor_args : Type := mkGabor {
  ksize : Z * Z;
  sigma : Q;
  theta : Q;
  lambd : Q;
  gamma : Q;
  psi : Q
}.

Definition CV_8UC3 : Z := 16.

(** What the class calls in dlib and OpenCV.  [part] of the predictor's
    result gives a landmark's coordinates. *)
Record api (rect kernel : Type) : Type := mkApi {
  imdecode : bytes -> res (option bgr_image);
  detector : option bgr_image -> res (list rect);
  predictor : bgr_image -> rect -> res (Z -> Z * Z);
  boundingRect : list (Z * Z) -> Z * Z * Z * Z;
  cvtColor_BGR2GRAY : bgr_image -> res gray_image;
  equalizeHist : gray_image -> res gray_image;
  GaussianBlur : gray_image -> Z * Z -> Z -> res gray_image;
  HoughCircles : gray_image -> Cv2.hough_args -> res (option (list Cv2.circle));
  circle : gray_image -> Z * Z -> Z -> Byte.byte -> res gray_image;
  bitwise_and : gray_image -> gray_image -> gray_image -> res gray_image;
  resize : gray_image -> Z * Z -> res gray_image;
  getGaborKernel : gabor_args -> kernel;
  filter2D : gray_image -> Z -> kernel -> res gray_image
}.
Arguments imdecode {rect kernel} _ _.
Arguments detector {rect kernel} _ _.
Arguments predictor {rect kernel} _ _ _.
Arguments boundingRect {rect kernel} _ _.
Arguments cvtColor_BGR2GRAY {rect kernel} _ _.
Arguments equalizeHist {rect kernel} _ _.
Arguments GaussianBlur {rect kernel} _ _ _ _.
Arguments HoughCircles {rect kernel} _ _ _.
Arguments circle {rect kernel} _ _ _ _ _.
Arguments bitwise_and {rect kernel} _ _ _ _.
Arguments resize {rect kernel} _ _ _.
Arguments getGaborKernel {rect kernel} _ _.
Arguments filter2D {rect kernel} _ _ _ _.

(** The two facts about OpenCV that the length of a feature vector
    rests on: [cv2.resize(src, (w, h))] returns [h] rows of [w] pixels,
    and [cv2.filter2D] returns an image of the size of its source. *)
Record contracts {rect kernel} (cv : api rect kernel) : Prop := mkContracts {
  resize_shape : forall src w h dst,
    resize cv src (w, h) = Ok dst -> has_shape dst (Z.to_nat h) (Z.to_nat w);
  filter2D_shape : forall src ddepth k rows cols,
    has_shape src rows cols ->
    exists dst, filter2D cv src ddepth k = Ok dst /\ has_shape dst rows cols
}.

Section Pipeline.

Context {rect kernel : Type} (cv : api rect kernel).

(** [_extract_eye_region]; the mask that the method fills and the masked
    copy [eye_region] are not used for the result and are left out. *)
Definition _extract_eye_region (image : bgr_image) (landmarks : Z -> Z * Z)
    : bgr_image * bgr_image :=
  let left_eye := map (fun i => landmarks (36 + Z.of_nat i)%Z) (seq 0 6) in
  let right_eye := map (fun i => landmarks (42 + Z.of_nat i)%Z) (seq 0 6) in
  let '(left_x, left_y, left_w, left_h) := boundingRect cv left_eye in
  let '(right_x, right_y, right_w, right_h) := boundingRect cv right_eye in
  let left_eye_region :=
    crop image left_y (left_y + left_h) left_x (left_x + left_w) in
  let right_eye_region :=
    crop image right_y (right_y + right_h) right_x (right_x + right_w) in
  (left_eye_region, right_eye_region).

Definition eye_args : Cv2.hough_args := Cv2.mkHough 1 20 50 30 10 30.

Definition zeros_like (a : gray_image) : gray_image :=
  map (map (fun _ => Byte.x00)) a.

Definition _process_eye_region (eye_region : bgr_image) : res (option gray_image) :=
  if (size eye_region =? 0)%nat then Ok None
  else
    res_bind (cvtColor_BGR2GRAY cv eye_region) (fun gray_eye =>
    res_bind (equalizeHist cv gray_eye) (fun gray_eye =>
    res_bind (GaussianBlur cv gray_eye (7, 7)%Z 0%Z) (fun blurred =>
    res_bind (HoughCircles cv blurred eye_args) (fun circles =>
    match circles with
    | Some circles =>
        match Cv2.round_circles circles with
        | (x, y, r) :: _ =>
            let '(x, y, r) := (uint16 x, uint16 y, uint16 r) in
            let mask := zeros_like gray_eye in
            res_bind (circle cv mask (x, y) r Byte.xff) (fun mask =>
            res_bind (bitwise_and cv gray_eye gray_eye mask) (fun iris =>
            res_bind (resize cv iris (100, 100)%Z) (fun iris =>
            Ok (Some iris))))
        | [] => Raise IndexError
        end
    | None => Ok None
    end)))).

(** The filter bank: for each angle, each of the three frequencies. *)
Definition gabor_bank : list gabor_args :=
  flat_map (fun theta =>
              map (fun freq => mkGabor (21, 21)%Z 5 theta (1 / freq) (1 # 2) 0)
                  [1 # 10; 2 # 10; 3 # 10]%Q)
           (arange 0 1 (1 # 4)).

(** The loop of [_extract_iris_features] over the filter bank. *)
Fixpoint filter_each (iris : gray_image) (bank : list gabor_args)
    : res (list (list Byte.byte)) :=
  match bank with
  | [] => Ok []
  | args :: rest =>
      res_bind (filter2D cv iris CV_8UC3 (getGaborKernel cv args)) (fun filtered =>
      res_bind (filter_each iris rest) (fun features =>
      Ok (flatten filtered :: features)))
  end.

Definition _extract_iris_features (iris : option gray_image)
    : res (option (list Byte.byte)) :=
  match iris with
  | None => Ok None
  | Some iris =>
      res_bind (filter_each iris gabor_bank) (fun features =>
      Ok (Some (concat features)))
  end.

(** The body of the [try] in [process_image]. *)
Definition process_image_body (image_data : bytes) : res (option (list Byte.byte)) :=
  res_bind (imdecode cv image_data) (fun image =>
  res_bind (detector cv image) (fun faces =>
  match faces, image with
  | [], _ => Ok None
  | _ :: _, None => Raise TypeError
  | face :: _, Some image =>
      res_bind (predictor cv image face) (fun landmarks =>
      let '(left_eye, right_eye) := _extract_eye_region image landmarks in
      res_bind (_process_eye_region left_eye) (fun left_iris =>
      res_bind (_process_eye_region right_eye) (fun right_iris =>
      res_bind (_extract_iris_features left_iris) (fun left_features =>
      res_bind (_extract_iris_features right_iris) (fun right_features =>
      match left_features, right_features with
      | Some left_features, Some right_features =>
          Ok (Some (left_features ++ right_features))
      | _, _ => Ok None
      end)))))
  end)).

(** [process_image]: any exception is caught and gives [None]. *)
Definition process_image (image_data : bytes) : option (list Byte.byte) :=
  match process_image_body image_data with
  | Ok features => features
  | Raise _ => None
  end.

End Pipeline.

(** [compare_iris_features]; the default threshold is 0.8. *)
Definition compare_iris_features (features1 features2 : option (list R))
    (threshold : R) : res bool :=
  match features1, features2 with
  | Some features1, Some features2 =>
      let features1_norm := true_divide features1 (linalg_norm features1) in
      let features2_norm := true_divide features2 (linalg_norm features2) in
      res_bind (dot features1_norm features2_norm) (fun similarity =>
      Ok (fge similarity (Num threshold)))
  | _, _ => Ok false
  end.

Definition default_threshold : R := 8 / 10.

(** The number that a feature component (a uint8) is. *)
Definition component (b : Byte.byte) : R := IZR (Z.of_N (Byte.to_N b)).

End IrisRecognition.

(** ** utils.py *)
Module Utils.
Import Numpy IrisRecognition.
Local Open Scope R_scope.

(** An image argument: [len(image.shape)] is 2 for a grayscale image
    and 3 for a colour image. *)
Inductive ndarray : Type :=
| Gray2D (px : gray_image)
| Color3D (px : bgr_image).

(** The pixel values of a grayscale image, as numpy's reductions see
    them. *)
Definition pixels (gray : gray_image) : list R := map component (flatten gray).

Section Quality.

(** [cv2.cvtColor(image, cv2.COLOR_BGR2GRAY)] and
    [cv2.Laplacian(gray, cv2.CV_64F)]. *)
Variable cvtColor_BGR2GRAY : bgr_image -> res gray_image.
Variable Laplacian : gray_image -> res (list (list R)).

(** The body of the [try] in [calculate_iris_quality_score]. *)
Definition quality_score_body (image : ndarray) : res float64 :=
  res_bind (match image with
            | Color3D px => cvtColor_BGR2GRAY px
            | Gray2D px => Ok px
            end) (fun gray =>
  let mean_intensity := mean (pixels gray) in
  let std_intensity := std (pixels gray) in
  res_bind (Laplacian gray) (fun laplacian =>
  let laplacian_var := var (flatten laplacian) in
  let intensity_score := py_min (fdiv mean_intensity (Num (1275 / 10))) (Num 1) in
  let contrast_score := py_min (fdiv std_intensity (Num 64)) (Num 1) in
  let sharpness_score := py_min (fdiv laplacian_var (Num 500)) (Num 1) in
  let quality_score :=
    fadd (fadd (fmul (Num (3 / 10)) intensity_score)
               (fmul (Num (3 / 10)) contrast_score))
         (fmul (Num (4 / 10)) sharpness_score) in
  Ok quality_score)).

(** [calculate_iris_quality_score]: an exception is logged and gives 0.0. *)
Definition calculate_iris_quality_score (image : ndarray) : float64 :=
  match quality_score_body image with
  | Ok quality_score => quality_score
  | Raise _ => Num 0
  end.

End Quality.

End Utils.

(** ** Specification predicates and sample data *)
Module Spec.
Import Runtime.

(** The upload under the form field [iris_image]. *)
Definition uploads (req : request) (data : bytes) : Prop :=
  files req !! "iris_image" = Some data.

(** The circles that [cv2.HoughCircles] reports for an upload, inside
    [detect_iris_in_image]. *)
Definition detected_circles {image} (cv : Cv2.api image) (data : bytes)
    (circles : option (list Cv2.circle)) : Prop :=
  exists img gray,
    Cv2.imdecode cv data = Ok (Some img) /\
    Cv2.cvtColor_BGR2GRAY cv img = Ok gray /\
    Cv2.HoughCircles cv gray App.detect_args = Ok circles.

(** The limiter asked once per arrival time, for one address: its
    answers in order, and the world afterwards. *)
Fixpoint limiter_answers (env : Security.environ) (ip : string)
    (times : list datetime) (w : world) : list bool * world :=
  match times with
  | [] => ([], w)
  | t :: rest =>
      let '(limited, w1, _) := Security.is_rate_limited env ip (with_clock t w) in
      let '(answers, w2) := limiter_answers env ip rest w1 in
      (limited :: answers, w2)
  end.

(** The dot product of two real vectors. *)
Fixpoint dot_product (u v : list R) : R :=
  match u, v with
  | x :: u', y :: v' => (x * y + dot_product u' v')%R
  | _, _ => 0%R
  end.

(** [u] is [v] normalized to unit L2 norm: a vector of norm 1 of which
    [v] is a positive multiple. *)
Definition unit_normalized (v u : list R) : Prop :=
  Numpy.linalg_norm u = 1%R /\ exists k : R, (0 < k)%R /\ v = map (Rmult k) u.

(** The match decision in the words of the specification: the dot
    product of the two vectors, each normalized to unit L2 norm, is at
    least the threshold. *)
Definition cosine_match (v1 v2 : list R) (t : R) : Prop :=
  exists u1 u2,
    unit_normalized v1 u1 /\ unit_normalized v2 u2 /\ (t <= dot_product u1 u2)%R.

(** A JSON body [{"username": ..., "password": ...}]. *)
Definition credentials (name password : string) : gmap string string :=
  <["username" := name]> (<["password" := password]> ∅).

End Spec.

Module Samples.
Import Runtime.

(** A stand-in for OpenCV on synthetic uploads: every byte [b] of the
    buffer draws one circle of radius [b / 10] around (50, 50), the
    Hough transform reports the circles whose radius lies between
    [minRadius] and [maxRadius], and the empty buffer is refused as
    [cv2.imdecode] refuses it. *)
Definition synthetic_cv : Cv2.api (list Cv2.circle) :=
  Cv2.mkApi (list Cv2.circle)
    (fun data =>
       match data with
       | [] => Raise cv2_error
       | _ :: _ =>
           Ok (Some (map (fun b => (50 # 1, 50 # 1, Z.of_N (Byte.to_N b) # 10)%Q) data))
       end)
    (fun img => Ok img)
    (fun gray args =>
       match filter (fun c : Cv2.circle =>
                       Qle_bool (inject_Z (Cv2.minRadius args)) (snd c) &&
                       Qle_bool (snd c) (inject_Z (Cv2.maxRadius args))) gray with
       | [] => Ok None
       | c :: found => Ok (Some (c :: found))
       end).

(** A stand-in for werkzeug: the hash of [p] is ["hash:" ++ p]. *)
Definition toy_check_password_hash (pwhash password : string) : bool :=
  bool_decide (pwhash = "hash:" +:+ password).

(** A user without iris data, new and after four failed attempts. *)
Definition sample_user : Models.User :=
  Models.mkUser 1 "testuser" "pbkdf2:sha256:x" (Some "test@example.com") None true 0 None 0 None.

Definition fourth_failure_user : Models.User :=
  Models.mkUser 1 "testuser" "pbkdf2:sha256:x" (Some "test@example.com") None true 0 None 4 None.

(** A user who is locked until time 2000, and one who is not. *)
Definition testuser : Models.User :=
  Models.mkUser 1 "testuser" "hash:Test@123" (Some "test@example.com")
    (Some [Byte.x01; Byte.x02]) true 0 None 5 (Some 2000).

Definition seconduser : Models.User :=
  Models.mkUser 2 "newuser" "hash:NewUser@123" None
    (Some [Byte.x07]) true 0 None 0 None.

(** A process at time 1000 with the two users above, nobody logged in,
    and the in-memory rate-limit store (no Redis client). *)
Definition world0 : world :=
  mkWorld 1000 [Models.user_row testuser; Models.user_row seconduser] None None ∅.

Definition post_json (ip : string) (data : gmap string string) : request :=
  mkRequest "POST" ip (Some data) ∅.

Definition post_image (ip : string) (image_data : bytes) : request :=
  mkRequest "POST" ip None (<["iris_image" := image_data]> ∅).

(** One circle of radius 20.0, one of radius 15.3, and a dot of radius
    0.3 that the transform does not report. *)
Definition image_r20 : bytes := [Byte.xc8].
Definition image_r15_3 : bytes := [Byte.x99].
Definition image_blank : bytes := [Byte.x03].

(** A stand-in for dlib and OpenCV in [IrisRecognition]: the upload's
    bytes are the pixels of a one-row image, a face is found in every
    image that decodes, every landmark is the top left corner, the
    bounding rectangle of a set of points is the pixel at the first one,
    one circle is always found, and resizing gives a black image of the
    size asked for; the other calls return their source. *)
Definition toy_iris_cv : IrisRecognition.api unit IrisRecognition.gabor_args :=
  IrisRecognition.mkApi unit IrisRecognition.gabor_args
    (fun data =>
       match data with
       | [] => Raise cv2_error
       | _ :: _ => Ok (Some [map (fun b => (b, b, b)) data])
       end)
    (fun image => match image with Some _ => Ok [tt] | None => Raise TypeError end)
    (fun _ _ => Ok (fun _ => (0, 0)))
    (fun points => match points with (x, y) :: _ => (x, y, 1, 1) | [] => (0, 0, 0, 0) end)
    (fun image => Ok (map (map (fun p : Byte.byte * Byte.byte * Byte.byte => fst (fst p))) image))
    (fun gray => Ok gray)
    (fun gray _ _ => Ok gray)
    (fun _ _ => Ok (Some [(0 # 1, 0 # 1, 10 # 1)%Q]))
    (fun mask _ _ _ => Ok mask)
    (fun a _ _ => Ok a)
    (fun _ dsize => Ok (repeat (repeat Byte.x00 (Z.to_nat (fst dsize))) (Z.to_nat (snd dsize))))
    (fun args => args)
    (fun src _ _ => Ok src).

(** The Laplacian of an image of a single colour: 0 at every pixel. *)
Definition flat_laplacian (gray : IrisRecognition.gray_image) : res (list (list R)) :=
  Ok (map (map (fun _ => 0%R)) gray).

(** Conversion of a colour image that keeps the blue channel. *)
Definition blue_channel (image : IrisRecognition.bgr_image)
    : res IrisRecognition.gray_image :=
  Ok (map (map (fun p : Byte.byte * Byte.byte * Byte.byte => fst (fst p))) image).

(** A 2 x 2 image, all black and all white. *)
Definition all_black : IrisRecognition.gray_image :=
  [[Byte.x00; Byte.x00]; [Byte.x00; Byte.x00]].
Definition all_white : IrisRecognition.gray_image :=
  [[Byte.xff; Byte.xff]; [Byte.xff; Byte.xff]].

(** Six uploads from one address to /verify_iris, one second apart. *)
Definition six_uploads : list (datetime * string * request) :=
  map (fun t => (t, "/verify_iris", post_image "10.0.0.1" image_r20))
      [1000000; 2000000; 3000000; 4000000; 5000000; 6000000].

(** The same process with a Redis client on an empty server. *)
Definition world0_redis : world :=
  mkWorld 1000 [Models.user_row testuser; Models.user_row seconduser] None (Some ∅) ∅.

(** The rules of app.py with [verify_iris] under [@rate_limit]. *)
Definition url_map_rate_limited (rule : string) : option view :=
  if bool_decide (rule = "/verify_iris")
  then Some (Security.rate_limit Security.default_environ (App.verify_iris synthetic_cv))
  else App.url_map synthetic_cv toy_check_password_hash rule.

End Samples.

(** ** security.py: the checks on text input *)
Module SecurityInput.
Import Stdlib.Strings.Ascii.

(** A Python [str], as the list of its characters. *)
Definition str : Type := list ascii.

(** [s.startswith(p)] *)
Fixpoint starts_with (p s : str) : bool :=
  match p, s with
  | [], _ => true
  | _ :: _, [] => false
  | c :: p', d :: s' => bool_decide (c = d) && starts_with p' s'
  end.

(** The scan of [s.replace(old, new)] for a non-empty [old], from the
    left and without overlaps: [skip] characters of a match found
    earlier are still to be passed over. *)
Fixpoint replace_from (old new : str) (skip : nat) (s : str) : str :=
  match s with
  | [] => []
  | c :: rest =>
      match skip with
      | S k => replace_from old new k rest
      | O =>
          if starts_with old s
          then new ++ replace_from old new (length old - 1) rest
          else c :: replace_from old new 0 rest
      end
  end.

(** [s.replace(old, new)]; an empty [old] matches before every character
    and at the end. *)
Definition str_replace (old new s : str) : str :=
  match old with
  | [] => new ++ flat_map (fun c => c :: new) s
  | _ :: _ => replace_from old new 0 s
  end.

(** [p in s] for two strings. *)
Definition occurs (p s : str) : Prop := exists a b, s = a ++ p ++ b.

Definition dangerous_chars : list str :=
  [ ["<"%char]; [">"%char]; ["034"%char]; ["'"%char]; [";"%char];
    ["-"%char; "-"%char] ].

Definition sanitize_input (data : str) : str :=
  fold_left (fun sanitized char => str_replace char [] sanitized) dangerous_chars data.

(** The four [str] methods that [validate_password_strength] calls on a
    character; they are Unicode's and come from outside. *)
Record char_classes : Type := mkClasses {
  isupper : ascii -> bool;
  islower : ascii -> bool;
  isdigit : ascii -> bool;
  isalnum : ascii -> bool
}.

Definition validate_password_strength (cc : char_classes) (password : str) : bool :=
  if (length password <? 8)%nat then false
  else
    let has_upper := existsb (isupper cc) password in
    let has_lower := existsb (islower cc) password in
    let has_digit := existsb (isdigit cc) password in
    let has_special := existsb (fun c => negb (isalnum cc c)) password in
    has_upper && has_lower && has_digit && has_special.

End SecurityInput.

(** ** models.py: class SystemConfig *)
Module SystemConfig.

(** A row of the [system_config] table. *)
Record row : Type := mkRow {
  id : Z;
  key : string;
  value : string;
  description : option string;
  updated_at : datetime;
  updated_by : option Z
}.

(** The table, in the order of insertion. *)
Definition table : Type := list row.

(** [cls.query.filter_by(key=key).first()] *)
Fixpoint first_by_key (tbl : table) (k : string) : option row :=
  match tbl with
  | [] => None
  | r :: rest => if bool_decide (key r = k) then Some r else first_by_key rest k
  end.

Definition get_setting (tbl : table) (k : string) (default : option string)
    : option string :=
  match first_by_key tbl k with
  | Some setting => Some (value setting)
  | None => default
  end.

(** The row object that [first()] returned, changed in place. *)
Fixpoint update_first (k : string) (f : row -> row) (tbl : table) : table :=
  match tbl with
  | [] => []
  | r :: rest =>
      if bool_decide (key r = k) then f r :: rest
      else r :: update_first k f rest
  end.

(** The primary key that the database gives a new row: one more than
    the largest in the table. *)
Definition next_id (tbl : table) : Z :=
  1 + fold_right (fun r m => Z.max (id r) m) 0 tbl.

(** [SystemConfig.set_setting], committed; [utcnow] is the value of
    [datetime.utcnow()] (for a new row, the column default). *)
Definition set_setting (utcnow : datetime) (tbl : table) (k v : string)
    (descr : option string) (by_user : option Z) : table :=
  match first_by_key tbl k with
  | Some _ =>
      update_first k
        (fun setting =>
           mkRow (id setting) (key setting) v (description setting) utcnow by_user)
        tbl
  | None => tbl ++ [mkRow (next_id tbl) k v descr utcnow by_user]
  end.

End SystemConfig.

(** ** errors.py *)
Module Errors.

(** The values that the response dictionaries hold. *)
Inductive pyvalue : Type :=
| PBool (b : bool)
| PStr (s : string)
| PInt (n : Z)
| PIsoformat (t : datetime).

(** [BiometricError] and its six subclasses. *)
Inductive error_class : Type :=
| BiometricError
| IrisRecognitionError
| AuthenticationError
| RateLimitError
| ValidationError
| DatabaseError
| ConfigurationError.

Definition class_name (c : error_class) : string :=
  match c with
  | BiometricError => "BiometricError"
  | IrisRecognitionError => "IrisRecognitionError"
  | AuthenticationError => "AuthenticationError"
  | RateLimitError => "RateLimitError"
  | ValidationError => "ValidationError"
  | DatabaseError => "DatabaseError"
  | ConfigurationError => "ConfigurationError"
  end.

(** An instance: the three attributes that [__init__] sets.  [__init__]
    calls [super().__init__()] without arguments, so the instance has no
    [args]. *)
Record biometric_error : Type := mkError {
  cls : error_class;
  message : string;
  status_code : Z;
  payload : option (gmap string pyvalue)
}.

(** An exception that reaches [handle_error_response]: one of the above,
    or another one, given by the name of its class and its [str()]. *)
Inductive error : Type :=
| Biometric (e : biometric_error)
| Other (name : string) (text : string).

(** [str(error)]: the text of [args], which is empty for the classes of
    this file. *)
Definition str_of (e : error) : string :=
  match e with
  | Biometric _ => ""
  | Other _ text => text
  end.

Definition type_name (e : error) : string :=
  match e with
  | Biometric b => class_name (cls b)
  | Other name _ => name
  end.

(** [BiometricError.to_dict]; [utcnow] is the value of
    [datetime.utcnow()]. *)
Definition to_dict (utcnow : datetime) (self : biometric_error) : gmap string pyvalue :=
  let rv := default ∅ (payload self) in
  let rv := <["error" := PBool true]> rv in
  let rv := <["message" := PStr (message self)]> rv in
  let rv := <["status_code" := PInt (status_code self)]> rv in
  let rv := <["timestamp" := PIsoformat utcnow]> rv in
  rv.

(** A call of [logger.log_system_error]. *)
Record system_error_log : Type := mkLog {
  error_type : string;
  error_message : string
}.

(** [handle_error_response]: the response, the status code, and what is
    logged. *)
Definition handle_error_response (utcnow : datetime) (e : error)
    : gmap string pyvalue * Z * system_error_log :=
  let '(response, status) :=
    match e with
    | Biometric b => (to_dict utcnow b, status_code b)
    | Other _ _ =>
        (<["timestamp" := PIsoformat utcnow]>
           (<["status_code" := PInt 500]>
              (<["message" := PStr (str_of e)]>
                 (<["error" := PBool true]> ∅))),
         500)
    end in
  (response, status, mkLog (type_name e) (str_of e)).

End Errors.

(** ** app.py: registration and the debug route *)
Module AppRoutes.
Import Runtime.

(** How a view ends: with a response, or with an exception that no
    handler of the view catches. *)
Inductive outcome : Type :=
| Returned (r : response)
| Unhandled (exception : string).

(** The process together with the files of the temporary directory, by
    file name. *)
Record site : Type := mkSite {
  world_of : world;
  tempdir : gmap string bytes
}.

(** Flask's [session] of one client. *)
Definition session_vars : Type := gmap string string.

Definition with_users (us : list User) (w : world) : world :=
  mkWorld (clock w) us (session_user w) (redis_client w) (rate_limit_storage w).

(** The primary key of a new row: one more than the largest in the
    table. *)
Definition next_user_id (us : list User) : Z :=
  1 + fold_right (fun u m => Z.max (id u) m) 0 us.

(** The row that [first()] returned, changed in place. *)
Fixpoint update_first_user (name : string) (f : User -> User) (us : list User)
    : list User :=
  match us with
  | [] => []
  | u :: rest =>
      if bool_decide (username u = name) then f u :: rest
      else u :: update_first_user name f rest
  end.

Section Routes.

(** werkzeug's [generate_password_hash]. *)
Variable generate_password_hash : string -> string.

Definition register (req : request) (sess : session_vars) (s : site)
    : outcome * session_vars * site :=
  if bool_decide (method req = "POST") then
    match get_json req with
    | None => (Unhandled "TypeError", sess, s)
    | Some data =>
        match data !! "username" with
        | None => (Unhandled "KeyError", sess, s)
        | Some name =>
            match App.first_by_username (world_of s) name with
            | Some _ =>
                (Returned (mkResponse (jsonify [("error", JStr "Username already exists")]) 400),
                 sess, s)
            | None =>
                match data !! "password" with
                | None => (Unhandled "KeyError", sess, s)
                | Some password =>
                    let pwhash := generate_password_hash password in
                    let '(iris, sess1, files1) :=
                      match sess !! "temp_iris_file" with
                      | Some temp_name =>
                          match tempdir s !! temp_name with
                          | Some content =>
                              (Some content, delete "temp_iris_file" sess,
                               delete temp_name (tempdir s))
                          | None => (None, delete "temp_iris_file" sess, tempdir s)
                          end
                      | None => (None, sess, tempdir s)
                      end in
                    let w := world_of s in
                    let user :=
                      mkUser (next_user_id (users w)) name pwhash iris (clock w) in
                    (Returned (mkResponse (jsonify [("message", JStr "Registration successful")]) 201),
                     sess1,
                     mkSite (with_users (users w ++ [user]) w) files1)
                end
            end
        end
    end
  else (Returned (mkResponse (render_template "register.html") 200), sess, s).

(** What stands behind two exceptions of the route: the class of the
    exception that werkzeug raises for a password that is not a string
    ([AttributeError] or [TypeError], by version), and Flask's
    [PROPAGATE_EXCEPTIONS] (on in debug and testing mode), under which
    the response of a failed request, and with it the session cookie, is
    not written. *)
Variable hash_type_error : string.
Variable propagate_exceptions : bool.

(** [register] on a JSON body whose values are strings or [null]
    ([None]); numbers, lists and objects as values are not part of the
    embedding.  A [null] user name matches no row ([IS NULL] on a column
    that is [nullable=False]), the temporary file is read and removed,
    and only then [db.session.commit()] raises [IntegrityError]: the row
    is not stored, the file is gone. *)
Definition register_json (http_method : string)
    (body : option (gmap string (option string))) (sess : session_vars) (s : site)
    : outcome * session_vars * site :=
  if bool_decide (http_method = "POST") then
    match body with
    | None => (Unhandled "TypeError", sess, s)
    | Some data =>
        match data !! "username" with
        | None => (Unhandled "KeyError", sess, s)
        | Some name =>
            match name ≫= App.first_by_username (world_of s) with
            | Some _ =>
                (Returned (mkResponse (jsonify [("error", JStr "Username already exists")]) 400),
                 sess, s)
            | None =>
                match data !! "password" with
                | None => (Unhandled "KeyError", sess, s)
                | Some None => (Unhandled hash_type_error, sess, s)
                | Some (Some password) =>
                    let pwhash := generate_password_hash password in
                    let '(iris, sess1, files1) :=
                      match sess !! "temp_iris_file" with
                      | Some temp_name =>
                          match tempdir s !! temp_name with
                          | Some content =>
                              (Some content, delete "temp_iris_file" sess,
                               delete temp_name (tempdir s))
                          | None => (None, delete "temp_iris_file" sess, tempdir s)
                          end
                      | None => (None, sess, tempdir s)
                      end in
                    let w := world_of s in
                    match name with
                    | Some name =>
                        let user :=
                          mkUser (next_user_id (users w)) name pwhash iris (clock w) in
                        (Returned
                           (mkResponse (jsonify [("message", JStr "Registration successful")]) 201),
                         sess1,
                         mkSite (with_users (users w ++ [user]) w) files1)
                    | None =>
                        (Unhandled "IntegrityError",
                         (if propagate_exceptions then sess else sess1),
                         mkSite w files1)
                    end
                end
            end
        end
    end
  else (Returned (mkResponse (render_template "register.html") 200), sess, s).

Definition temp_filename (sess : session_vars) : string :=
  "iris_temp_" +:+ default "unknown" (sess !! "csrf_token") +:+ ".dat".

Definition capture_iris_registration (req : request) (sess : session_vars) (s : site)
    : outcome * session_vars * site :=
  match files req !! "iris_image" with
  | None =>
      (Returned (mkResponse (jsonify [("error", JStr "No iris image provided")]) 400),
       sess, s)
  | Some iris_image =>
      let name := temp_filename sess in
      (Returned (mkResponse (jsonify [("message", JStr "Iris data captured successfully")]) 200),
       <["temp_iris_file" := name]> sess,
       mkSite (world_of s) (<[name := iris_image]> (tempdir s)))
  end.

(** [/debug/add_iris/<username>] *)
Definition debug_add_iris (name : string) (req : request) (s : site)
    : outcome * site :=
  match files req !! "iris_image" with
  | None =>
      (Returned (mkResponse (jsonify [("error", JStr "No iris image provided")]) 400), s)
  | Some iris_image =>
      let w := world_of s in
      match App.first_by_username w name with
      | None => (Returned (mkResponse (jsonify [("error", JStr "User not found")]) 404), s)
      | Some _ =>
          let us :=
            update_first_user name
              (fun u => mkUser (id u) (username u) (password_hash u) (Some iris_image)
                          (created_at u))
              (users w) in
          (Returned
             (mkResponse
                (jsonify [("message", JStr ("Iris data added to user " +:+ name));
                          ("iris_data_size", JInt (Z.of_nat (length iris_image)))])
                200),
           mkSite (with_users us w) (tempdir s))
      end
  end.

End Routes.

End AppRoutes.

(** ** manage.py: the clean-logs command *)
Module Manage.

(** The rows of [access_logs] and [security_events], by what the command
    reads of them: the primary key and the timestamp. *)
Record log_row : Type := mkLogRow {
  row_id : Z;
  timestamp : datetime
}.

Record log_tables : Type := mkTables {
  access_logs : list log_row;
  security_events : list log_row
}.

(** A line that the command prints. *)
Inductive echo : Type :=
| Cleaned (deleted_access deleted_events : nat)
| ErrorCleaningLogs (e : exn).

(** The names bound at the top level of manage.py: its imports, [cli]
    and its eight commands. *)
Definition module_globals : list string :=
  [ "click"; "os"; "sys"; "FlaskGroup"; "app"; "db"; "User"; "SystemConfig";
    "datetime"; "generate_password_hash"; "cli";
    "init_db"; "create_admin"; "reset_password"; "list_users"; "update_config";
    "backup_db"; "clean_logs"; "check_system" ].

Definition timedelta_days (d : Z) : timedelta := timedelta_seconds (d * 86400).

(** [query.filter(timestamp < cutoff_date).delete()]: the rows left and
    the number deleted. *)
Definition delete_older (cutoff : datetime) (rows : list log_row) : list log_row * nat :=
  (List.filter (fun r => negb (timestamp r <? cutoff)) rows,
   length (List.filter (fun r => timestamp r <? cutoff) rows)).

(** The body of [clean_logs] run with the global names [namespace]; an
    exception is printed and the session rolled back. *)
Definition clean_logs_in (namespace : list string) (utcnow : datetime) (days : Z)
    (db : log_tables) : log_tables * list echo :=
  match load_global namespace "timedelta" with
  | Raise e => (db, [ErrorCleaningLogs e])
  | Ok _ =>
      let cutoff_date := utcnow - timedelta_days days in
      let '(access, deleted_access) := delete_older cutoff_date (access_logs db) in
      let '(events, deleted_events) := delete_older cutoff_date (security_events db) in
      (mkTables access events, [Cleaned deleted_access deleted_events])
  end.

Definition clean_logs : datetime -> Z -> log_tables -> log_tables * list echo :=
  clean_logs_in module_globals.

End Manage.

(** ** models.py: attempts of one identity, one after the other *)
Module Attempts.

(** Calls of [record_login_attempt] on one user object, each with the
    clock's reading and the outcome, by a caller that catches the
    exception of a call and goes on. *)
Definition replay (attempts : list (datetime * bool)) (u : Models.User) : Models.User :=
  fold_left (fun u a => fst (Models.record_login_attempt (fst a) u (snd a))) attempts u.

(** [n] failed attempts at the times [times]. *)
Definition failures (times : list datetime) : list (datetime * bool) :=
  map (fun t => (t, false)) times.

End Attempts.

(** ** Auxiliary definitions of the properties below *)
Module Facts.
Import Runtime.
Import Stdlib.Strings.Ascii.

Definition hyphen : ascii := "-"%char.

(** Two hyphens next to each other somewhere in the string. *)
Fixpoint has_double_hyphen (s : SecurityInput.str) : bool :=
  match s with
  | c :: ((d :: _) as rest) =>
      (bool_decide (c = hyphen) && bool_decide (d = hyphen)) || has_double_hyphen rest
  | _ => false
  end.

(** The query by user name of app.py, over the rows. *)
Definition find_user (name : string) (us : list User) : option User :=
  head (filter (fun u => Is_true (bool_decide (username u = name))) us).

(** [User.iris_data.isnot(None)] *)
Definition has_iris (u : User) : bool := bool_decide (iris_data u <> None).

(** The limiter's answer for an address, read off the state. *)
Definition answer (env : Security.environ) (ip : string) (w : world) : bool :=
  match redis_client w with
  | Some db =>
      match Security.redis_get (clock w) db (Security.get_rate_limit_key ip) with
      | Some n => Security.max_attempts_of env <=? n
      | None => false
      end
  | None =>
      match rate_limit_storage w !! ip with
      | Some d =>
          if timedelta_seconds (Security.window_of env) <? clock w - start_time d then false
          else Security.max_attempts_of env <=? attempts d
      | None => false
      end
  end.

End Facts.

(** ** Sample data for the routes and checks above *)
Module Fixtures.
Import Runtime.
Import Stdlib.Strings.Ascii.

(** The character classes restricted to ASCII. *)
Definition between (lo hi : nat) (c : ascii) : bool :=
  ((lo <=? nat_of_ascii c) && (nat_of_ascii c <=? hi))%nat.

Definition ascii_classes : SecurityInput.char_classes :=
  SecurityInput.mkClasses
    (between 65 90) (between 97 122) (between 48 57)
    (fun c => between 65 90 c || between 97 122 c || between 48 57 c).

(** The counterpart of [Samples.toy_check_password_hash]. *)
Definition toy_generate_password_hash (password : string) : string :=
  "hash:" +:+ password.

(** The process of [Samples.world0] with an empty temporary directory. *)
Definition site0 : AppRoutes.site := AppRoutes.mkSite Samples.world0 ∅.

(** A process whose only user has no iris data. *)
Definition world_unenrolled : world :=
  mkWorld 1000 [mkUser 1 "testuser" "hash:Test@123" None 0] None None ∅.

Definition site_unenrolled : AppRoutes.site := AppRoutes.mkSite world_unenrolled ∅.

(** A registration of a new user name, and the login that follows. *)
Definition alice : gmap string string := Spec.credentials "alice" "Alice@123".

Definition register_alice : request := Samples.post_json "10.0.0.1" alice.

(** The requests of the lockout test: five logins of [testuser] with a
    wrong password, one second apart, and a sixth after them; and a
    login with the right password.  [world_unenrolled] is the table that
    the test's [setUp] leaves. *)
Definition wrong_login : request :=
  Samples.post_json "127.0.0.1" (Spec.credentials "testuser" "WrongPassword").

Definition right_login : request :=
  Samples.post_json "127.0.0.1" (Spec.credentials "testuser" "Test@123").

Definition six_failed_logins : list (datetime * string * request) :=
  map (fun t => (t, "/login", wrong_login)) [1001; 1002; 1003; 1004; 1005; 1006].

(** The session and the temporary directory after a capture by a
    client without a csrf token, and a registration body whose user
    name is [null]. *)
Definition captured_session : AppRoutes.session_vars :=
  <["temp_iris_file" := "iris_temp_unknown.dat"]> ∅.

Definition site_captured : AppRoutes.site :=
  AppRoutes.mkSite Samples.world0 (<["iris_temp_unknown.dat" := Samples.image_r20]> ∅).

Definition null_user : gmap string (option string) :=
  <["username" := None]> (<["password" := Some "Alice@123"]> ∅).

(** A configuration table with one setting. *)
Definition config0 : SystemConfig.table :=
  [SystemConfig.mkRow 1 "max_login_attempts" "5" (Some "Failed logins before lockout") 0 None].

(** A 2 x 3 colour image of one colour. *)
Definition grey_2x3 : IrisRecognition.bgr_image :=
  repeat (repeat (Byte.x80, Byte.x80, Byte.x80) 3) 2.

End Fixtures.

(** ** float64 arithmetic, bit by bit *)
Module Binary64.
Import SpecFloat.

(** IEEE 754 binary64: 53 bits of precision, exponents below 1024,
    every operation rounded to nearest, ties to even. *)
Definition prec : Z := 53.
Definition emax : Z := 1024.

Definition float64 : Type := spec_float.

Definition zero : float64 := S754_zero false.

(** The float64 nearest to an integer: integer literals and
    [astype(float)]. *)
Definition of_Z (z : Z) : float64 := binary_normalize prec emax z 0 false.

(** [x * 2 ** e] *)
Definition ldexp (x : float64) (e : Z) : float64 := SFldexp prec emax x e.

Definition fmul : float64 -> float64 -> float64 := SFmul prec emax.
Definition fadd : float64 -> float64 -> float64 := SFadd prec emax.
Definition fdiv : float64 -> float64 -> float64 := SFdiv prec emax.
Definition fsqrt : float64 -> float64 := SFsqrt prec emax.

(** [a >= b]; false when either is NaN. *)
Definition fge (a b : float64) : bool :=
  match SFcompare a b with
  | Some Gt | Some Eq => true
  | _ => false
  end.

(** The rational that a finite float64 is. *)
Definition to_Q (x : float64) : option Q :=
  match x with
  | S754_zero _ => Some 0%Q
  | S754_finite s m e =>
      Some (if (0 <=? e)%Z
            then inject_Z (cond_Zopp s (Z.pos m) * 2 ^ e)
            else Qmake (cond_Zopp s (Z.pos m)) (Z.to_pos (2 ^ (- e))))
  | _ => None
  end.

(** [np.dot] of two one-dimensional float64 arrays, the products added
    one after the other from 0.0.  (A BLAS may add them in another
    order or fuse the multiplication into the addition; for one or two
    products the order does not matter.) *)
Definition dot (a b : list float64) : res float64 :=
  if (length a =? length b)%nat
  then Ok (fold_left (fun acc p => fadd acc (fmul (fst p) (snd p))) (combine a b) zero)
  else Raise ValueError.

(** [np.linalg.norm] of a one-dimensional array: [sqrt(x.dot(x))]. *)
Definition linalg_norm (x : list float64) : float64 :=
  fsqrt (fold_left (fun acc xi => fadd acc (fmul xi xi)) x zero).

Definition true_divide (x : list float64) (n : float64) : list float64 :=
  map (fun xi => fdiv xi n) x.

Definition compare_iris_features (features1 features2 : option (list float64))
    (threshold : float64) : res bool :=
  match features1, features2 with
  | Some features1, Some features2 =>
      let features1_norm := true_divide features1 (linalg_norm features1) in
      let features2_norm := true_divide features2 (linalg_norm features2) in
      res_bind (dot features1_norm features2_norm) (fun similarity =>
      Ok (fge similarity threshold))
  | _, _ => Ok false
  end.

End Binary64.

(** ** float64 arithmetic, by the error of each operation *)
Module Rounded.
Local Open Scope R_scope.

(** The unit roundoff of binary64, half the gap between 1 and the next
    number. *)
Definition unit_roundoff : R := / 2 ^ 53.

(** The powers of two at the two ends of the normal range of binary64. *)
Definition smallest_normal : R := / 2 ^ 1022.
Definition largest_power : R := 2 ^ 1023.

(** [x] is 0, or its magnitude lies in the normal range: neither an
    overflow nor a subnormal number comes of rounding it. *)
Definition normal_range (x : R) : Prop :=
  x = 0 \/ smallest_normal <= Rabs x <= largest_power.

(** [y] can be the float64 result of an operation whose exact result is
    [x]: for an exact result in the normal range, rounding to nearest
    moves it by at most the unit roundoff, relatively, and 0 stays 0.
    An exact result is always admitted, so that a product fused into an
    addition is covered.  Operations whose exact result leaves the
    normal range are not described. *)
Definition rounds (x y : R) : Prop :=
  normal_range x /\ Rabs (y - x) <= unit_roundoff * Rabs x.

(** The sum of the numbers of a list, each addition rounded, in any
    order and any grouping: one after the other from the left or from
    the right, pairwise, or in the lanes of a vector unit. *)
Inductive sums : list R -> R -> Prop :=
| sums_one (x : R) : sums [x] x
| sums_add (l1 l2 : list R) (s1 s2 s : R) :
    sums l1 s1 -> sums l2 s2 -> rounds (s1 + s2) s -> sums (l1 ++ l2) s
| sums_perm (l l' : list R) (s : R) : Permutation l l' -> sums l s -> sums l' s.

(** [np.dot] of two one-dimensional arrays. *)
Inductive dot : list R -> list R -> res R -> Prop :=
| dot_empty : dot [] [] (Ok 0)
| dot_sums (a b products : list R) (d : R) :
    length a = length b -> a <> [] ->
    Forall2 rounds (zip_with Rmult a b) products ->
    sums products d ->
    dot a b (Ok d)
| dot_mismatch (a b : list R) : length a <> length b -> dot a b (Raise ValueError).

(** [np.linalg.norm] of a one-dimensional array: [sqrt(x.dot(x))]. *)
Definition linalg_norm (x : list R) (n : R) : Prop :=
  exists sqnorm, dot x x (Ok sqnorm) /\ rounds (sqrt sqnorm) n.

(** [array / scalar] for a scalar that is not 0. *)
Definition true_divide (x : list R) (n : R) (q : list R) : Prop :=
  Forall2 (fun xi qi => rounds (xi / n) qi) x q.

(** The local variable [similarity] of [compare_iris_features], on the
    computations in which both norms come out different from 0 and, as
    [rounds] has it, no exact result leaves the normal range;
    [Raise ValueError] for arrays of different lengths. *)
Inductive similarity : list R -> list R -> res R -> Prop :=
| similarity_dot (features1 features2 : list R)
    (n1 n2 : R) (features1_norm features2_norm : list R) (d : res R) :
    linalg_norm features1 n1 -> n1 <> 0 ->
    linalg_norm features2 n2 -> n2 <> 0 ->
    true_divide features1 n1 features1_norm ->
    true_divide features2 n2 features2_norm ->
    dot features1_norm features2_norm d ->
    similarity features1 features2 d.

Inductive compare_iris_features
    : option (list R) -> option (list R) -> R -> res bool -> Prop :=
| compare_absent_l (features2 : option (list R)) (threshold : R) :
    compare_iris_features None features2 threshold (Ok false)
| compare_absent_r (features1 : option (list R)) (threshold : R) :
    compare_iris_features features1 None threshold (Ok false)
| compare_present (features1 features2 : list R) (threshold : R) (d : res R) :
    similarity features1 features2 d ->
    compare_iris_features (Some features1) (Some features2) threshold
      (res_bind d (fun similarity =>
       Ok (if Rge_dec similarity threshold then true else false))).

(** The cosine of two vectors of non-zero norm: the exact dot product
    of the two, each divided by its exact norm. *)
Definition cosine (v1 v2 : list R) : R :=
  Spec.dot_product (map (fun x => x / Numpy.linalg_norm v1) v1)
                   (map (fun x => x / Numpy.linalg_norm v2) v2).

(** The tolerance of the matcher on the extractor's vectors. *)
Definition tolerance : R := / 10 ^ 9.

(** What is left of 1 after one rounding down. *)
Definition shrink : R := 1 - unit_roundoff.

(** [y] is [x] up to [k] roundings: between [x] shrunk [k] times and
    [x] stretched [k] times. *)
Definition near (k : nat) (x y : R) : Prop :=
  x * shrink ^ k <= y <= x / shrink ^ k.

End Rounded.

(** * Properties *)

(** ** models.py: the attempt policy *)

Section AttemptPolicy.
Import Models.

(** A failed attempt adds one to the counter in every case; whether the
    call then returns depends on the name [timedelta] being bound. *)
Lemma record_login_attempt_in_failure namespace utcnow (u : User) :
  let r := record_login_attempt_in namespace utcnow u false in
  failed_attempts (fst r) = failed_attempts u + 1.
Proof.
  unfold record_login_attempt_in; cbn.
  destruct (5 <=? failed_attempts u + 1); [|reflexivity].
  destruct (load_global namespace "timedelta"); reflexivity.
Qed.

(** With [timedelta] imported, the fifth failure locks the identity for
    30 minutes from now. *)
Lemma record_login_attempt_in_locks namespace utcnow (u : User) :
  "timedelta" ∈ namespace ->
  5 <= failed_attempts u + 1 ->
  let r := record_login_attempt_in namespace utcnow u false in
  snd r = Ok tt /\
  locked_until (fst r) = Some (utcnow + timedelta_minutes 30) /\
  Locked utcnow (fst r).
Proof.
  intros Hin Hge. unfold record_login_attempt_in, load_global; cbn.
  destruct (Z.leb_spec 5 (failed_attempts u + 1)); [|lia].
  destruct (decide ("timedelta" ∈ namespace)); [|contradiction].
  cbn. repeat split.
  exists (utcnow + timedelta_minutes 30). split; [reflexivity|].
  unfold timedelta_minutes, timedelta_seconds. lia.
Qed.

(** models.py does not bind [timedelta]. *)
Lemma timedelta_unbound : load_global module_globals "timedelta" = Raise (NameError "timedelta").
Proof. reflexivity. Qed.

(** In models.py itself: the counter goes up by one, [locked_until] is
    left as it was, and from the fifth failure on the call raises
    NameError instead of setting the lock. *)
Lemma record_login_attempt_failure utcnow (u : User) :
  record_login_attempt utcnow u false =
    (with_failed_attempts (failed_attempts u + 1) u,
     if 5 <=? failed_attempts u + 1 then Raise (NameError "timedelta") else Ok tt).
Proof.
  unfold record_login_attempt, record_login_attempt_in. cbn.
  destruct (5 <=? failed_attempts u + 1); [|reflexivity].
  rewrite timedelta_unbound. reflexivity.
Qed.

(** C1 (code defect): for an Active identity with four failures on
    record, recording the fifth failure at time 1000 raises NameError;
    the counter reaches 5 but [locked_until] stays unset, so the identity
    is not Locked. *)
Theorem record_login_attempt_fifth_failure_raises :
  Active 1000 Samples.fourth_failure_user /\
  record_login_attempt 1000 Samples.fourth_failure_user false =
    (with_failed_attempts 5 Samples.fourth_failure_user, Raise (NameError "timedelta")) /\
  locked_until (fst (record_login_attempt 1000 Samples.fourth_failure_user false)) = None /\
  Active 1000 (fst (record_login_attempt 1000 Samples.fourth_failure_user false)).
Proof.
  split; [|split; [|split]].
  - intros [t [Ht _]]. discriminate Ht.
  - reflexivity.
  - reflexivity.
  - intros [t [Ht _]]. discriminate Ht.
Qed.

End AttemptPolicy.

(** ** models.py and security.py: stored iris data *)

Section IrisData.
Import Models.

(** C10, as stated, fails for the empty byte string: after
    [set_iris_data(b'')] the column holds [b''], yet [get_iris_data]
    answers [None]. *)
Lemma get_iris_data_empty_is_none :
  iris_data (set_iris_data Samples.sample_user []) = Some [] /\
  get_iris_data (set_iris_data Samples.sample_user []) = None /\
  get_iris_data (set_iris_data Samples.sample_user []) <> Some [].
Proof. repeat split; discriminate. Qed.

(** C10 (amended): encryption and decryption are the identity on bytes;
    reading back what [set_iris_data b] stored yields [b] when [b] is not
    empty and [None] when it is; [get_iris_data] is [None] exactly when
    the column is unset or holds the empty byte string. *)
Theorem iris_data_roundtrip (u : User) (b : bytes) :
  Security.encrypt_iris_data b = b /\
  Security.decrypt_iris_data b = b /\
  Security.decrypt_iris_data (Security.encrypt_iris_data b) = b /\
  get_iris_data (set_iris_data u b) = (if bytes_truthy b then Some b else None) /\
  (get_iris_data u = None <-> iris_data u = None \/ iris_data u = Some []).
Proof.
  split; [reflexivity|]. split; [reflexivity|]. split; [reflexivity|].
  split; [reflexivity|].
  unfold get_iris_data. split.
  - destruct (iris_data u) as [[|x l]|]; cbn; intros H;
      first [discriminate H | auto].
  - intros [H|H]; rewrite H; reflexivity.
Qed.

End IrisData.

(** ** app.py: iris detection and verification *)

Import Runtime.

Section Verification.
Context {image : Type} (cv : Cv2.api image).

(** [np.round] maps a radius above 15 exactly when it is at least 15.5. *)
Lemma np_round_gt_15 (r : Q) : 15 < Cv2.np_round r <-> (31 # 2 <= r)%Q.
Proof.
  unfold Cv2.np_round.
  pose proof (Qfloor_le r) as Hlo. pose proof (Qlt_floor r) as Hhi.
  set (f := Qfloor r) in *.
  rewrite inject_Z_plus in Hhi. change (inject_Z 1) with 1%Q in Hhi.
  assert (Hcase : (f <= 14 /\ (inject_Z f <= 14)%Q) \/ (f = 15 /\ (inject_Z f == 15)%Q)
                  \/ (16 <= f /\ (16 <= inject_Z f)%Q)).
  { destruct (Z_le_gt_dec f 14) as [H|H]; [left|right].
    - split; [exact H|]. change 14%Q with (inject_Z 14). rewrite <- Zle_Qle; lia.
    - destruct (Z.eq_dec f 15) as [E|E]; [left|right].
      + split; [exact E|]. rewrite E. reflexivity.
      + assert (H16 : 16 <= f) by lia. split; [exact H16|].
        change 16%Q with (inject_Z 16). rewrite <- Zle_Qle; lia. }
  destruct (Qcompare_spec (r - inject_Z f) (1 # 2)) as [He|Hl|Hg].
  - destruct (Z.even f) eqn:Hev.
    + destruct Hcase as [[Hz Hq]|[[Hz Hq]|[Hz Hq]]].
      * split; [lia|intros; lra].
      * rewrite Hz in Hev. discriminate Hev.
      * split; [intros; lra|lia].
    + destruct Hcase as [[Hz Hq]|[[Hz Hq]|[Hz Hq]]].
      * split; [lia|intros; lra].
      * split; [intros; lra|lia].
      * split; [intros; lra|lia].
  - destruct Hcase as [[Hz Hq]|[[Hz Hq]|[Hz Hq]]].
    + split; [lia|intros; lra].
    + split; [lia|intros; lra].
    + split; [intros; lra|lia].
  - destruct Hcase as [[Hz Hq]|[[Hz Hq]|[Hz Hq]]].
    + split; [lia|intros; lra].
    + split; [intros; lra|lia].
    + split; [intros; lra|lia].
Qed.

(** The loop over the circles answers [True] exactly when one of the
    rounded radii is above 15. *)
Lemma any_iris_like_spec (circles : list (Z * Z * Z)) :
  App.any_iris_like circles = true <-> exists x y r, In (x, y, r) circles /\ 15 < r.
Proof.
  induction circles as [|[[x y] r] rest IH]; cbn.
  - split; [discriminate|]. intros (? & ? & ? & [] & _).
  - destruct (Z.ltb_spec 15 r) as [Hr|Hr].
    + split; [|reflexivity]. intros _. exists x, y, r. auto.
    + rewrite IH. split.
      * intros (x' & y' & r' & Hin & Hlt). exists x', y', r'. auto.
      * intros (x' & y' & r' & [Heq|Hin] & Hlt).
        -- inversion Heq; subst. lia.
        -- exists x', y', r'. auto.
Qed.

Lemma In_round_circles (circles : list Cv2.circle) (x y r : Q) :
  In (x, y, r) circles ->
  In (Cv2.np_round x, Cv2.np_round y, Cv2.np_round r) (Cv2.round_circles circles).
Proof.
  intros Hin. unfold Cv2.round_circles.
  apply (in_map (fun c : Cv2.circle =>
                   let '(x, y, r) := c in
                   (Cv2.np_round x, Cv2.np_round y, Cv2.np_round r)) _ _ Hin).
Qed.

(** Detection never touches the world, and starts by decoding. *)
Lemma detect_iris_in_image_world (data : bytes) (w : world) :
  final (App.detect_iris_in_image cv data w) = w.
Proof.
  unfold App.detect_iris_in_image, bind, emit, ret, final; cbn.
  destruct (Cv2.imdecode cv data) as [[img|]|]; cbn; try reflexivity.
  destruct (Cv2.cvtColor_BGR2GRAY cv img) as [gray|]; cbn; try reflexivity.
  destruct (Cv2.HoughCircles cv gray App.detect_args) as [[c|]|]; reflexivity.
Qed.

(** With circles reported, detection succeeds when one of them has a
    radius of at least 15.5. *)
Lemma detect_iris_in_image_true (data : bytes) (w : world) circles x y r :
  Spec.detected_circles cv data (Some circles) ->
  In (x, y, r) circles -> (31 # 2 <= r)%Q ->
  App.detect_iris_in_image cv data w = (true, w, [EvImdecode data; EvHoughCircles]).
Proof.
  intros (img & gray & Hdec & Hgray & Hough) Hin Hr.
  unfold App.detect_iris_in_image, bind, emit, ret; cbn.
  rewrite Hdec, Hgray; cbn. rewrite Hough.
  assert (Hany : App.any_iris_like (Cv2.round_circles circles) = true).
  { apply any_iris_like_spec.
    exists (Cv2.np_round x), (Cv2.np_round y), (Cv2.np_round r).
    split; [now apply In_round_circles | now apply np_round_gt_15]. }
  rewrite Hany. reflexivity.
Qed.

(** With no circle reported, detection fails after the Hough transform. *)
Lemma detect_iris_in_image_no_circle (data : bytes) (w : world) :
  Spec.detected_circles cv data None ->
  App.detect_iris_in_image cv data w = (false, w, [EvImdecode data; EvHoughCircles]).
Proof.
  intros (img & gray & Hdec & Hgray & Hough).
  unfold App.detect_iris_in_image, bind, emit, ret; cbn.
  rewrite Hdec, Hgray; cbn. rewrite Hough. reflexivity.
Qed.

(** C3, as stated, fails for a radius between 15 and 15.5: the upload
    has one detected circle of radius 15.3 and two users have iris data,
    yet the answer is the no-iris error and nobody is logged in. *)
Lemma verify_iris_radius_15_3_rejected :
  Spec.detected_circles Samples.synthetic_cv Samples.image_r15_3
    (Some [(50 # 1, 50 # 1, 153 # 10)%Q]) /\
  (15 < 153 # 10)%Q /\
  App.enrolled Samples.world0 =
    [Models.user_row Samples.testuser; Models.user_row Samples.seconduser] /\
  App.verify_iris Samples.synthetic_cv
    (Samples.post_image "10.0.0.1" Samples.image_r15_3) Samples.world0 =
  (mkResponse
     (jsonify [("error", JStr "No iris detected in the image. Please ensure your eye is clearly visible and well-lit.")])
     400,
   Samples.world0, [EvImdecode Samples.image_r15_3; EvHoughCircles]).
Proof.
  split; [|split; [|split]].
  - eexists _, _. repeat split.
  - reflexivity.
  - reflexivity.
  - vm_compute. reflexivity.
Qed.

(** C3 (amended): [compare_iris_images] is [True] for every pair of byte
    strings; so when the upload has a detected circle whose radius is at
    least 15.5 (it rounds to more than 15) and some user has iris data,
    [verify_iris] answers 200 with the name of the first such user in
    table order and logs that user in, after one comparison, whatever the
    bytes of either image. *)
Theorem verify_iris_authenticates_first_enrolled
    (req : request) (w : world) (data : bytes)
    (circles : list Cv2.circle) (x y r : Q) (u : User) (rest : list User) :
  Spec.uploads req data ->
  Spec.detected_circles cv data (Some circles) ->
  In (x, y, r) circles -> (31 # 2 <= r)%Q ->
  App.enrolled w = u :: rest ->
  (forall stored new, App.compare_iris_images stored new = true) /\
  App.verify_iris cv req w =
    (mkResponse
       (jsonify [("message", JStr "Iris authentication successful");
                 ("username", JStr (username u))])
       200,
     with_session_user (Some (id u)) w,
     [EvImdecode data; EvHoughCircles; EvQueryUsersWithIris;
      EvCompareIris (id u); EvLoginUser (id u)]).
Proof.
  intros Hup Hdet Hin Hr Henr. split; [reflexivity|].
  unfold App.verify_iris. rewrite Hup.
  unfold bind at 1.
  rewrite (detect_iris_in_image_true data w circles x y r Hdet Hin Hr). cbn.
  unfold App.query_users_with_iris, bind, emit, get_world, ret; cbn.
  rewrite Henr. reflexivity.
Qed.

(** Detection leaves the world alone, logs the decoding and at most the
    transform, and answers [True] only for circles that the transform
    reported. *)
Lemma detect_iris_in_image_cases (data : bytes) (w : world) :
  exists detected tr,
    App.detect_iris_in_image cv data w = (detected, w, tr) /\
    (tr = [EvImdecode data] \/ tr = [EvImdecode data; EvHoughCircles]) /\
    (detected = true -> exists circles, Spec.detected_circles cv data (Some circles)).
Proof.
  unfold App.detect_iris_in_image, bind, emit, ret, Spec.detected_circles; cbn.
  destruct (Cv2.imdecode cv data) as [[img|]|] eqn:Hdec; cbn.
  2,3: exists false, [EvImdecode data]; split; [reflexivity|]; split;
         [left; reflexivity|discriminate].
  destruct (Cv2.cvtColor_BGR2GRAY cv img) as [gray|] eqn:Hgray; cbn.
  2: exists false, [EvImdecode data]; split; [reflexivity|]; split;
       [left; reflexivity|discriminate].
  destruct (Cv2.HoughCircles cv gray App.detect_args) as [[circles|]|] eqn:Hough; cbn.
  2,3: exists false, [EvImdecode data; EvHoughCircles]; split; [reflexivity|]; split;
         [right; reflexivity|discriminate].
  eexists _, _. split; [reflexivity|]. split; [right; reflexivity|].
  intros _. exists circles, img, gray. auto.
Qed.

(** C9: when no circle is detected in the upload (the transform reports
    none, or the upload does not get that far), [verify_iris] answers 400
    with the no-iris error and leaves the world as it was; the users
    table is neither queried nor compared against, the only events being
    the decoding and at most the transform. *)
Theorem verify_iris_no_circle_no_scan (req : request) (w : world) (data : bytes) :
  Spec.uploads req data ->
  (forall circles, ~ Spec.detected_circles cv data (Some circles)) ->
  let out := App.verify_iris cv req w in
  result out =
    mkResponse
      (jsonify [("error", JStr "No iris detected in the image. Please ensure your eye is clearly visible and well-lit.")])
      400 /\
  final out = w /\
  (EvQueryUsersWithIris ∉ events out) /\
  (forall uid, EvCompareIris uid ∉ events out) /\
  (events out = [EvImdecode data] \/ events out = [EvImdecode data; EvHoughCircles]).
Proof.
  intros Hup Hnone out.
  destruct (detect_iris_in_image_cases data w) as (detected & tr & Hdet & Htr & Hcirc).
  assert (Hfalse : detected = false).
  { destruct detected; [|reflexivity].
    destruct (Hcirc eq_refl) as [circles Hc]. destruct (Hnone circles Hc). }
  subst detected.
  assert (Hout : out =
    (mkResponse
       (jsonify [("error", JStr "No iris detected in the image. Please ensure your eye is clearly visible and well-lit.")])
       400, w, tr)).
  { subst out. unfold App.verify_iris. rewrite Hup. unfold bind at 1.
    rewrite Hdet. cbn. rewrite app_nil_r. reflexivity. }
  rewrite Hout. cbn.
  split; [reflexivity|]. split; [reflexivity|].
  split; [|split; [|exact Htr]].
  - intros H. apply list_elem_of_In in H.
    destruct Htr as [-> | ->]; cbn in H; intuition discriminate.
  - intros uid H. apply list_elem_of_In in H.
    destruct Htr as [-> | ->]; cbn in H; intuition discriminate.
Qed.

End Verification.

(** The amended C3 on a sample: a circle of radius 20.0. *)
Lemma verify_iris_authenticates_first_enrolled_witness :
  App.verify_iris Samples.synthetic_cv
    (Samples.post_image "10.0.0.1" Samples.image_r20) Samples.world0 =
  (mkResponse
     (jsonify [("message", JStr "Iris authentication successful");
               ("username", JStr "testuser")])
     200,
   with_session_user (Some 1) Samples.world0,
   [EvImdecode Samples.image_r20; EvHoughCircles; EvQueryUsersWithIris;
    EvCompareIris 1; EvLoginUser 1]).
Proof.
  refine (proj2 (verify_iris_authenticates_first_enrolled Samples.synthetic_cv
            (Samples.post_image "10.0.0.1" Samples.image_r20) Samples.world0
            Samples.image_r20 [(50 # 1, 50 # 1, 200 # 10)%Q]
            (50 # 1) (50 # 1) (200 # 10)
            (Models.user_row Samples.testuser) [Models.user_row Samples.seconduser]
            _ _ _ _ _)).
  - reflexivity.
  - eexists _, _. repeat split.
  - left. reflexivity.
  - vm_compute. discriminate.
  - reflexivity.
Defined.

(** C9 on a sample: an upload on which the transform reports nothing. *)
Lemma verify_iris_no_circle_no_scan_witness :
  EvQueryUsersWithIris ∉
    events (App.verify_iris Samples.synthetic_cv
              (Samples.post_image "10.0.0.1" Samples.image_blank) Samples.world0).
Proof.
  refine (proj1 (proj2 (proj2 (verify_iris_no_circle_no_scan Samples.synthetic_cv
            (Samples.post_image "10.0.0.1" Samples.image_blank) Samples.world0
            Samples.image_blank _ _)))).
  - reflexivity.
  - intros circles (img & gray & Hdec & Hgray & Hough).
    cbn in Hdec. injection Hdec as <-.
    cbn in Hgray. injection Hgray as <-.
    vm_compute in Hough. discriminate Hough.
Defined.

(** ** app.py: the password route and the lockout columns *)

Section Login.
Variable check_password_hash : string -> string -> bool.

(** The route on a well-formed POST for an existing user name: the
    password check is evaluated and decides. *)
Lemma login_post (req : request) (w : world) (data : gmap string string)
    (name password : string) (row : User) :
  method req = "POST" ->
  get_json req = Some data ->
  data !! "username" = Some name ->
  data !! "password" = Some password ->
  App.first_by_username w name = Some row ->
  App.login check_password_hash req w =
    if check_password_hash (password_hash row) password then
      (mkResponse (jsonify [("message", JStr "Login successful")]) 200,
       with_session_user (Some (id row)) w,
       [EvQueryUserByName name; EvCheckPassword (id row); EvLoginUser (id row)])
    else
      (mkResponse (jsonify [("error", JStr "Invalid username or password")]) 401,
       w, [EvQueryUserByName name; EvCheckPassword (id row)]).
Proof.
  intros Hm Hj Hn Hp Hrow. unfold App.login.
  rewrite Hm, Hj. rewrite (bool_decide_eq_true_2 _ eq_refl).
  destruct (bool_decide (data = ∅)) eqn:Hempty.
  { apply bool_decide_eq_true in Hempty. subst data.
    rewrite lookup_empty in Hn. discriminate Hn. }
  rewrite Hn, Hp.
  unfold bind at 1.
  unfold App.query_first_by_username, bind, emit, get_world, ret;
    cbn -[App.first_by_username].
  rewrite Hrow. cbn.
  destruct (check_password_hash (password_hash row) password); reflexivity.
Qed.

(** The route never consults a lock and keeps no count: whatever the
    request, the process afterwards is the one before, with the user
    logged in when the answer is 200. *)
Lemma login_world (req : request) (w : world) :
  let out := App.login check_password_hash req w in
  (status (result out) <> 200 -> final out = w) /\
  users (final out) = users w /\
  payload (result out) <> jsonify [("error", JStr "Account locked")].
Proof.
  unfold App.login.
  destruct (bool_decide (method req = "POST")); [|cbn; repeat split; discriminate].
  destruct (get_json req) as [data|]; [|cbn; repeat split; discriminate].
  destruct (bool_decide (data = ∅)); [cbn; repeat split; discriminate|].
  destruct (data !! "username") as [name|]; [|cbn; repeat split; discriminate].
  destruct (data !! "password") as [password|]; [|cbn; repeat split; discriminate].
  unfold bind at 1.
  unfold App.query_first_by_username, bind, emit, get_world, ret;
    cbn -[App.first_by_username].
  destruct (App.first_by_username w name) as [u|]; cbn;
    [|repeat split; discriminate].
  destruct (check_password_hash (password_hash u) password); cbn.
  - split; [intros H; contradiction H; reflexivity|]. split; [reflexivity|discriminate].
  - repeat split; discriminate.
Qed.

End Login.

(** C2 (code defect): the requests of
    tests/test_biometric_lock.py::test_failed_login_lockout, five POSTs
    to /login for [testuser] with a wrong password, and a sixth attempt
    after them.  Every one of the six is answered 401 after the password
    check was evaluated, the sixth like the first and none as a locked
    account; the table of users is as before; and a seventh attempt with
    the right password is checked and logged in.  app.py's [User] has no
    lockout columns and its route never calls [record_login_attempt]. *)
Theorem login_sixth_attempt_is_evaluated :
  let served :=
    App.serve (App.url_map Samples.synthetic_cv Samples.toy_check_password_hash)
      Fixtures.six_failed_logins Fixtures.world_unenrolled in
  map (fun r => status (fst r)) (fst served) = [401; 401; 401; 401; 401; 401] /\
  Forall (fun r => snd r = [EvQueryUserByName "testuser"; EvCheckPassword 1]) (fst served) /\
  Forall (fun r => payload (fst r) =
                   jsonify [("error", JStr "Invalid username or password")]) (fst served) /\
  users (snd served) = users Fixtures.world_unenrolled /\
  App.login Samples.toy_check_password_hash Fixtures.right_login (snd served) =
    (mkResponse (jsonify [("message", JStr "Login successful")]) 200,
     with_session_user (Some 1) (snd served),
     [EvQueryUserByName "testuser"; EvCheckPassword 1; EvLoginUser 1]).
Proof.
  cbv zeta.
  split; [vm_compute; reflexivity|].
  split; [vm_compute; repeat constructor|].
  split; [vm_compute; repeat constructor|].
  split; vm_compute; reflexivity.
Qed.

(** ** security.py: the rate limiter, and app.py's use of it *)

Section RateLimiter.
Variable env : Security.environ.

(** In-memory store, first request of an address: counter 1, processed. *)
Lemma is_rate_limited_first (ip : string) (w : world) :
  redis_client w = None ->
  rate_limit_storage w !! ip = None ->
  Security.is_rate_limited env ip w =
    (false,
     with_rate_limit_storage (<[ip := mkRateData 1 (clock w)]> (rate_limit_storage w)) w,
     []).
Proof.
  intros Hr Hs. unfold Security.is_rate_limited. rewrite Hr, Hs. reflexivity.
Qed.

(** In-memory store, inside the window: rejected once the counter has
    reached the maximum, otherwise counted and processed. *)
Lemma is_rate_limited_within (ip : string) (w : world) (d : RateData) :
  redis_client w = None ->
  rate_limit_storage w !! ip = Some d ->
  clock w - start_time d <= timedelta_seconds (Security.window_of env) ->
  Security.is_rate_limited env ip w =
    if Security.max_attempts_of env <=? attempts d then (true, w, [])
    else
      (false,
       with_rate_limit_storage
         (<[ip := mkRateData (attempts d + 1) (start_time d)]> (rate_limit_storage w)) w,
       []).
Proof.
  intros Hr Hs Hw. unfold Security.is_rate_limited. rewrite Hr, Hs.
  destruct (Z.ltb_spec (timedelta_seconds (Security.window_of env))
                       (clock w - start_time d)); [lia|reflexivity].
Qed.

(** In-memory store, after the window has elapsed: the counter restarts
    at 1 and the request is processed. *)
Lemma is_rate_limited_elapsed (ip : string) (w : world) (d : RateData) :
  redis_client w = None ->
  rate_limit_storage w !! ip = Some d ->
  timedelta_seconds (Security.window_of env) < clock w - start_time d ->
  Security.is_rate_limited env ip w =
    (false,
     with_rate_limit_storage (<[ip := mkRateData 1 (clock w)]> (rate_limit_storage w)) w,
     []).
Proof.
  intros Hr Hs Hw. unfold Security.is_rate_limited. rewrite Hr, Hs.
  destruct (Z.ltb_spec (timedelta_seconds (Security.window_of env))
                       (clock w - start_time d)); [reflexivity|lia].
Qed.

(** Inside one window the answers depend on the counter alone: with the
    counter at [a], the [k]-th request from now (counting from 0) is
    rejected exactly when [a + k] has reached the maximum. *)
Lemma limiter_answers_within (ip : string) (times : list datetime) :
  forall (w : world) (a : Z) (t0 : datetime),
    redis_client w = None ->
    rate_limit_storage w !! ip = Some (mkRateData a t0) ->
    Forall (fun t => t - t0 <= timedelta_seconds (Security.window_of env)) times ->
    fst (Spec.limiter_answers env ip times w) =
      map (fun k => Security.max_attempts_of env <=? a + Z.of_nat k)
          (seq 0 (length times)).
Proof.
  induction times as [|t rest IH]; intros w a t0 Hr Hs Hall; [reflexivity|].
  inversion Hall as [|? ? Ht Hrest]; subst.
  cbn [Spec.limiter_answers length seq map].
  rewrite (is_rate_limited_within ip (with_clock t w) (mkRateData a t0) Hr Hs Ht).
  cbn [attempts start_time].
  replace (a + Z.of_nat 0) with a by lia.
  destruct (Z.leb_spec (Security.max_attempts_of env) a) as [Hmax|Hmax].
  - specialize (IH (with_clock t w) a t0 Hr Hs Hrest).
    destruct (Spec.limiter_answers env ip rest (with_clock t w)) as [answers w2].
    cbn in IH |- *. f_equal. rewrite IH.
    rewrite <- seq_shift, map_map.
    apply map_ext_in. intros k _.
    destruct (Z.leb_spec (Security.max_attempts_of env) (a + Z.of_nat k));
      destruct (Z.leb_spec (Security.max_attempts_of env) (a + Z.of_nat (S k)));
      try reflexivity; lia.
  - set (w1 := with_rate_limit_storage _ _).
    assert (Hr1 : redis_client w1 = None) by exact Hr.
    assert (Hs1 : rate_limit_storage w1 !! ip = Some (mkRateData (a + 1) t0)).
    { subst w1. cbn. apply lookup_insert_eq. }
    specialize (IH w1 (a + 1) t0 Hr1 Hs1 Hrest).
    destruct (Spec.limiter_answers env ip rest w1) as [answers w2].
    cbn in IH |- *. f_equal. rewrite IH.
    rewrite <- seq_shift, map_map.
    apply map_ext_in. intros k _.
    replace (a + 1 + Z.of_nat k) with (a + Z.of_nat (S k)) by lia. reflexivity.
Qed.

(** The limiter in front of a view: a rejected request gets 429, leaves
    the world as it was, and the view does not run. *)
Lemma rate_limit_rejects (f : view) (req : request) (w : world) :
  result (Security.is_rate_limited env (remote_addr req) w) = true ->
  Security.rate_limit env f req w =
    (mkResponse
       (jsonify [("error", JStr "Too many attempts. Please try again later.");
                 ("retry_after", JInt (Security.window_of env))])
       429,
     w, []).
Proof.
  unfold Security.rate_limit, bind, result, Security.is_rate_limited.
  destruct (redis_client w) as [db|].
  - destruct (Security.redis_get (clock w) db (Security.get_rate_limit_key (remote_addr req)))
      as [n|]; cbn; [|discriminate].
    destruct (Security.max_attempts_of env <=? n); cbn; [reflexivity|discriminate].
  - destruct (rate_limit_storage w !! remote_addr req) as [d|]; cbn; [|discriminate].
    destruct (timedelta_seconds (Security.window_of env) <? clock w - start_time d);
      cbn; [discriminate|].
    destruct (Security.max_attempts_of env <=? attempts d); cbn;
      [reflexivity|discriminate].
Qed.

(** Redis, no live key for the address: the key is set to 1 with the
    window as its time to live, and the request is processed. *)
Lemma is_rate_limited_redis_first (ip : string) (w : world) (db : gmap string redis_entry) :
  redis_client w = Some db ->
  Security.redis_get (clock w) db (Security.get_rate_limit_key ip) = None ->
  Security.is_rate_limited env ip w =
    (false,
     with_redis (Security.redis_setex (clock w) db (Security.get_rate_limit_key ip)
                   (Security.window_of env) 1) w,
     []).
Proof.
  intros Hr Hg. unfold Security.is_rate_limited. rewrite Hr, Hg. reflexivity.
Qed.

(** Redis, a live key: rejected once its value has reached the
    maximum, otherwise incremented and processed. *)
Lemma is_rate_limited_redis_counted (ip : string) (w : world)
    (db : gmap string redis_entry) (n : Z) :
  redis_client w = Some db ->
  Security.redis_get (clock w) db (Security.get_rate_limit_key ip) = Some n ->
  Security.is_rate_limited env ip w =
    if Security.max_attempts_of env <=? n then (true, w, [])
    else (false, with_redis (Security.redis_incr (clock w) db (Security.get_rate_limit_key ip)) w, []).
Proof.
  intros Hr Hg. unfold Security.is_rate_limited. rewrite Hr, Hg. reflexivity.
Qed.

(** Redis, before the key expires: as with the in-memory store. *)
Lemma limiter_answers_within_redis (ip : string) (times : list datetime) :
  forall (w : world) (db : gmap string redis_entry) (a : Z) (expiry : datetime),
    redis_client w = Some db ->
    db !! Security.get_rate_limit_key ip = Some (mkEntry a (Some expiry)) ->
    Forall (fun t => t < expiry) times ->
    fst (Spec.limiter_answers env ip times w) =
      map (fun k => Security.max_attempts_of env <=? a + Z.of_nat k)
          (seq 0 (length times)).
Proof.
  induction times as [|t rest IH]; intros w db a expiry Hr Hk Hall; [reflexivity|].
  inversion Hall as [|? ? Ht Hrest]; subst.
  assert (Hget : Security.redis_get t db (Security.get_rate_limit_key ip) = Some a).
  { unfold Security.redis_get. rewrite Hk. unfold Security.redis_live. cbn.
    destruct (Z.ltb_spec t expiry); [reflexivity|lia]. }
  cbn [Spec.limiter_answers length seq map].
  rewrite (is_rate_limited_redis_counted ip (with_clock t w) db a Hr Hget).
  replace (a + Z.of_nat 0) with a by lia.
  destruct (Z.leb_spec (Security.max_attempts_of env) a) as [Hmax|Hmax].
  - specialize (IH (with_clock t w) db a expiry Hr Hk Hrest).
    destruct (Spec.limiter_answers env ip rest (with_clock t w)) as [answers w2].
    cbn in IH |- *. f_equal. rewrite IH.
    rewrite <- seq_shift, map_map.
    apply map_ext_in. intros k _.
    destruct (Z.leb_spec (Security.max_attempts_of env) (a + Z.of_nat k));
      destruct (Z.leb_spec (Security.max_attempts_of env) (a + Z.of_nat (S k)));
      try reflexivity; lia.
  - set (w1 := with_redis _ _).
    assert (Hk1 : Security.redis_incr (clock (with_clock t w)) db (Security.get_rate_limit_key ip)
                    !! Security.get_rate_limit_key ip = Some (mkEntry (a + 1) (Some expiry))).
    { unfold Security.redis_incr. rewrite Hk. unfold Security.redis_live. cbn.
      destruct (Z.ltb_spec t expiry); [|lia]. apply lookup_insert_eq. }
    specialize (IH w1 _ (a + 1) expiry eq_refl Hk1 Hrest).
    destruct (Spec.limiter_answers env ip rest w1) as [answers w2].
    cbn in IH |- *. f_equal. rewrite IH.
    rewrite <- seq_shift, map_map.
    apply map_ext_in. intros k _.
    replace (a + 1 + Z.of_nat k) with (a + Z.of_nat (S k)) by lia. reflexivity.
Qed.

(** A request that the limiter lets through reaches the view, in the
    world that the limiter left. *)
Lemma rate_limit_passes (f : view) (req : request) (w : world) :
  result (Security.is_rate_limited env (remote_addr req) w) = false ->
  Security.rate_limit env f req w =
    f req (final (Security.is_rate_limited env (remote_addr req) w)).
Proof.
  unfold Security.rate_limit, bind, result, final.
  assert (Hev : events (Security.is_rate_limited env (remote_addr req) w) = []).
  { unfold events, Security.is_rate_limited.
    destruct (redis_client w) as [db|].
    - destruct (Security.redis_get _ _ _); [|reflexivity].
      destruct (_ <=? _); reflexivity.
    - destruct (rate_limit_storage w !! remote_addr req) as [d|]; [|reflexivity].
      destruct (_ <? _); [reflexivity|]. destruct (_ <=? _); reflexivity. }
  destruct (Security.is_rate_limited env (remote_addr req) w) as [[limited w1] tr].
  cbn in *. subst tr. intros ->.
  destruct (f req w1) as [[resp w2] tr2]. reflexivity.
Qed.
End RateLimiter.

(** From an address without a counter, for any maximum of at least 1:
    of [n] requests inside one window the [i]-th (from 1) is rejected
    exactly when [i] exceeds the maximum, so exactly the first
    [max_attempts] are processed. *)
Lemma limiter_admits_exactly_max (env : Security.environ) (ip : string)
    (t1 : datetime) (times : list datetime) (w : world) :
  1 <= Security.max_attempts_of env ->
  redis_client w = None ->
  rate_limit_storage w !! ip = None ->
  Forall (fun t => t - t1 <= timedelta_seconds (Security.window_of env)) times ->
  fst (Spec.limiter_answers env ip (t1 :: times) w) =
    map (fun k => Security.max_attempts_of env <=? Z.of_nat k)
        (seq 0 (S (length times))).
Proof.
  intros Hgt Hr Hs Hall.
  cbn [Spec.limiter_answers seq map].
  rewrite (is_rate_limited_first env ip (with_clock t1 w) Hr Hs).
  set (w1 := with_rate_limit_storage _ _).
  assert (Hs1 : rate_limit_storage w1 !! ip = Some (mkRateData 1 t1)).
  { subst w1. cbn. apply lookup_insert_eq. }
  pose proof (limiter_answers_within env ip times w1 1 t1 Hr Hs1 Hall) as Hrest.
  destruct (Spec.limiter_answers env ip times w1) as [answers w2].
  cbn in Hrest |- *. f_equal.
  - symmetry. apply Z.leb_gt. cbn. lia.
  - rewrite Hrest. rewrite <- seq_shift, map_map.
    apply map_ext_in. intros k _.
    replace (1 + Z.of_nat k) with (Z.of_nat (S k)) by lia. reflexivity.
Qed.

(** The same count with Redis: the window runs from the first request
    to the expiry of its key. *)
Lemma limiter_admits_exactly_max_redis (env : Security.environ) (ip : string)
    (t1 : datetime) (times : list datetime) (w : world) (db : gmap string redis_entry) :
  1 <= Security.max_attempts_of env ->
  redis_client w = Some db ->
  Security.redis_get t1 db (Security.get_rate_limit_key ip) = None ->
  Forall (fun t => t < t1 + timedelta_seconds (Security.window_of env)) times ->
  fst (Spec.limiter_answers env ip (t1 :: times) w) =
    map (fun k => Security.max_attempts_of env <=? Z.of_nat k)
        (seq 0 (S (length times))).
Proof.
  intros Hgt Hr Hg Hall.
  cbn [Spec.limiter_answers seq map].
  rewrite (is_rate_limited_redis_first env ip (with_clock t1 w) db Hr Hg).
  set (w1 := with_redis _ _).
  assert (Hk1 : Security.redis_setex (clock (with_clock t1 w)) db (Security.get_rate_limit_key ip)
                   (Security.window_of env) 1 !! Security.get_rate_limit_key ip
                = Some (mkEntry 1 (Some (t1 + timedelta_seconds (Security.window_of env))))).
  { unfold Security.redis_setex. apply lookup_insert_eq. }
  pose proof (limiter_answers_within_redis env ip times w1 _ 1 _ eq_refl Hk1 Hall) as Hrest.
  destruct (Spec.limiter_answers env ip times w1) as [answers w2].
  cbn in Hrest |- *. f_equal.
  - symmetry. apply Z.leb_gt. cbn. lia.
  - rewrite Hrest. rewrite <- seq_shift, map_map.
    apply map_ext_in. intros k _.
    replace (1 + Z.of_nat k) with (Z.of_nat (S k)) by lia. reflexivity.
Qed.

(** [verify_iris] never answers 429 and never touches the limiter's
    state. *)
Lemma verify_iris_never_rate_limited {image} (cv : Cv2.api image)
    (req : request) (w : world) :
  let out := App.verify_iris cv req w in
  status (result out) <> 429 /\
  rate_limit_storage (final out) = rate_limit_storage w /\
  redis_client (final out) = redis_client w.
Proof.
  intros out.
  assert (Hout : exists resp w' tr,
             out = (resp, w', tr) /\ status resp <> 429 /\
             rate_limit_storage w' = rate_limit_storage w /\
             redis_client w' = redis_client w).
  { subst out. unfold App.verify_iris.
    destruct (files req !! "iris_image") as [data|].
    2:{ eexists _, _, _. split; [reflexivity|]. cbn.
        split; [discriminate|split; reflexivity]. }
    unfold bind at 1.
    pose proof (detect_iris_in_image_world cv data w) as Hw.
    destruct (App.detect_iris_in_image cv data w) as [[detected w1] t1].
    cbn in Hw. subst w1.
    destruct detected; cbn -[App.enrolled].
    2:{ eexists _, _, _. split; [reflexivity|]. cbn.
        split; [discriminate|split; reflexivity]. }
    destruct (App.enrolled w) as [|u rest]; cbn;
      (eexists _, _, _; split; [reflexivity|]; cbn;
       split; [discriminate|split; reflexivity]). }
  destruct Hout as (resp & w' & tr & -> & Hs & Hl & Hr). cbn. auto.
Qed.

(** C4 (code defect): six uploads from one address within six seconds,
    sent to the rule /verify_iris as app.py registers it, are all
    decoded and answered 200, the sixth like the first, and no counter
    is kept; under [@rate_limit] the same sixth upload is answered 429
    with nothing decoded. *)
Theorem verify_iris_sixth_request_is_processed :
  let served :=
    App.serve (App.url_map Samples.synthetic_cv Samples.toy_check_password_hash)
      Samples.six_uploads Samples.world0 in
  let limited := App.serve Samples.url_map_rate_limited Samples.six_uploads Samples.world0 in
  map (fun r => status (fst r)) (fst served) = [200; 200; 200; 200; 200; 200] /\
  (EvImdecode Samples.image_r20 ∈ default [] (snd <$> last (fst served))) /\
  rate_limit_storage (snd served) = ∅ /\
  map (fun r => status (fst r)) (fst limited) = [200; 200; 200; 200; 200; 429] /\
  snd <$> last (fst limited) = Some [].
Proof.
  cbv zeta. split; [vm_compute; reflexivity|].
  split; [|split; [vm_compute; reflexivity|split; vm_compute; reflexivity]].
  apply list_elem_of_In. vm_compute. left. reflexivity.
Qed.

(** The limiter on the same six arrival times, with the in-memory store
    and with Redis: five processed, the sixth rejected; a seventh that
    arrives more than an hour after the first is processed again. *)
Lemma limiter_answers_six :
  fst (Spec.limiter_answers Security.default_environ "10.0.0.1"
         [1000000; 2000000; 3000000; 4000000; 5000000; 6000000; 3601000001]
         Samples.world0) =
    [false; false; false; false; false; true; false] /\
  fst (Spec.limiter_answers Security.default_environ "10.0.0.1"
         [1000000; 2000000; 3000000; 4000000; 5000000; 6000000; 3601000001]
         Samples.world0_redis) =
    [false; false; false; false; false; true; false].
Proof. split; vm_compute; reflexivity. Qed.

(** ** iris_recognition.py: the matcher *)

Section Matcher.
Import Numpy IrisRecognition.
Local Open Scope R_scope.

Lemma sum_squares_nonneg (v : list R) : 0 <= sum_squares v.
Proof. induction v as [|x v IH]; cbn; [lra|nra]. Qed.

Lemma sum_squares_zero (v : list R) : sum_squares v = 0 -> Forall (fun x => x = 0) v.
Proof.
  induction v as [|x v IH]; cbn; intros H; constructor.
  - pose proof (sum_squares_nonneg v). nra.
  - apply IH. pose proof (sum_squares_nonneg v). nra.
Qed.

Lemma linalg_norm_nonneg (v : list R) : 0 <= linalg_norm v.
Proof. apply sqrt_pos. Qed.

(** Only the all-zero vector has norm 0. *)
Lemma linalg_norm_zero (v : list R) : linalg_norm v = 0 -> Forall (fun x => x = 0) v.
Proof.
  intros H. apply sum_squares_zero.
  apply sqrt_eq_0; [apply sum_squares_nonneg|exact H].
Qed.

Lemma sum_squares_scale (k : R) (v : list R) :
  sum_squares (map (Rmult k) v) = k * k * sum_squares v.
Proof. induction v as [|x v IH]; cbn; [lra|rewrite IH; lra]. Qed.

Lemma linalg_norm_scale (k : R) (v : list R) :
  0 <= k -> linalg_norm (map (Rmult k) v) = k * linalg_norm v.
Proof.
  intros Hk. unfold linalg_norm. rewrite sum_squares_scale.
  rewrite sqrt_mult; [|nra|apply sum_squares_nonneg].
  rewrite sqrt_square by exact Hk. reflexivity.
Qed.

(** Dividing a vector of non-zero norm by its norm normalizes it... *)
Lemma normalize_unit (v : list R) :
  linalg_norm v <> 0 -> Spec.unit_normalized v (map (fun x => x / linalg_norm v) v).
Proof.
  intros Hn. pose proof (linalg_norm_nonneg v) as Hp.
  assert (Hpos : 0 < linalg_norm v) by lra.
  split.
  - replace (map (fun x => x / linalg_norm v) v) with (map (Rmult (/ linalg_norm v)) v).
    2:{ apply map_ext. intros x. unfold Rdiv. lra. }
    rewrite linalg_norm_scale.
    + field. exact Hn.
    + left. apply Rinv_0_lt_compat. exact Hpos.
  - exists (linalg_norm v). split; [exact Hpos|].
    rewrite map_map. rewrite <- (map_id v) at 1. apply map_ext.
    intros x. field. exact Hn.
Qed.

(** ... and nothing else does; a vector of norm 0 has no normalization. *)
Lemma unit_normalized_unique (v u : list R) :
  Spec.unit_normalized v u ->
  linalg_norm v <> 0 /\ u = map (fun x => x / linalg_norm v) v.
Proof.
  intros [Hu (k & Hk & Hv)].
  assert (Hn : linalg_norm v = k).
  { rewrite Hv, linalg_norm_scale by lra. rewrite Hu. lra. }
  split; [lra|].
  rewrite Hn. rewrite Hv, map_map. rewrite <- (map_id u) at 1.
  apply map_ext. intros x. field. lra.
Qed.

Lemma true_divide_num (n : R) (v : list R) :
  n <> 0 -> true_divide v n = map Num (map (fun x => x / n) v).
Proof.
  intros Hn. unfold true_divide. rewrite map_map. apply map_ext. intros x. cbn.
  destruct (Req_dec_T n 0); [contradiction|reflexivity].
Qed.

(** The all-zero vector divided by its norm: every component is 0/0. *)
Lemma true_divide_nan (v : list R) :
  Forall (fun x => x = 0) v -> true_divide v 0 = map (fun _ => NaN) v.
Proof.
  intros Hall. unfold true_divide. apply map_ext_Forall.
  apply (Forall_impl _ _ _ Hall). intros x ->. cbn.
  destruct (Req_dec_T 0 0) as [_|H]; [reflexivity|contradiction H; reflexivity].
Qed.

Lemma dot_num (a b : list R) :
  length a = length b -> dot (map Num a) (map Num b) = Ok (Num (Spec.dot_product a b)).
Proof.
  revert b. induction a as [|x a IH]; intros [|y b] Hlen; try discriminate Hlen.
  - reflexivity.
  - cbn. rewrite IH by (cbn in Hlen; lia). reflexivity.
Qed.

Lemma dot_defined (a b : list float64) :
  length a = length b -> exists s, dot a b = Ok s.
Proof.
  revert b. induction a as [|x a IH]; intros [|y b] Hlen; try discriminate Hlen.
  - eexists; reflexivity.
  - destruct (IH b) as [s Hs]; [cbn in Hlen; lia|].
    cbn. rewrite Hs. eexists; reflexivity.
Qed.

Lemma dot_nan_l (a : list R) (b : list float64) :
  a <> [] -> length a = length b -> dot (map (fun _ => NaN) a) b = Ok NaN.
Proof.
  intros Hne Hlen. destruct a as [|x a]; [contradiction|].
  destruct b as [|y b]; [discriminate Hlen|].
  destruct (dot_defined (map (fun _ => NaN) a) b) as [s Hs].
  { rewrite length_map. cbn in Hlen. lia. }
  cbn. rewrite Hs. reflexivity.
Qed.

Lemma dot_nan_r (a : list float64) (b : list R) :
  b <> [] -> length a = length b -> dot a (map (fun _ => NaN) b) = Ok NaN.
Proof.
  intros Hne Hlen. destruct b as [|y b]; [contradiction|].
  destruct a as [|x a]; [discriminate Hlen|].
  destruct (dot_defined a (map (fun _ => NaN) b)) as [s Hs].
  { rewrite length_map. cbn in Hlen. lia. }
  cbn. rewrite Hs. destruct x; reflexivity.
Qed.

(** A vector of norm 0 on either side: the similarity is NaN and the
    answer is no match, at every threshold. *)
Lemma compare_zero_norm_l (v1 v2 : list R) (t : R) :
  v1 <> [] -> length v1 = length v2 -> linalg_norm v1 = 0 ->
  compare_iris_features (Some v1) (Some v2) t = Ok false.
Proof.
  intros Hne Hlen Hn. unfold compare_iris_features. rewrite Hn.
  rewrite (true_divide_nan v1 (linalg_norm_zero v1 Hn)).
  rewrite dot_nan_l; [reflexivity|exact Hne|].
  unfold true_divide. now rewrite length_map.
Qed.

Lemma compare_zero_norm_r (v1 v2 : list R) (t : R) :
  v2 <> [] -> length v1 = length v2 -> linalg_norm v2 = 0 ->
  compare_iris_features (Some v1) (Some v2) t = Ok false.
Proof.
  intros Hne Hlen Hn. unfold compare_iris_features. rewrite Hn.
  rewrite (true_divide_nan v2 (linalg_norm_zero v2 Hn)).
  rewrite dot_nan_r; [reflexivity|exact Hne|].
  unfold true_divide. now rewrite length_map.
Qed.

(** Two vectors of non-zero norm: the answer is the comparison of the
    dot product of the quotients with the threshold. *)
Lemma compare_nonzero (v1 v2 : list R) (t : R) :
  length v1 = length v2 -> linalg_norm v1 <> 0 -> linalg_norm v2 <> 0 ->
  compare_iris_features (Some v1) (Some v2) t =
    Ok (fge (Num (Spec.dot_product (map (fun x => x / linalg_norm v1) v1)
                                   (map (fun x => x / linalg_norm v2) v2)))
            (Num t)).
Proof.
  intros Hlen H1 H2. unfold compare_iris_features.
  rewrite (true_divide_num _ v1 H1), (true_divide_num _ v2 H2).
  rewrite dot_num by (now rewrite !length_map). reflexivity.
Qed.

(** Two arrays without components: the similarity is 0.0. *)
Lemma compare_iris_features_empty (t : R) :
  compare_iris_features (Some []) (Some []) t = Ok (if Rge_dec 0 t then true else false).
Proof. reflexivity. Qed.

Lemma dot_product_self (v : list R) : Spec.dot_product v v = sum_squares v.
Proof. induction v as [|x v IH]; cbn; [reflexivity|rewrite IH; reflexivity]. Qed.

(** A vector has non-zero norm exactly when one of its components is
    not 0. *)
Lemma nonzero_component_norm (v : list R) :
  (exists x, In x v /\ x <> 0) <-> linalg_norm v <> 0.
Proof.
  split.
  - intros (x & Hin & Hx) Hn. apply linalg_norm_zero in Hn.
    rewrite Forall_forall in Hn. apply Hx. apply Hn. apply list_elem_of_In. exact Hin.
  - intros Hn. induction v as [|x v IH].
    + exfalso. apply Hn. unfold linalg_norm. cbn. apply sqrt_0.
    + destruct (Req_dec_T x 0) as [Hx|Hx].
      * destruct IH as (y & Hin & Hy).
        { intros H0. apply Hn. unfold linalg_norm in *. cbn. subst x.
          apply sqrt_eq_0 in H0; [|apply sum_squares_nonneg]. rewrite H0.
          replace (0 * 0 + 0) with 0 by lra. apply sqrt_0. }
        exists y. split; [right; exact Hin|exact Hy].
      * exists x. split; [left; reflexivity|exact Hx].
Qed.

End Matcher.

(** C8, as stated, fails for the all-zero feature vector: its norm is 0,
    the similarity with itself is NaN, and the pair is rejected at the
    default threshold 0.8 (and at every other). *)
Lemma compare_iris_features_zero_vector_rejected :
  Numpy.dot (Numpy.true_divide [0; 0]%R (Numpy.linalg_norm [0; 0]%R))
            (Numpy.true_divide [0; 0]%R (Numpy.linalg_norm [0; 0]%R)) = Ok Numpy.NaN /\
  IrisRecognition.compare_iris_features (Some [0; 0]%R) (Some [0; 0]%R)
    IrisRecognition.default_threshold = Ok false /\
  (IrisRecognition.default_threshold <= 1)%R.
Proof.
  assert (Hn : Numpy.linalg_norm [0; 0]%R = 0%R).
  { unfold Numpy.linalg_norm. cbn.
    replace (0 * 0 + (0 * 0 + 0))%R with 0%R by lra. apply sqrt_0. }
  split; [|split].
  - rewrite Hn. rewrite true_divide_nan by (repeat constructor). reflexivity.
  - apply compare_zero_norm_l; [discriminate|reflexivity|exact Hn].
  - unfold IrisRecognition.default_threshold. lra.
Qed.

(** ** utils.py: the quality score *)

Section QualityScore.
Import Numpy IrisRecognition Utils.
Local Open Scope R_scope.

Lemma INR_length_pos {A} (v : list A) : v <> [] -> 0 < INR (length v).
Proof.
  intros Hne. destruct v as [|x v]; [contradiction|].
  apply lt_0_INR. cbn. lia.
Qed.

Lemma sum_nonneg (v : list R) : Forall (fun x => 0 <= x) v -> 0 <= sum v.
Proof.
  induction 1 as [|x v Hx Hv IH]; cbn; [lra|lra].
Qed.

(** The mean of an array with elements is a number. *)
Lemma mean_num (v : list R) : v <> [] -> mean v = Num (average v).
Proof.
  intros Hne. pose proof (INR_length_pos v Hne) as Hpos.
  unfold mean, average. cbn.
  destruct (Req_dec_T (INR (length v)) 0); [lra|reflexivity].
Qed.

Lemma average_nonneg (v : list R) :
  v <> [] -> Forall (fun x => 0 <= x) v -> 0 <= average v.
Proof.
  intros Hne Hall. unfold average.
  apply Rmult_le_pos; [now apply sum_nonneg|].
  left. apply Rinv_0_lt_compat. now apply INR_length_pos.
Qed.

(** The variance of an array with elements is a number, and not
    negative. *)
Lemma var_num (v : list R) : v <> [] -> exists x, var v = Num x /\ 0 <= x.
Proof.
  intros Hne. unfold var.
  set (d := map (fun x => (x - average v) * (x - average v)) v).
  assert (Hd : d <> []).
  { subst d. destruct v; [contradiction|discriminate]. }
  exists (average d). split; [now apply mean_num|].
  apply average_nonneg; [exact Hd|].
  subst d. apply Forall_forall. intros y Hy.
  apply list_elem_of_In in Hy. apply in_map_iff in Hy.
  destruct Hy as (x & <- & _). apply Rle_0_sqr.
Qed.

Lemma std_num (v : list R) : v <> [] -> exists x, std v = Num x /\ 0 <= x.
Proof.
  intros Hne. destruct (var_num v Hne) as (x & Hx & Hpos).
  exists (sqrt x). unfold std. rewrite Hx. cbn.
  destruct (Rlt_dec x 0); [lra|]. split; [reflexivity|apply sqrt_pos].
Qed.

(** A sub-score: a non-negative number divided by a positive constant
    and cut off at 1 lies between 0 and 1. *)
Lemma sub_score (x c : R) :
  0 <= x -> 0 < c ->
  exists y, py_min (fdiv (Num x) (Num c)) (Num 1) = Num y /\ 0 <= y <= 1.
Proof.
  intros Hx Hc. cbn. destruct (Req_dec_T c 0); [lra|].
  assert (Hq : 0 <= x / c).
  { apply Rmult_le_pos; [exact Hx|]. left. now apply Rinv_0_lt_compat. }
  unfold py_min. cbn. destruct (Rlt_dec 1 (x / c)).
  - exists 1. split; [reflexivity|lra].
  - exists (x / c). split; [reflexivity|lra].
Qed.

Lemma pixels_nonneg (gray : gray_image) : Forall (fun x => 0 <= x) (pixels gray).
Proof.
  unfold pixels. apply Forall_forall. intros y Hy.
  apply list_elem_of_In in Hy. apply in_map_iff in Hy.
  destruct Hy as (b & <- & _). unfold component.
  apply IZR_le. lia.
Qed.

(** C6: for every grayscale image with at least one pixel, all black
    and all white included, the quality score is a number between 0 and
    1, whatever the Laplacian's values are (an output with as many values
    as the image has pixels) and also when the Laplacian raises. *)
Theorem quality_score_in_unit_interval
    (cvtColor_BGR2GRAY : bgr_image -> res gray_image)
    (Laplacian : gray_image -> res (list (list R)))
    (gray : gray_image) :
  (forall g out, Laplacian g = Ok out -> size out = size g) ->
  (0 < size gray)%nat ->
  exists q,
    calculate_iris_quality_score cvtColor_BGR2GRAY Laplacian (Gray2D gray) = Num q /\
    0 <= q <= 1.
Proof.
  intros Hlap Hsize.
  unfold calculate_iris_quality_score, quality_score_body. cbn [res_bind].
  destruct (Laplacian gray) as [out|e] eqn:Hout; cbn [res_bind].
  2:{ exists 0. split; [reflexivity|lra]. }
  assert (Hpx : pixels gray <> []).
  { unfold pixels, size, flatten in *. destruct (concat gray); [cbn in Hsize; lia|discriminate]. }
  assert (Hfl : flatten out <> []).
  { specialize (Hlap gray out Hout). unfold size, flatten in *.
    destruct (concat out); [cbn in Hlap; lia|discriminate]. }
  rewrite (mean_num _ Hpx).
  destruct (std_num _ Hpx) as (sd & -> & Hsd).
  destruct (var_num _ Hfl) as (lv & -> & Hlv).
  destruct (sub_score (average (pixels gray)) (1275 / 10)) as (a & -> & Ha);
    [apply average_nonneg; [exact Hpx|apply pixels_nonneg]|lra|].
  destruct (sub_score sd 64) as (b & -> & Hb); [exact Hsd|lra|].
  destruct (sub_score lv 500) as (c & -> & Hc); [exact Hlv|lra|].
  cbn. eexists. split; [reflexivity|]. lra.
Qed.

(** A 2 x 2 image of one colour [b] has no contrast and no sharpness:
    its score is the intensity term alone. *)
Lemma constant_image_score (b : Byte.byte) :
  calculate_iris_quality_score Samples.blue_channel Samples.flat_laplacian
    (Gray2D [[b; b]; [b; b]]) =
  Num (3 / 10 * Rmin (component b / (1275 / 10)) 1).
Proof.
  unfold calculate_iris_quality_score, quality_score_body, Samples.flat_laplacian.
  cbn [res_bind map flatten concat app].
  assert (Hb : 0 <= component b) by (unfold component; apply IZR_le; lia).
  set (c := component b) in *.
  assert (Hmean : mean (pixels [[b; b]; [b; b]]) = Num c).
  { rewrite mean_num by discriminate. unfold average, pixels. cbn. fold c. f_equal. field. }
  assert (Havg : average (pixels [[b; b]; [b; b]]) = c).
  { unfold average, pixels. cbn. fold c. field. }
  assert (Hstd : std (pixels [[b; b]; [b; b]]) = Num 0).
  { unfold std, var. rewrite Havg. rewrite mean_num by discriminate.
    unfold average, pixels. cbn. fold c.
    replace ((c - c) * (c - c) + ((c - c) * (c - c) + ((c - c) * (c - c) + ((c - c) * (c - c) + 0)))) with 0 by ring.
    replace (0 / (1 + 1 + 1 + 1)) with 0 by field.
    destruct (Rlt_dec 0 0); [lra|]. rewrite sqrt_0. reflexivity. }
  assert (Hlap : var [0; 0; 0; 0] = Num 0).
  { unfold var. assert (Ha : average [0;0;0;0] = 0) by (unfold average; cbn; field).
    rewrite Ha. rewrite mean_num by discriminate. unfold average. cbn. f_equal. field. }
  rewrite Hmean, Hstd, Hlap.
  cbn. 
  repeat match goal with |- context [Req_dec_T ?a ?b] => destruct (Req_dec_T a b); [lra|] end.
  unfold py_min, Rmin. cbn.
  replace (0 / 64) with 0 by field. replace (0 / 500) with 0 by field.
  destruct (Rlt_dec 1 0); [lra|].
  destruct (Rlt_dec 1 (c / (1275 / 10))); destruct (Rle_dec (c / (1275 / 10)) 1); try lra; cbn; f_equal; lra.
Qed.

(** The two degenerate images: all black scores 0, all white 0.3. *)
Lemma quality_score_all_black :
  calculate_iris_quality_score Samples.blue_channel Samples.flat_laplacian
    (Gray2D Samples.all_black) = Num 0.
Proof.
  unfold Samples.all_black. rewrite constant_image_score. f_equal.
  unfold component. cbn. unfold Rmin.
  destruct (Rle_dec (0 / (1275 / 10)) 1); lra.
Qed.

Lemma quality_score_all_white :
  calculate_iris_quality_score Samples.blue_channel Samples.flat_laplacian
    (Gray2D Samples.all_white) = Num (3 / 10).
Proof.
  unfold Samples.all_white. rewrite constant_image_score. f_equal.
  unfold component. cbn. unfold Rmin.
  destruct (Rle_dec (255 / (1275 / 10)) 1); lra.
Qed.

End QualityScore.

(** The stand-in Laplacian keeps the number of values. *)
Lemma flat_laplacian_size (g : IrisRecognition.gray_image) (out : list (list R)) :
  Samples.flat_laplacian g = Ok out -> IrisRecognition.size out = IrisRecognition.size g.
Proof.
  intros H. injection H as <-. unfold IrisRecognition.size.
  induction g as [|row g IH]; [reflexivity|].
  cbn [map concat]. rewrite !length_app. rewrite IH, length_map. reflexivity.
Defined.

(** C6 on the all-white image. *)
Lemma quality_score_in_unit_interval_witness :
  exists q,
    Utils.calculate_iris_quality_score Samples.blue_channel Samples.flat_laplacian
      (Utils.Gray2D Samples.all_white) = Numpy.Num q /\
    (0 <= q <= 1)%R.
Proof.
  apply (quality_score_in_unit_interval Samples.blue_channel Samples.flat_laplacian
           Samples.all_white flat_laplacian_size).
  cbn. lia.
Defined.

(** ** iris_recognition.py: the length of a feature vector *)

Section FeatureLength.
Import Numpy IrisRecognition.
Context {rect kernel : Type} (cv : api rect kernel) (Hcv : contracts cv).

Lemma length_flatten {A} (a : list (list A)) (rows cols : nat) :
  has_shape a rows cols -> length (flatten a) = (rows * cols)%nat.
Proof.
  intros [Hrows Hcols]. subst rows. unfold flatten.
  induction Hcols as [|row a Hrow Hrest IH]; [reflexivity|].
  cbn [concat length]. rewrite length_app, IH, Hrow. lia.
Qed.

(** The bank has 4 angles times 3 frequencies. *)
Lemma gabor_bank_length : length gabor_bank = 12%nat.
Proof. reflexivity. Qed.

(** One flattened response per filter, each of the size of the patch. *)
Lemma filter_each_length (iris : gray_image) (rows cols : nat) (bank : list gabor_args) :
  has_shape iris rows cols ->
  exists features,
    filter_each cv iris bank = Ok features /\
    length (concat features) = (length bank * (rows * cols))%nat.
Proof using Hcv.
  intros Hshape. induction bank as [|args rest IH].
  - exists []. split; reflexivity.
  - destruct IH as (features & Hrest & Hlen).
    destruct (filter2D_shape cv Hcv iris CV_8UC3 (getGaborKernel cv args) rows cols Hshape)
      as (filtered & Hf & Hfs).
    exists (flatten filtered :: features). split.
    + cbn [filter_each]. rewrite Hf. cbn [res_bind]. rewrite Hrest. reflexivity.
    + cbn [concat length]. rewrite length_app, Hlen, (length_flatten _ _ _ Hfs). lia.
Qed.

(** The features of one 100 x 100 patch: 120,000 components. *)
Lemma extract_iris_features_length (iris : gray_image) :
  has_shape iris 100 100 ->
  exists features,
    _extract_iris_features cv (Some iris) = Ok (Some features) /\
    Z.of_nat (length features) = 120000%Z.
Proof using Hcv.
  intros Hshape.
  destruct (filter_each_length iris 100 100 gabor_bank Hshape) as (fs & Hfs & Hlen).
  exists (concat fs). split.
  - unfold _extract_iris_features. rewrite Hfs. reflexivity.
  - rewrite Hlen, gabor_bank_length. lia.
Qed.

(** A patch that [_process_eye_region] returns comes from
    [cv2.resize(iris, (100, 100))]. *)
Lemma process_eye_region_shape (eye_region : bgr_image) (iris : gray_image) :
  _process_eye_region cv eye_region = Ok (Some iris) -> has_shape iris 100 100.
Proof using Hcv.
  unfold _process_eye_region.
  destruct (size eye_region =? 0)%nat; [discriminate|].
  destruct (cvtColor_BGR2GRAY cv eye_region) as [gray|]; [|discriminate].
  cbn [res_bind].
  destruct (equalizeHist cv gray) as [gray_eye|]; [|discriminate]. cbn [res_bind].
  destruct (GaussianBlur cv gray_eye (7, 7)%Z 0%Z) as [blurred|]; [|discriminate].
  cbn [res_bind].
  destruct (HoughCircles cv blurred eye_args) as [[circles|]|]; cbn [res_bind];
    [|discriminate|discriminate].
  destruct (Cv2.round_circles circles) as [|[[x y] r] rest]; [discriminate|].
  cbn zeta.
  destruct (circle cv (zeros_like gray_eye) (uint16 x, uint16 y) (uint16 r) Byte.xff)
    as [mask|]; [|discriminate]. cbn [res_bind].
  destruct (bitwise_and cv gray_eye gray_eye mask) as [masked|]; [|discriminate].
  cbn [res_bind].
  destruct (resize cv masked (100, 100)%Z) as [dst|] eqn:Hres; [|discriminate].
  cbn [res_bind]. intros H. injection H as <-.
  exact (resize_shape cv Hcv masked 100%Z 100%Z dst Hres).
Qed.

(** The features of an absent patch are absent. *)
Lemma extract_iris_features_some (iris : option gray_image) (features : list Byte.byte) :
  _extract_iris_features cv iris = Ok (Some features) ->
  exists patch, iris = Some patch.
Proof. destruct iris as [patch|]; [eauto|discriminate]. Qed.

(** C7: when the upload decodes, a face is found, and both eye regions
    yield an iris patch, the patches are 100 x 100 and [process_image]
    returns a feature vector of exactly 240,000 components, whatever the
    size of the image. *)
Theorem process_image_feature_length (image_data : bytes) (image : bgr_image)
    (face : rect) (faces : list rect) (landmarks : Z -> Z * Z)
    (left_iris right_iris : gray_image) :
  imdecode cv image_data = Ok (Some image) ->
  detector cv (Some image) = Ok (face :: faces) ->
  predictor cv image face = Ok landmarks ->
  _process_eye_region cv (fst (_extract_eye_region cv image landmarks)) =
    Ok (Some left_iris) ->
  _process_eye_region cv (snd (_extract_eye_region cv image landmarks)) =
    Ok (Some right_iris) ->
  has_shape left_iris 100 100 /\
  has_shape right_iris 100 100 /\
  exists features,
    process_image cv image_data = Some features /\
    Z.of_nat (length features) = 240000%Z.
Proof using Hcv.
  intros Hdec Hfaces Hpred Hleft Hright.
  pose proof (process_eye_region_shape _ _ Hleft) as Hls.
  pose proof (process_eye_region_shape _ _ Hright) as Hrs.
  split; [exact Hls|]. split; [exact Hrs|].
  destruct (extract_iris_features_length left_iris Hls) as (lf & Hlf & Hll).
  destruct (extract_iris_features_length right_iris Hrs) as (rf & Hrf & Hrl).
  exists (lf ++ rf). split.
  - unfold process_image, process_image_body.
    rewrite Hdec. cbn [res_bind]. rewrite Hfaces. cbn [res_bind].
    rewrite Hpred. cbn [res_bind].
    destruct (_extract_eye_region cv image landmarks) as [left_eye right_eye].
    cbn [fst snd] in Hleft, Hright.
    rewrite Hleft. cbn [res_bind]. rewrite Hright. cbn [res_bind].
    rewrite Hlf. cbn [res_bind]. rewrite Hrf. reflexivity.
  - rewrite length_app. lia.
Qed.

(** Whenever [process_image] returns a feature vector at all, it has
    240,000 components. *)
Lemma process_image_length (image_data : bytes) (features : list Byte.byte) :
  process_image cv image_data = Some features ->
  Z.of_nat (length features) = 240000%Z.
Proof using Hcv.
  unfold process_image, process_image_body.
  destruct (imdecode cv image_data) as [image|]; [|discriminate]. cbn [res_bind].
  destruct (detector cv image) as [[|face faces]|]; cbn [res_bind]; try discriminate.
  destruct image as [image|]; [|discriminate].
  destruct (predictor cv image face) as [landmarks|]; [|discriminate]. cbn [res_bind].
  destruct (_extract_eye_region cv image landmarks) as [left_eye right_eye].
  destruct (_process_eye_region cv left_eye) as [left_iris|] eqn:Hleft; [|discriminate].
  cbn [res_bind].
  destruct (_process_eye_region cv right_eye) as [right_iris|] eqn:Hright; [|discriminate].
  cbn [res_bind].
  destruct (_extract_iris_features cv left_iris) as [[lf|]|] eqn:Hlf; cbn [res_bind];
    try discriminate.
  2:{ destruct (_extract_iris_features cv right_iris) as [[rf|]|]; discriminate. }
  destruct (_extract_iris_features cv right_iris) as [[rf|]|] eqn:Hrf; cbn [res_bind];
    try discriminate.
  intros H. injection H as <-.
  destruct (extract_iris_features_some _ _ Hlf) as [lp ->].
  destruct (extract_iris_features_some _ _ Hrf) as [rp ->].
  destruct (extract_iris_features_length lp (process_eye_region_shape _ _ Hleft))
    as (lf' & Hlf' & Hll).
  destruct (extract_iris_features_length rp (process_eye_region_shape _ _ Hright))
    as (rf' & Hrf' & Hrl).
  rewrite Hlf in Hlf'. rewrite Hrf in Hrf'.
  injection Hlf' as <-. injection Hrf' as <-.
  rewrite length_app. lia.
Qed.

End FeatureLength.

(** The stand-in keeps the two contracts. *)
Lemma toy_iris_cv_contracts : IrisRecognition.contracts Samples.toy_iris_cv.
Proof.
  constructor.
  - intros src w h dst H. cbn in H. injection H as <-.
    split; [apply repeat_length|].
    apply Forall_forall. intros row Hrow. apply list_elem_of_In in Hrow.
    apply repeat_spec in Hrow. subst row. apply repeat_length.
  - intros src ddepth k rows cols Hshape. exists src. split; [reflexivity|exact Hshape].
Defined.

(** C7 on a sample: a one-pixel upload. *)
Lemma process_image_feature_length_witness :
  exists features,
    IrisRecognition.process_image Samples.toy_iris_cv [Byte.x07] = Some features /\
    Z.of_nat (length features) = 240000%Z.
Proof.
  refine (proj2 (proj2 (process_image_feature_length Samples.toy_iris_cv
            toy_iris_cv_contracts [Byte.x07]
            [[(Byte.x07, Byte.x07, Byte.x07)]] tt [] (fun _ => (0, 0))
            (repeat (repeat Byte.x00 100) 100) (repeat (repeat Byte.x00 100) 100)
            _ _ _ _ _))); reflexivity.
Defined.

(** ** security.py: [sanitize_input] *)

Section Sanitize.
Import Stdlib.Strings.Ascii SecurityInput Facts.

Lemma starts_with_app (p s : str) : starts_with p s = true -> exists b, s = p ++ b.
Proof.
  revert s. induction p as [|c p IH]; intros s H; [exists s; reflexivity|].
  destruct s as [|d s]; [discriminate H|]. cbn in H.
  apply andb_true_iff in H. destruct H as [Hc Hp].
  apply bool_decide_eq_true in Hc. subst d.
  destruct (IH s Hp) as [b ->]. exists b. reflexivity.
Qed.

Lemma occurs_tail (p : str) (c : ascii) (s : str) : occurs p s -> occurs p (c :: s).
Proof. intros (a & b & ->). exists (c :: a), b. reflexivity. Qed.

(** Removing only takes characters away. *)
Lemma replace_from_In (old : str) (x : ascii) (s : str) :
  forall skip, In x (replace_from old [] skip s) -> In x s.
Proof.
  induction s as [|c rest IH]; intros skip H; [exact H|].
  cbn [replace_from] in H. destruct skip as [|k].
  - destruct (starts_with old (c :: rest)).
    + right. exact (IH _ H).
    + destruct H as [H|H]; [left; exact H|right; exact (IH _ H)].
  - right. exact (IH _ H).
Qed.

Lemma str_replace_In (old : str) (x : ascii) (s : str) :
  In x (str_replace old [] s) -> In x s.
Proof.
  destruct old as [|o old]; cbn [str_replace].
  - cbn. induction s as [|c s IH]; cbn; [tauto|]. intros [H|H]; auto.
  - apply replace_from_In.
Qed.

(** After [s.replace(c, '')] for one character, [c] is gone. *)
Lemma remove_char_gone (c : ascii) (s : str) : ~ In c (str_replace [c] [] s).
Proof.
  cbn [str_replace]. induction s as [|d rest IH]; [intros []|].
  cbn [replace_from starts_with length]. destruct (bool_decide (c = d)) eqn:Hcd; cbn.
  - exact IH.
  - apply bool_decide_eq_false in Hcd. intros [H|H]; [congruence|exact (IH H)].
Qed.

Lemma occurs_char (c : ascii) (s : str) : occurs [c] s -> In c s.
Proof. intros (a & b & ->). apply in_or_app. right. left. reflexivity. Qed.

(** A string in which [old] does not occur is left as it is. *)
Lemma replace_absent (old : str) (s : str) :
  old <> [] -> ~ occurs old s -> str_replace old [] s = s.
Proof.
  intros Hne. destruct old as [|o old]; [contradiction|]. cbn [str_replace].
  induction s as [|c rest IH]; intros Hno; [reflexivity|].
  cbn [replace_from]. destruct (starts_with (o :: old) (c :: rest)) eqn:Hp.
  - destruct (starts_with_app _ _ Hp) as [b Hb]. exfalso. apply Hno.
    exists [], b. exact Hb.
  - f_equal. apply IH. intros H. apply Hno. now apply occurs_tail.
Qed.

Lemma occurs_double_hyphen (s : str) :
  occurs [hyphen; hyphen] s -> has_double_hyphen s = true.
Proof.
  intros (a & b & ->). induction a as [|c a IH].
  - cbn. rewrite !bool_decide_eq_true_2 by reflexivity. reflexivity.
  - change ((c :: a) ++ [hyphen; hyphen] ++ b) with (c :: (a ++ [hyphen; hyphen] ++ b)).
    destruct (a ++ [hyphen; hyphen] ++ b) as [|d l] eqn:E.
    + destruct a; discriminate E.
    + change (has_double_hyphen (c :: d :: l))
        with ((bool_decide (c = hyphen) && bool_decide (d = hyphen))
              || has_double_hyphen (d :: l)).
      rewrite IH. apply orb_true_r.
Qed.

Lemma remove_hyphens_other (c : ascii) (rest : str) :
  c <> hyphen ->
  replace_from [hyphen; hyphen] [] 0 (c :: rest) =
    c :: replace_from [hyphen; hyphen] [] 0 rest.
Proof.
  intros Hc. cbn [replace_from starts_with].
  rewrite (bool_decide_eq_false_2 (hyphen = c)) by congruence. reflexivity.
Qed.

Lemma remove_hyphens_pair (t : str) :
  replace_from [hyphen; hyphen] [] 0 (hyphen :: hyphen :: t) =
    replace_from [hyphen; hyphen] [] 0 t.
Proof.
  cbn [replace_from starts_with length Nat.sub].
  rewrite !bool_decide_eq_true_2 by reflexivity. reflexivity.
Qed.

Lemma remove_hyphens_single (c : ascii) (t : str) :
  c <> hyphen ->
  replace_from [hyphen; hyphen] [] 0 (hyphen :: c :: t) =
    hyphen :: replace_from [hyphen; hyphen] [] 0 (c :: t).
Proof.
  intros Hc.
  change (replace_from [hyphen; hyphen] [] 0 (hyphen :: c :: t))
    with (if starts_with [hyphen; hyphen] (hyphen :: c :: t)
          then [] ++ replace_from [hyphen; hyphen] [] (length [hyphen; hyphen] - 1) (c :: t)
          else hyphen :: replace_from [hyphen; hyphen] [] 0 (c :: t)).
  cbn [starts_with]. rewrite bool_decide_eq_true_2 by reflexivity.
  rewrite (bool_decide_eq_false_2 (hyphen = c)) by congruence. reflexivity.
Qed.

(** One pass of [replace('--', '')] leaves no two hyphens next to each
    other: a run of hyphens is taken away in pairs from the left, and
    what is left of it is at most one hyphen, followed by another
    character. *)
Lemma remove_hyphens_clean (n : nat) :
  forall s, (length s <= n)%nat ->
    has_double_hyphen (replace_from [hyphen; hyphen] [] 0 s) = false.
Proof.
  induction n as [|n IH]; intros s Hlen.
  - destruct s; [reflexivity|cbn in Hlen; lia].
  - destruct s as [|c1 [|c2 t]]; [reflexivity| |].
    + cbn. rewrite andb_false_r. reflexivity.
    + destruct (decide (c1 = hyphen)) as [E1|E1].
      * destruct (decide (c2 = hyphen)) as [E2|E2].
        -- subst. rewrite remove_hyphens_pair. apply IH. cbn in Hlen. lia.
        -- subst c1. rewrite (remove_hyphens_single c2 t E2).
           assert (Hrest : has_double_hyphen (replace_from [hyphen; hyphen] [] 0 (c2 :: t)) = false).
           { apply IH. cbn in Hlen |- *. lia. }
           rewrite (remove_hyphens_other c2 t E2) in Hrest |- *.
           change (has_double_hyphen (hyphen :: c2 :: replace_from [hyphen; hyphen] [] 0 t))
             with ((bool_decide (hyphen = hyphen) && bool_decide (c2 = hyphen))
                   || has_double_hyphen (c2 :: replace_from [hyphen; hyphen] [] 0 t)).
           rewrite Hrest. rewrite (bool_decide_eq_false_2 (c2 = hyphen)) by exact E2.
           rewrite andb_false_r. reflexivity.
      * rewrite (remove_hyphens_other c1 (c2 :: t) E1).
        assert (Hrest : has_double_hyphen (replace_from [hyphen; hyphen] [] 0 (c2 :: t)) = false).
        { apply IH. cbn in Hlen |- *. lia. }
        destruct (replace_from [hyphen; hyphen] [] 0 (c2 :: t)) as [|d l]; [reflexivity|].
        change (has_double_hyphen (c1 :: d :: l))
          with ((bool_decide (c1 = hyphen) && bool_decide (d = hyphen))
                || has_double_hyphen (d :: l)).
        rewrite Hrest.
        rewrite (bool_decide_eq_false_2 (c1 = hyphen)) by exact E1. reflexivity.
Qed.

(** None of the six patterns occurs in what [sanitize_input] returns. *)
Lemma sanitize_input_no_pattern (data p : str) :
  In p dangerous_chars -> ~ occurs p (sanitize_input data).
Proof.
  intros Hp Hocc.
  unfold sanitize_input, dangerous_chars in *. cbn [fold_left] in Hocc.
  set (s1 := str_replace ["<"%char] [] data) in *.
  set (s2 := str_replace [">"%char] [] s1) in *.
  set (s3 := str_replace ["034"%char] [] s2) in *.
  set (s4 := str_replace ["'"%char] [] s3) in *.
  set (s5 := str_replace [";"%char] [] s4) in *.
  set (s6 := str_replace ["-"%char; "-"%char] [] s5) in *.
  cbn in Hp.
  destruct Hp as [<-|[<-|[<-|[<-|[<-|[<-|[]]]]]]].
  - apply occurs_char in Hocc.
    do 5 apply str_replace_In in Hocc. exact (remove_char_gone _ _ Hocc).
  - apply occurs_char in Hocc.
    do 4 apply str_replace_In in Hocc. exact (remove_char_gone _ _ Hocc).
  - apply occurs_char in Hocc.
    do 3 apply str_replace_In in Hocc. exact (remove_char_gone _ _ Hocc).
  - apply occurs_char in Hocc.
    do 2 apply str_replace_In in Hocc. exact (remove_char_gone _ _ Hocc).
  - apply occurs_char in Hocc.
    apply str_replace_In in Hocc. exact (remove_char_gone _ _ Hocc).
  - change ["-"%char; "-"%char] with [hyphen; hyphen] in *.
    apply occurs_double_hyphen in Hocc.
    subst s6. cbn [str_replace] in Hocc.
    rewrite (remove_hyphens_clean (length s5) s5) in Hocc by lia. discriminate Hocc.
Qed.

(** A string without any of the patterns is returned as it is. *)
Lemma sanitize_input_clean (s : str) :
  (forall p, In p dangerous_chars -> ~ occurs p s) -> sanitize_input s = s.
Proof.
  intros Hclean. unfold sanitize_input, dangerous_chars in *. cbn [fold_left].
  rewrite (replace_absent ["<"%char] s); [|discriminate|apply Hclean; cbn; tauto].
  rewrite (replace_absent [">"%char] s); [|discriminate|apply Hclean; cbn; tauto].
  rewrite (replace_absent ["034"%char] s); [|discriminate|apply Hclean; cbn; tauto].
  rewrite (replace_absent ["'"%char] s); [|discriminate|apply Hclean; cbn; tauto].
  rewrite (replace_absent [";"%char] s); [|discriminate|apply Hclean; cbn; tauto].
  apply replace_absent; [discriminate|apply Hclean; cbn; tauto].
Qed.

(** X1.  [sanitize_input] removes what it sets out to remove: none of
    the six patterns of [dangerous_chars] (the five characters and the
    double hyphen) occurs as a substring of its result.  For the five
    characters this holds because the later replacements only delete;
    for the double hyphen, the last one replaced, because a single
    left-to-right pass over a run of hyphens leaves at most one. *)
Theorem sanitize_input_removes_patterns (data p : str) :
  In p dangerous_chars -> ~ occurs p (sanitize_input data).
Proof. exact (sanitize_input_no_pattern data p). Qed.

(** X2.  [sanitize_input] is idempotent: sanitizing a sanitized string
    changes nothing. *)
Theorem sanitize_input_idempotent (data : str) :
  sanitize_input (sanitize_input data) = sanitize_input data.
Proof.
  apply sanitize_input_clean. intros p Hp. now apply sanitize_input_no_pattern.
Qed.

End Sanitize.

(** X1 on a sample: no [<] is left of [<b>--x<]. *)
Lemma sanitize_input_removes_patterns_witness :
  ~ SecurityInput.occurs (String.list_ascii_of_string "<")
      (SecurityInput.sanitize_input (String.list_ascii_of_string "<b>--x<")).
Proof.
  apply sanitize_input_removes_patterns. left. reflexivity.
Defined.

(** ** security.py: [validate_password_strength] *)

Section PasswordStrength.
Import Stdlib.Strings.Ascii SecurityInput.

(** X3.  [validate_password_strength] is monotone under extension: a
    password that contains an accepted password as a substring is
    accepted, whatever is added before and after it.  (Each of the five
    conditions is a lower bound on the length or the existence of a
    character of some class.) *)
Theorem validate_password_strength_extension (cc : char_classes) (a p b : str) :
  validate_password_strength cc p = true ->
  validate_password_strength cc (a ++ p ++ b) = true.
Proof.
  unfold validate_password_strength.
  destruct (Nat.ltb_spec (length p) 8) as [Hs|Hl]; [discriminate|].
  destruct (Nat.ltb_spec (length (a ++ p ++ b)) 8) as [Hs'|_].
  { rewrite !length_app in Hs'. lia. }
  rewrite !andb_true_iff. intros [[[Hu Hlo] Hd] Hsp].
  rewrite !existsb_app. rewrite Hu, Hlo, Hd, Hsp. cbn [orb].
  repeat match goal with
         | |- context [existsb ?f ?l] => destruct (existsb f l)
         end; auto.
Qed.

(** X4.  What [validate_password_strength] rejects: every password of
    fewer than 8 characters, and every password all of whose characters
    are alphanumeric, however long. *)
Theorem validate_password_strength_rejects (cc : char_classes) (p : str) :
  (length p < 8)%nat \/ Forall (fun c => isalnum cc c = true) p ->
  validate_password_strength cc p = false.
Proof.
  unfold validate_password_strength. intros [Hs|Hall].
  - destruct (Nat.ltb_spec (length p) 8); [reflexivity|lia].
  - destruct (length p <? 8)%nat; [reflexivity|].
    assert (Hsp : existsb (fun c => negb (isalnum cc c)) p = false).
    { induction Hall as [|c l Hc Hl IH]; [reflexivity|]. cbn. rewrite Hc, IH. reflexivity. }
    rewrite Hsp. apply andb_false_r.
Qed.

End PasswordStrength.

(** X3 on a sample: [Test@123] with text around it. *)
Lemma validate_password_strength_extension_witness :
  SecurityInput.validate_password_strength Fixtures.ascii_classes
    (String.list_ascii_of_string "my " ++ String.list_ascii_of_string "Test@123" ++ String.list_ascii_of_string "!")
  = true.
Proof.
  apply validate_password_strength_extension. reflexivity.
Defined.

(** X4 on a sample: seven characters of all four kinds. *)
Lemma validate_password_strength_rejects_witness :
  SecurityInput.validate_password_strength Fixtures.ascii_classes
    (String.list_ascii_of_string "Te@1234") = false.
Proof.
  apply validate_password_strength_rejects. left. cbn. lia.
Defined.

(** ** models.py: [SystemConfig] *)

Section Config.
Import SystemConfig.

Lemma first_by_key_key (tbl : table) (k : string) (r : row) :
  first_by_key tbl k = Some r -> key r = k /\ In r tbl.
Proof.
  induction tbl as [|x rest IH]; [discriminate|]. cbn.
  destruct (bool_decide (key x = k)) eqn:E.
  - intros H. injection H as <-. apply bool_decide_eq_true in E. auto.
  - intros H. destruct (IH H). auto.
Qed.

Lemma first_by_key_none (tbl : table) (k : string) :
  first_by_key tbl k = None <-> ~ In k (map key tbl).
Proof.
  induction tbl as [|x rest IH]; cbn; [tauto|].
  destruct (bool_decide (key x = k)) eqn:E.
  - apply bool_decide_eq_true in E. split; [discriminate|]. intros H. destruct H. auto.
  - apply bool_decide_eq_false in E. rewrite IH. tauto.
Qed.

Lemma first_by_key_app_none (tbl : table) (k : string) (r : row) :
  first_by_key tbl k = None ->
  first_by_key (tbl ++ [r]) k = if bool_decide (key r = k) then Some r else None.
Proof.
  induction tbl as [|x rest IH]; cbn; [reflexivity|].
  destruct (bool_decide (key x = k)); [discriminate|exact IH].
Qed.

Lemma first_by_key_app_some (tbl : table) (k : string) (r x : row) :
  first_by_key tbl k = Some x -> first_by_key (tbl ++ [r]) k = Some x.
Proof.
  induction tbl as [|y rest IH]; cbn; [discriminate|].
  destruct (bool_decide (key y = k)); [auto|exact IH].
Qed.

Lemma first_by_key_update (k k' : string) (f : row -> row) (tbl : table) :
  (forall x, key (f x) = key x) ->
  first_by_key (update_first k f tbl) k' =
    if bool_decide (k' = k) then f <$> first_by_key tbl k else first_by_key tbl k'.
Proof.
  intros Hf. induction tbl as [|x rest IH]; cbn.
  - destruct (bool_decide (k' = k)); reflexivity.
  - destruct (decide (key x = k)) as [E|E].
    + rewrite (bool_decide_eq_true_2 _ E). cbn. rewrite Hf.
      destruct (decide (k' = k)) as [E'|E'].
      * subst k'. rewrite !(bool_decide_eq_true_2 _ E).
        rewrite bool_decide_eq_true_2 by reflexivity. reflexivity.
      * rewrite (bool_decide_eq_false_2 (k' = k)) by exact E'.
        rewrite !(bool_decide_eq_false_2 (key x = k')) by congruence.
        reflexivity.
    + rewrite (bool_decide_eq_false_2 _ E). cbn. rewrite IH.
      destruct (decide (k' = k)) as [E'|E'].
      * subst k'. rewrite (bool_decide_eq_false_2 _ E).
        rewrite bool_decide_eq_true_2 by reflexivity. reflexivity.
      * rewrite (bool_decide_eq_false_2 (k' = k)) by exact E'. reflexivity.
Qed.

Lemma map_key_update (k : string) (f : row -> row) (tbl : table) :
  (forall x, key (f x) = key x) -> map key (update_first k f tbl) = map key tbl.
Proof.
  intros Hf. induction tbl as [|x rest IH]; [reflexivity|]. cbn.
  destruct (bool_decide (key x = k)); cbn; [rewrite Hf; reflexivity|rewrite IH; reflexivity].
Qed.

(** X5.  [set_setting] then [get_setting]: the key that was set reads
    back the new value, whether it existed before or not and whatever
    the default, and every other key reads what it read before. *)
Theorem get_setting_after_set (utcnow : datetime) (tbl : table) (k v : string)
    (descr : option string) (by_user : option Z) (k' : string) (default : option string) :
  get_setting (set_setting utcnow tbl k v descr by_user) k' default =
    if bool_decide (k' = k) then Some v else get_setting tbl k' default.
Proof.
  unfold get_setting, set_setting.
  destruct (first_by_key tbl k) as [r|] eqn:Hk.
  - rewrite first_by_key_update by reflexivity.
    destruct (bool_decide (k' = k)); [rewrite Hk; reflexivity|reflexivity].
  - destruct (decide (k' = k)) as [E|E].
    + subst k'. rewrite bool_decide_eq_true_2 by reflexivity.
      rewrite (first_by_key_app_none _ _ _ Hk). cbn.
      rewrite bool_decide_eq_true_2 by reflexivity. reflexivity.
    + rewrite (bool_decide_eq_false_2 _ E).
      destruct (first_by_key tbl k') as [x|] eqn:Hk'.
      * rewrite (first_by_key_app_some _ _ _ _ Hk'). reflexivity.
      * rewrite (first_by_key_app_none _ _ _ Hk'). cbn.
        rewrite (bool_decide_eq_false_2 (k = k')) by congruence. reflexivity.
Qed.

(** X6.  [set_setting] keeps the keys of the table unique (the column
    is declared [unique=True], and the method never runs into the
    constraint): the keys afterwards are the keys before, with the new
    key at the end if it was not among them. *)
Theorem set_setting_keys (utcnow : datetime) (tbl : table) (k v : string)
    (descr : option string) (by_user : option Z) :
  NoDup (map key tbl) ->
  NoDup (map key (set_setting utcnow tbl k v descr by_user)) /\
  map key (set_setting utcnow tbl k v descr by_user) =
    (if bool_decide (k ∈ map key tbl) then map key tbl else map key tbl ++ [k]).
Proof.
  intros Hnd. unfold set_setting.
  destruct (first_by_key tbl k) as [r|] eqn:Hk.
  - rewrite map_key_update by reflexivity.
    destruct (first_by_key_key _ _ _ Hk) as [Hkey Hin].
    rewrite bool_decide_eq_true_2; [auto|].
    apply list_elem_of_In. rewrite <- Hkey. now apply in_map.
  - apply first_by_key_none in Hk.
    rewrite bool_decide_eq_false_2 by (rewrite list_elem_of_In; exact Hk).
    rewrite map_app. cbn.
    split; [|reflexivity].
    apply NoDup_app. split; [exact Hnd|]. split.
    + intros x Hx Hx'. apply list_elem_of_In in Hx, Hx'. cbn in Hx'.
      destruct Hx' as [<-|[]]. exact (Hk Hx).
    + apply NoDup_singleton.
Qed.

(** X7.  [set_setting] on a key that exists changes the value, the time
    and the user of its row and nothing else: the row keeps its id and
    its description, so the [description] argument of the call is
    ignored, and the table keeps its length. *)
Theorem set_setting_existing_row (utcnow : datetime) (tbl : table) (k v : string)
    (descr : option string) (by_user : option Z) (r : row) :
  first_by_key tbl k = Some r ->
  first_by_key (set_setting utcnow tbl k v descr by_user) k =
    Some (mkRow (id r) k v (description r) utcnow by_user) /\
  length (set_setting utcnow tbl k v descr by_user) = length tbl.
Proof.
  intros Hk. unfold set_setting. rewrite Hk. split.
  - rewrite first_by_key_update by reflexivity.
    rewrite bool_decide_eq_true_2 by reflexivity. rewrite Hk. cbn.
    destruct (first_by_key_key _ _ _ Hk) as [-> _]. reflexivity.
  - clear Hk. induction tbl as [|x rest IH]; [reflexivity|]. cbn.
    destruct (bool_decide (key x = k)); cbn; [reflexivity|rewrite IH; reflexivity].
Qed.

End Config.

(** X6 on a sample: a second key is added to the table. *)
Lemma set_setting_keys_witness :
  NoDup (map SystemConfig.key
           (SystemConfig.set_setting 7 Fixtures.config0 "session_timeout" "30" None None)) /\
  map SystemConfig.key
    (SystemConfig.set_setting 7 Fixtures.config0 "session_timeout" "30" None None) =
    (if bool_decide ("session_timeout" ∈ map SystemConfig.key Fixtures.config0)
     then map SystemConfig.key Fixtures.config0
     else map SystemConfig.key Fixtures.config0 ++ ["session_timeout"]).
Proof.
  apply set_setting_keys. apply NoDup_singleton.
Defined.

(** X7 on a sample: the description passed with the new value is
    dropped. *)
Lemma set_setting_existing_row_witness :
  SystemConfig.first_by_key
    (SystemConfig.set_setting 7 Fixtures.config0 "max_login_attempts" "3"
       (Some "changed") (Some 1))
    "max_login_attempts" =
    Some (SystemConfig.mkRow 1 "max_login_attempts" "3"
            (Some "Failed logins before lockout") 7 (Some 1)) /\
  length (SystemConfig.set_setting 7 Fixtures.config0 "max_login_attempts" "3"
            (Some "changed") (Some 1)) = length Fixtures.config0.
Proof.
  apply (set_setting_existing_row 7 Fixtures.config0 "max_login_attempts" "3"
           (Some "changed") (Some 1)
           (SystemConfig.mkRow 1 "max_login_attempts" "5"
              (Some "Failed logins before lockout") 0 None)).
  reflexivity.
Defined.

(** ** errors.py *)

Section ErrorResponses.
Import Errors.

Lemma to_dict_lookups (utcnow : datetime) (e : biometric_error) :
  to_dict utcnow e !! "error" = Some (PBool true) /\
  to_dict utcnow e !! "message" = Some (PStr (message e)) /\
  to_dict utcnow e !! "status_code" = Some (PInt (status_code e)) /\
  to_dict utcnow e !! "timestamp" = Some (PIsoformat utcnow).
Proof.
  unfold to_dict. repeat split.
  - rewrite !lookup_insert_ne by discriminate. apply lookup_insert_eq.
  - rewrite !lookup_insert_ne by discriminate. apply lookup_insert_eq.
  - rewrite !lookup_insert_ne by discriminate. apply lookup_insert_eq.
  - apply lookup_insert_eq.
Qed.

(** X8.  [BiometricError.to_dict]: the four keys [error], [message],
    [status_code] and [timestamp] always carry the exception's own
    values, also when the payload has entries under these keys (the
    payload loses), and every other key is the payload's. *)
Theorem to_dict_reserved_keys (utcnow : datetime) (e : biometric_error) (k : string) :
  to_dict utcnow e !! "error" = Some (PBool true) /\
  to_dict utcnow e !! "message" = Some (PStr (message e)) /\
  to_dict utcnow e !! "status_code" = Some (PInt (status_code e)) /\
  to_dict utcnow e !! "timestamp" = Some (PIsoformat utcnow) /\
  (k ∉ ["error"; "message"; "status_code"; "timestamp"] ->
   to_dict utcnow e !! k = default ∅ (payload e) !! k).
Proof.
  destruct (to_dict_lookups utcnow e) as (He & Hm & Hs & Ht).
  repeat (split; [assumption|]).
  intros Hk. unfold to_dict. rewrite !lookup_insert_ne; [reflexivity| | | |];
    intros <-; apply Hk; set_solver.
Qed.

(** X9.  [handle_error_response]: the status code inside the response
    body is the status code returned beside it, and [error] is true, for
    every exception.  What is logged differs: for a [BiometricError] (or
    a subclass) the logged message is the empty string, because
    [__init__] passes no argument on to [Exception] and [str(error)] is
    then empty, while the response carries the message; for another
    exception both carry [str(error)], with status 500. *)
Theorem handle_error_response_consistent (utcnow : datetime) (e : error) :
  let '(response, status, log) := handle_error_response utcnow e in
  response !! "status_code" = Some (PInt status) /\
  response !! "error" = Some (PBool true) /\
  error_type log = type_name e /\
  match e with
  | Biometric b => error_message log = "" /\ response !! "message" = Some (PStr (message b))
  | Other _ text => error_message log = text /\ response !! "message" = Some (PStr text) /\ status = 500
  end.
Proof.
  destruct e as [b|name text]; cbn.
  - destruct (to_dict_lookups utcnow b) as (He & Hm & Hs & _). auto.
  - repeat split.
Qed.

End ErrorResponses.

(** ** app.py: registration, login and the debug route *)

Lemma head_filter_bool {A} (p : A -> bool) (x : A) (l : list A) :
  head (filter (fun a => Is_true (p a)) (x :: l)) =
    if p x then Some x else head (filter (fun a => Is_true (p a)) l).
Proof.
  rewrite filter_cons. destruct (p x) eqn:E.
  - rewrite decide_True by exact I. reflexivity.
  - rewrite decide_False by exact (fun H => H). reflexivity.
Qed.

Lemma filter_bool_cons {A} (p : A -> bool) (x : A) (l : list A) :
  filter (fun a => Is_true (p a)) (x :: l) =
    if p x then x :: filter (fun a => Is_true (p a)) l
    else filter (fun a => Is_true (p a)) l.
Proof.
  rewrite filter_cons. destruct (p x) eqn:E.
  - rewrite decide_True by exact I. reflexivity.
  - rewrite decide_False by exact (fun H => H). reflexivity.
Qed.

Section UserTable.
Import AppRoutes Facts.

Lemma first_by_username_find (w : world) (name : string) :
  App.first_by_username w name = find_user name (users w).
Proof. reflexivity. Qed.

Lemma find_user_cons (name : string) (x : User) (us : list User) :
  find_user name (x :: us) =
    if bool_decide (username x = name) then Some x else find_user name us.
Proof. unfold find_user. apply (head_filter_bool (fun u => bool_decide (username u = name))). Qed.

Lemma find_user_app_none (name : string) (us : list User) (u : User) :
  find_user name us = None ->
  find_user name (us ++ [u]) = if bool_decide (username u = name) then Some u else None.
Proof.
  induction us as [|x rest IH].
  - intros _. cbn [app]. rewrite find_user_cons. reflexivity.
  - cbn [app]. rewrite !find_user_cons.
    destruct (bool_decide (username x = name)); [discriminate|exact IH].
Qed.

Lemma find_user_none (name : string) (us : list User) :
  find_user name us = None <-> ~ In name (map username us).
Proof.
  induction us as [|x rest IH]; [cbn; tauto|].
  rewrite find_user_cons. cbn [map In].
  destruct (bool_decide (username x = name)) eqn:E.
  - apply bool_decide_eq_true in E. split; [discriminate|]. intros H. destruct H. auto.
  - apply bool_decide_eq_false in E. rewrite IH. tauto.
Qed.

Lemma find_user_name (name : string) (us : list User) (u : User) :
  find_user name us = Some u -> username u = name.
Proof.
  induction us as [|z rest IH]; [discriminate|].
  rewrite find_user_cons.
  destruct (bool_decide (username z = name)) eqn:E; [|exact IH].
  intros H. injection H as <-. now apply bool_decide_eq_true in E.
Qed.

Lemma enrolled_cons (w : world) (x : User) (us : list User) :
  App.enrolled (with_users (x :: us) w) =
    if has_iris x then x :: App.enrolled (with_users us w) else App.enrolled (with_users us w).
Proof. unfold App.enrolled. cbn [users with_users]. apply (filter_bool_cons has_iris). Qed.

Lemma enrolled_after_update (w : world) (name : string) (b : bytes) (us : list User) (u : User) :
  App.enrolled (with_users us w) = [] ->
  find_user name us = Some u ->
  App.enrolled
    (with_users
       (update_first_user name
          (fun u => mkUser (id u) (username u) (password_hash u) (Some b) (created_at u)) us) w)
  = [mkUser (id u) (username u) (password_hash u) (Some b) (created_at u)].
Proof.
  induction us as [|x rest IH]; [discriminate|].
  rewrite enrolled_cons, find_user_cons. cbn [update_first_user].
  destruct (has_iris x) eqn:Hx; [discriminate|].
  intros Hrest. destruct (bool_decide (username x = name)).
  - intros H. injection H as <-. rewrite enrolled_cons.
    replace (has_iris (mkUser (id x) (username x) (password_hash x) (Some b) (created_at x)))
      with true by reflexivity.
    rewrite Hrest. reflexivity.
  - intros H. rewrite enrolled_cons, Hx. exact (IH Hrest H).
Qed.

End UserTable.

Section Registration.
Import AppRoutes Facts.
Variable generate_password_hash : string -> string.
Variable check_password_hash : string -> string -> bool.

(** X10.  Registration and login fit together: after a POST to
    /register with a user name that is not taken, a POST to /login with
    the same user name and password answers 200 and logs in the new
    user, whose id is one more than the largest id before.  The one
    assumption is werkzeug's: a hash checks against the password it was
    generated from. *)
Theorem register_then_login (req : request) (sess : session_vars) (s : site)
    (data : gmap string string) (name password : string) (login_req : request) :
  (forall p, check_password_hash (generate_password_hash p) p = true) ->
  method req = "POST" ->
  get_json req = Some data ->
  data !! "username" = Some name ->
  data !! "password" = Some password ->
  App.first_by_username (world_of s) name = None ->
  method login_req = "POST" ->
  get_json login_req = Some (Spec.credentials name password) ->
  let '(out, sess', s') := register generate_password_hash req sess s in
  out = Returned (mkResponse (jsonify [("message", JStr "Registration successful")]) 201) /\
  result (App.login check_password_hash login_req (world_of s')) =
    mkResponse (jsonify [("message", JStr "Login successful")]) 200 /\
  session_user (final (App.login check_password_hash login_req (world_of s'))) =
    Some (next_user_id (users (world_of s))).
Proof.
  intros Hchk Hm Hj Hn Hp Hfresh Hlm Hlj.
  unfold register. rewrite Hm, Hj, Hn, Hfresh, Hp.
  rewrite (bool_decide_eq_true_2 _ eq_refl).
  set (tmp := match sess !! "temp_iris_file" with | Some _ => _ | None => _ end).
  destruct tmp as [[iris sess1] files1].
  split; [reflexivity|].
  set (u := mkUser _ _ _ _ _). set (w' := with_users _ _).
  assert (Hrow : App.first_by_username w' name = Some u).
  { rewrite first_by_username_find. subst w'. cbn [users with_users].
    rewrite first_by_username_find in Hfresh.
    rewrite (find_user_app_none _ _ u Hfresh).
    rewrite bool_decide_eq_true_2 by reflexivity. reflexivity. }
  pose proof (login_post check_password_hash login_req w' (Spec.credentials name password)
                name password u Hlm Hlj) as Hlogin.
  cbn [world_of].
  rewrite Hlogin; [| | |exact Hrow].
  - cbn [password_hash u]. subst u. cbn [password_hash]. rewrite Hchk. cbn. auto.
  - unfold Spec.credentials. apply lookup_insert_eq.
  - unfold Spec.credentials. rewrite lookup_insert_ne by discriminate. apply lookup_insert_eq.
Qed.

(** X11.  /capture_iris_registration followed by /register in the same
    session: the new row carries exactly the uploaded bytes as its iris
    data, and afterwards the temporary file is gone and the session no
    longer names it. *)
Theorem capture_then_register (capture_req req : request) (sess : session_vars) (s : site)
    (iris_image : bytes) (data : gmap string string) (name password : string) :
  files capture_req !! "iris_image" = Some iris_image ->
  method req = "POST" ->
  get_json req = Some data ->
  data !! "username" = Some name ->
  data !! "password" = Some password ->
  App.first_by_username (world_of s) name = None ->
  let '(_, sess1, s1) := capture_iris_registration capture_req sess s in
  let '(out, sess2, s2) := register generate_password_hash req sess1 s1 in
  out = Returned (mkResponse (jsonify [("message", JStr "Registration successful")]) 201) /\
  users (world_of s2) =
    users (world_of s) ++
      [mkUser (next_user_id (users (world_of s))) name (generate_password_hash password)
              (Some iris_image) (clock (world_of s))] /\
  tempdir s2 !! temp_filename sess = None /\
  sess2 !! "temp_iris_file" = None.
Proof.
  intros Hf Hm Hj Hn Hp Hfresh.
  unfold capture_iris_registration. rewrite Hf. cbv beta iota zeta.
  unfold register. cbn [world_of tempdir]. rewrite Hm, Hj, Hn, Hfresh, Hp.
  rewrite (bool_decide_eq_true_2 _ eq_refl).
  unfold session_vars in *.
  rewrite !lookup_insert_eq. cbv beta iota zeta.
  split; [reflexivity|]. cbn [world_of tempdir users with_users].
  split; [reflexivity|]. split; apply lookup_delete_eq.
Qed.

(** X12.  The temporary file is named after the session's [csrf_token]
    only (["unknown"] when the session has none, and nothing in the
    repository sets one), so two sessions with the same token share it:
    when client B captures between A's capture and A's registration, A's
    new account is stored with B's iris image. *)
Theorem capture_overwritten_by_other_session
    (req_a req_b req : request) (sess_a sess_b : session_vars) (s : site)
    (iris_a iris_b : bytes) (data : gmap string string) (name password : string) :
  sess_a !! "csrf_token" = sess_b !! "csrf_token" ->
  files req_a !! "iris_image" = Some iris_a ->
  files req_b !! "iris_image" = Some iris_b ->
  method req = "POST" ->
  get_json req = Some data ->
  data !! "username" = Some name ->
  data !! "password" = Some password ->
  App.first_by_username (world_of s) name = None ->
  let '(_, sess_a1, s1) := capture_iris_registration req_a sess_a s in
  let '(_, sess_b1, s2) := capture_iris_registration req_b sess_b s1 in
  let '(out, _, s3) := register generate_password_hash req sess_a1 s2 in
  out = Returned (mkResponse (jsonify [("message", JStr "Registration successful")]) 201) /\
  iris_data <$> last (users (world_of s3)) = Some (Some iris_b).
Proof.
  intros Hcsrf Hfa Hfb Hm Hj Hn Hp Hfresh.
  unfold capture_iris_registration. rewrite Hfa, Hfb.
  assert (Hname : temp_filename sess_b = temp_filename sess_a).
  { unfold temp_filename. rewrite Hcsrf. reflexivity. }
  cbv beta iota zeta.
  unfold register. cbn [world_of tempdir]. rewrite Hm, Hj, Hn, Hfresh, Hp.
  rewrite (bool_decide_eq_true_2 _ eq_refl).
  unfold session_vars in *.
  rewrite lookup_insert_eq. rewrite Hname. rewrite lookup_insert_eq. cbv beta iota zeta.
  split; [reflexivity|]. cbn [world_of users with_users].
  rewrite last_snoc. reflexivity.
Qed.

(** [register] is [register_json] on the bodies whose values are all
    strings. *)
Lemma register_json_strings (hash_type_error : string) (propagate_exceptions : bool)
    (req : request) (sess : session_vars) (s : site) :
  register_json generate_password_hash hash_type_error propagate_exceptions
    (method req) (fmap (M := option) (fmap (M := gmap string) Some) (get_json req)) sess s =
  register generate_password_hash req sess s.
Proof.
  unfold register_json, register.
  destruct (bool_decide (method req = "POST")); [|reflexivity].
  destruct (get_json req) as [data|]; [|reflexivity]. cbn [fmap option_fmap option_map].
  rewrite !lookup_fmap.
  destruct (data !! "username") as [name|]; [|reflexivity]. cbn.
  destruct (App.first_by_username (world_of s) name); [reflexivity|].
  destruct (data !! "password") as [password|]; reflexivity.
Qed.

(** X13.  /register keeps user names unique, for every method, session
    and JSON body with strings or [null] as values: if no two rows share
    a user name before, none do after.  The table of users changes only
    when the route answers 201.  The temporary directory changes only
    then, with one exception: for a [null] user name the captured iris
    file is read and removed before the commit fails, so the request
    ends in [IntegrityError] with no account made and the capture
    lost. *)
Theorem register_keeps_usernames_unique
    (hash_type_error : string) (propagate_exceptions : bool)
    (http_method : string) (body : option (gmap string (option string)))
    (sess : session_vars) (s : site) :
  NoDup (map username (users (world_of s))) ->
  let '(out, _, s') :=
    register_json generate_password_hash hash_type_error propagate_exceptions
      http_method body sess s in
  NoDup (map username (users (world_of s'))) /\
  (world_of s' <> world_of s -> exists r, out = Returned r /\ status r = 201) /\
  (tempdir s' <> tempdir s ->
     (exists r, out = Returned r /\ status r = 201) \/
     (out = Unhandled "IntegrityError" /\
      exists data, body = Some data /\ data !! "username" = Some None)).
Proof.
  intros Hnd. unfold register_json.
  assert (Hsame : NoDup (map username (users (world_of s))) /\
                  (world_of s <> world_of s -> exists r : response, False) /\
                  (tempdir s <> tempdir s -> False)).
  { split; [exact Hnd|]. split; intros H; contradiction H; reflexivity. }
  destruct (bool_decide (http_method = "POST"));
    [|split; [exact Hnd|split; intros H; contradiction H; reflexivity]].
  destruct body as [data|];
    [|split; [exact Hnd|split; intros H; contradiction H; reflexivity]].
  destruct (data !! "username") as [name|] eqn:Hname;
    [|split; [exact Hnd|split; intros H; contradiction H; reflexivity]].
  destruct (name ≫= App.first_by_username (world_of s)) as [u|] eqn:Hfresh;
    [split; [exact Hnd|split; intros H; contradiction H; reflexivity]|].
  destruct (data !! "password") as [[password|]|];
    [| split; [exact Hnd|split; intros H; contradiction H; reflexivity]
     | split; [exact Hnd|split; intros H; contradiction H; reflexivity]].
  set (tmp := match sess !! "temp_iris_file" with | Some _ => _ | None => _ end).
  destruct tmp as [[iris sess1] files1].
  destruct name as [name|]; cbn [world_of users with_users tempdir].
  - split; [|split; intros _; [|left]; eexists; split; reflexivity].
    rewrite map_app. cbn. apply NoDup_app. split; [exact Hnd|]. split.
    + intros x Hx Hx'. apply list_elem_of_In in Hx, Hx'. cbn in Hx'.
      destruct Hx' as [<-|[]]. cbn in Hfresh.
      rewrite first_by_username_find in Hfresh. apply find_user_none in Hfresh. auto.
    + apply NoDup_singleton.
  - split; [exact Hnd|]. split; [intros H; contradiction H; reflexivity|].
    intros _. right. split; [reflexivity|]. exists data. auto.
Qed.

End Registration.

Lemma toy_hash_checks (p : string) :
  Samples.toy_check_password_hash (Fixtures.toy_generate_password_hash p) p = true.
Proof. apply bool_decide_eq_true_2. reflexivity. Defined.

(** X10 on a sample: alice registers and logs in, as user 3. *)
Lemma register_then_login_witness :
  let '(out, sess', s') :=
    AppRoutes.register Fixtures.toy_generate_password_hash Fixtures.register_alice ∅
      Fixtures.site0 in
  out = AppRoutes.Returned
          (mkResponse (jsonify [("message", JStr "Registration successful")]) 201) /\
  result (App.login Samples.toy_check_password_hash Fixtures.register_alice
            (AppRoutes.world_of s')) =
    mkResponse (jsonify [("message", JStr "Login successful")]) 200 /\
  session_user (final (App.login Samples.toy_check_password_hash Fixtures.register_alice
                         (AppRoutes.world_of s'))) =
    Some (AppRoutes.next_user_id (users (AppRoutes.world_of Fixtures.site0))).
Proof.
  apply (register_then_login Fixtures.toy_generate_password_hash
           Samples.toy_check_password_hash Fixtures.register_alice ∅ Fixtures.site0
           Fixtures.alice "alice" "Alice@123" Fixtures.register_alice toy_hash_checks);
    reflexivity.
Defined.

(** X11 on a sample: alice uploads an image and registers. *)
Lemma capture_then_register_witness :
  let '(_, sess1, s1) :=
    AppRoutes.capture_iris_registration (Samples.post_image "10.0.0.1" Samples.image_r20) ∅
      Fixtures.site0 in
  let '(out, sess2, s2) :=
    AppRoutes.register Fixtures.toy_generate_password_hash Fixtures.register_alice sess1 s1 in
  out = AppRoutes.Returned
          (mkResponse (jsonify [("message", JStr "Registration successful")]) 201) /\
  users (AppRoutes.world_of s2) =
    users (AppRoutes.world_of Fixtures.site0) ++
      [mkUser (AppRoutes.next_user_id (users (AppRoutes.world_of Fixtures.site0))) "alice"
              (Fixtures.toy_generate_password_hash "Alice@123")
              (Some Samples.image_r20) (clock (AppRoutes.world_of Fixtures.site0))] /\
  AppRoutes.tempdir s2 !! AppRoutes.temp_filename ∅ = None /\
  sess2 !! "temp_iris_file" = None.
Proof.
  apply (capture_then_register Fixtures.toy_generate_password_hash
           (Samples.post_image "10.0.0.1" Samples.image_r20) Fixtures.register_alice ∅
           Fixtures.site0 Samples.image_r20 Fixtures.alice "alice" "Alice@123");
    reflexivity.
Defined.

(** X12 on a sample: two clients without a csrf token. *)
Lemma capture_overwritten_by_other_session_witness :
  let '(_, sess_a1, s1) :=
    AppRoutes.capture_iris_registration (Samples.post_image "10.0.0.1" Samples.image_r20) ∅
      Fixtures.site0 in
  let '(_, sess_b1, s2) :=
    AppRoutes.capture_iris_registration (Samples.post_image "10.0.0.2" Samples.image_r15_3) ∅
      s1 in
  let '(out, _, s3) :=
    AppRoutes.register Fixtures.toy_generate_password_hash Fixtures.register_alice sess_a1 s2 in
  out = AppRoutes.Returned
          (mkResponse (jsonify [("message", JStr "Registration successful")]) 201) /\
  iris_data <$> last (users (AppRoutes.world_of s3)) = Some (Some Samples.image_r15_3).
Proof.
  apply (capture_overwritten_by_other_session Fixtures.toy_generate_password_hash
           (Samples.post_image "10.0.0.1" Samples.image_r20)
           (Samples.post_image "10.0.0.2" Samples.image_r15_3)
           Fixtures.register_alice ∅ ∅ Fixtures.site0
           Samples.image_r20 Samples.image_r15_3 Fixtures.alice "alice" "Alice@123");
    reflexivity.
Defined.

(** X13 on a sample: a body with a [null] user name, sent after a
    capture. *)
Lemma register_keeps_usernames_unique_witness :
  let '(out, _, s') :=
    AppRoutes.register_json Fixtures.toy_generate_password_hash "AttributeError" false
      "POST" (Some Fixtures.null_user) Fixtures.captured_session Fixtures.site_captured in
  NoDup (map username (users (AppRoutes.world_of s'))) /\
  (AppRoutes.world_of s' <> AppRoutes.world_of Fixtures.site_captured ->
     exists r, out = AppRoutes.Returned r /\ status r = 201) /\
  (AppRoutes.tempdir s' <> AppRoutes.tempdir Fixtures.site_captured ->
     (exists r, out = AppRoutes.Returned r /\ status r = 201) \/
     (out = AppRoutes.Unhandled "IntegrityError" /\
      exists data, Some Fixtures.null_user = Some data /\ data !! "username" = Some None)).
Proof.
  apply (register_keeps_usernames_unique Fixtures.toy_generate_password_hash
           "AttributeError" false "POST" (Some Fixtures.null_user)
           Fixtures.captured_session Fixtures.site_captured).
  apply NoDup_cons. split; [|apply NoDup_singleton].
  intros H. apply list_elem_of_In in H. cbn in H. destruct H as [H|[]]. discriminate H.
Defined.

(** The exception of X13 at work: after a capture, a registration with a
    [null] user name ends in [IntegrityError]; no row is added, and the
    captured file is no longer in the temporary directory. *)
Lemma register_null_username_loses_capture :
  let '(out, _, s') :=
    AppRoutes.register_json Fixtures.toy_generate_password_hash "AttributeError" false
      "POST" (Some Fixtures.null_user) Fixtures.captured_session Fixtures.site_captured in
  out = AppRoutes.Unhandled "IntegrityError" /\
  users (AppRoutes.world_of s') = users (AppRoutes.world_of Fixtures.site_captured) /\
  AppRoutes.tempdir Fixtures.site_captured !! "iris_temp_unknown.dat" =
    Some Samples.image_r20 /\
  AppRoutes.tempdir s' !! "iris_temp_unknown.dat" = None.
Proof. vm_compute. repeat split. Qed.

Section Takeover.
Import AppRoutes Facts.
Context {image : Type} (cv : Cv2.api image).

(** X14.  The debug route is an account takeover: /debug/add_iris/<name>
    needs no login and no password, and when nobody else is enrolled,
    whoever posts an image to it and then any image with a circle of
    radius at least 15.5 to /verify_iris is logged in as that user,
    without a password check. *)
Theorem debug_add_iris_then_verify (name : string) (add_req verify_req : request)
    (s : site) (iris_image data : bytes) (u : User)
    (circles : list Cv2.circle) (x y r : Q) :
  files add_req !! "iris_image" = Some iris_image ->
  App.first_by_username (world_of s) name = Some u ->
  App.enrolled (world_of s) = [] ->
  Spec.uploads verify_req data ->
  Spec.detected_circles cv data (Some circles) ->
  In (x, y, r) circles -> (31 # 2 <= r)%Q ->
  let '(_, s') := debug_add_iris name add_req s in
  let out := App.verify_iris cv verify_req (world_of s') in
  result out =
    mkResponse
      (jsonify [("message", JStr "Iris authentication successful");
                ("username", JStr name)])
      200 /\
  session_user (final out) = Some (id u) /\
  (forall uid, EvCheckPassword uid ∉ events out).
Proof.
  intros Hf Hu Hnone Hup Hdet Hin Hr.
  unfold debug_add_iris. rewrite Hf, Hu. cbv beta iota zeta. cbn [world_of].
  set (w' := with_users _ _).
  assert (Hname : username u = name).
  { rewrite first_by_username_find in Hu. exact (find_user_name _ _ _ Hu). }
  assert (Henr : App.enrolled w' =
                 [mkUser (id u) (username u) (password_hash u) (Some iris_image) (created_at u)]).
  { subst w'. apply enrolled_after_update; [exact Hnone|].
    rewrite <- first_by_username_find. exact Hu. }
  clearbody w'.
  assert (Hout : App.verify_iris cv verify_req w' =
    (mkResponse
       (jsonify [("message", JStr "Iris authentication successful");
                 ("username", JStr name)])
       200,
     with_session_user (Some (id u)) w',
     [EvImdecode data; EvHoughCircles; EvQueryUsersWithIris;
      EvCompareIris (id u); EvLoginUser (id u)])).
  { unfold App.verify_iris. rewrite Hup. unfold bind at 1.
    rewrite (detect_iris_in_image_true cv data w' circles x y r Hdet Hin Hr). cbn.
    unfold App.query_users_with_iris, bind, emit, get_world, ret; cbn -[App.enrolled].
    rewrite Henr. cbn. rewrite Hname. reflexivity. }
  rewrite Hout. cbn. split; [reflexivity|]. split; [reflexivity|].
  intros uid H. apply list_elem_of_In in H. cbn in H. intuition discriminate.
Qed.

(** X15.  /verify_iris only ever logs in the first enrolled user:
    whenever the route calls [login_user] for an id, the request carried
    an upload in which circles were detected, and the id is that of the
    first row with iris data, whoever sent the image. *)
Theorem verify_iris_logs_in_first_enrolled_only (req : request) (w : world) (uid : Z) :
  EvLoginUser uid ∈ events (App.verify_iris cv req w) ->
  exists data circles u rest,
    Spec.uploads req data /\
    Spec.detected_circles cv data (Some circles) /\
    App.enrolled w = u :: rest /\ id u = uid.
Proof.
  unfold App.verify_iris, Spec.uploads.
  destruct (files req !! "iris_image") as [data|] eqn:Hf.
  2:{ cbn. intros H. apply list_elem_of_In in H. destruct H. }
  unfold bind at 1.
  destruct (detect_iris_in_image_cases cv data w) as (detected & tr & Hdet & Htr & Hcirc).
  rewrite Hdet. destruct detected; cbn -[App.enrolled].
  2:{ rewrite app_nil_r. intros H. apply list_elem_of_In in H.
      destruct Htr as [-> | ->]; cbn in H; intuition discriminate. }
  destruct (Hcirc eq_refl) as [circles Hc].
  destruct (App.enrolled w) as [|u rest] eqn:Henr; cbn.
  { intros H. apply list_elem_of_In in H. apply in_app_or in H.
    destruct H as [H|H]; [destruct Htr as [-> | ->]|]; cbn in H; intuition discriminate. }
  intros H. apply list_elem_of_In in H. apply in_app_or in H.
  destruct H as [H|H]; [destruct Htr as [-> | ->]; cbn in H; intuition discriminate|].
  cbn in H. destruct H as [H|[H|[H|[]]]]; try discriminate H.
  injection H as Hid. exists data, circles, u, rest. auto.
Qed.

End Takeover.

(** X14 on a sample: the one user of the process has no iris data until
    the debug route is called. *)
Lemma debug_add_iris_then_verify_witness :
  let '(_, s') :=
    AppRoutes.debug_add_iris "testuser" (Samples.post_image "10.0.0.9" Samples.image_r15_3)
      Fixtures.site_unenrolled in
  let out :=
    App.verify_iris Samples.synthetic_cv (Samples.post_image "10.0.0.9" Samples.image_r20)
      (AppRoutes.world_of s') in
  result out =
    mkResponse
      (jsonify [("message", JStr "Iris authentication successful");
                ("username", JStr "testuser")])
      200 /\
  session_user (final out) = Some (id (mkUser 1 "testuser" "hash:Test@123" None 0)) /\
  (forall uid, EvCheckPassword uid ∉ events out).
Proof.
  apply (debug_add_iris_then_verify Samples.synthetic_cv "testuser"
           (Samples.post_image "10.0.0.9" Samples.image_r15_3)
           (Samples.post_image "10.0.0.9" Samples.image_r20)
           Fixtures.site_unenrolled Samples.image_r15_3 Samples.image_r20
           (mkUser 1 "testuser" "hash:Test@123" None 0)
           [(50 # 1, 50 # 1, 200 # 10)%Q] (50 # 1) (50 # 1) (200 # 10)).
  - reflexivity.
  - reflexivity.
  - reflexivity.
  - reflexivity.
  - eexists _, _. repeat split.
  - left. reflexivity.
  - vm_compute. discriminate.
Defined.

(** X15 on a sample: the upload of the sample process logs in user 1. *)
Lemma verify_iris_logs_in_first_enrolled_only_witness :
  exists data circles u rest,
    Spec.uploads (Samples.post_image "10.0.0.1" Samples.image_r20) data /\
    Spec.detected_circles Samples.synthetic_cv data (Some circles) /\
    App.enrolled Samples.world0 = u :: rest /\ id u = 1.
Proof.
  apply (verify_iris_logs_in_first_enrolled_only Samples.synthetic_cv
           (Samples.post_image "10.0.0.1" Samples.image_r20) Samples.world0 1).
  apply list_elem_of_In. vm_compute. tauto.
Defined.

Section LoginSoundness.
Variable check_password_hash : string -> string -> bool.

(** X16.  /login logs nobody in without the password: whenever the
    route calls [login_user] for an id, the request was a POST with a
    user name and a password in its JSON body, the id is that of the
    first row with that user name, and the password checks against that
    row's hash. *)
Theorem login_only_with_valid_password (req : request) (w : world) (uid : Z) :
  EvLoginUser uid ∈ events (App.login check_password_hash req w) ->
  exists data name password u,
    method req = "POST" /\ get_json req = Some data /\
    data !! "username" = Some name /\ data !! "password" = Some password /\
    App.first_by_username w name = Some u /\ id u = uid /\
    check_password_hash (password_hash u) password = true.
Proof.
  unfold App.login.
  destruct (bool_decide (method req = "POST")) eqn:Hm.
  2:{ cbn. intros H. apply list_elem_of_In in H. destruct H. }
  apply bool_decide_eq_true in Hm.
  destruct (get_json req) as [data|] eqn:Hj.
  2:{ cbn. intros H. apply list_elem_of_In in H. destruct H. }
  destruct (bool_decide (data = ∅)).
  { cbn. intros H. apply list_elem_of_In in H. destruct H. }
  destruct (data !! "username") as [name|] eqn:Hn.
  2:{ cbn. intros H. apply list_elem_of_In in H. destruct H. }
  destruct (data !! "password") as [password|] eqn:Hp.
  2:{ cbn. intros H. apply list_elem_of_In in H. destruct H. }
  unfold bind at 1.
  unfold App.query_first_by_username, bind, emit, get_world, ret;
    cbn -[App.first_by_username].
  destruct (App.first_by_username w name) as [u|] eqn:Hu; cbn.
  2:{ intros H. apply list_elem_of_In in H. cbn in H. intuition discriminate. }
  destruct (check_password_hash (password_hash u) password) eqn:Hc; cbn.
  2:{ intros H. apply list_elem_of_In in H. cbn in H. intuition discriminate. }
  intros H. apply list_elem_of_In in H. cbn in H.
  destruct H as [H|[H|[H|[]]]]; try discriminate H.
  injection H as Hid.
  exists data, name, password, u. auto 10.
Qed.

End LoginSoundness.

(** X16 on a sample: the login of [testuser] with the right password. *)
Lemma login_only_with_valid_password_witness :
  exists data name password u,
    method (Samples.post_json "10.0.0.1" (Spec.credentials "testuser" "Test@123")) = "POST" /\
    get_json (Samples.post_json "10.0.0.1" (Spec.credentials "testuser" "Test@123")) =
      Some data /\
    data !! "username" = Some name /\ data !! "password" = Some password /\
    App.first_by_username Samples.world0 name = Some u /\ id u = 1 /\
    Samples.toy_check_password_hash (password_hash u) password = true.
Proof.
  apply (login_only_with_valid_password Samples.toy_check_password_hash
           (Samples.post_json "10.0.0.1" (Spec.credentials "testuser" "Test@123"))
           Samples.world0 1).
  apply list_elem_of_In. vm_compute. tauto.
Defined.

(** ** iris_recognition.py: the matcher and the eye regions *)

Section MatcherLaws.
Import Numpy IrisRecognition.
Local Open Scope R_scope.

Lemma fmul_comm (a b : float64) : fmul a b = fmul b a.
Proof.
  destruct a as [x|s|], b as [y|s'|]; cbn; try reflexivity.
  - f_equal. apply Rmult_comm.
  - f_equal. apply xorb_comm.
Qed.

Lemma dot_comm (a b : list float64) : dot a b = dot b a.
Proof.
  revert b. induction a as [|x a IH]; intros [|y b]; cbn; try reflexivity.
  rewrite IH, fmul_comm. reflexivity.
Qed.

(** X17.  [compare_iris_features] is symmetric: swapping the stored and
    the presented vector never changes the answer, nor whether the call
    raises. *)
Theorem compare_iris_features_symmetric (f1 f2 : option (list R)) (t : R) :
  compare_iris_features f1 f2 t = compare_iris_features f2 f1 t.
Proof.
  destruct f1 as [v1|], f2 as [v2|]; cbn; try reflexivity.
  rewrite dot_comm. reflexivity.
Qed.

Lemma dot_length_mismatch (a b : list float64) :
  length a <> length b -> dot a b = Raise ValueError.
Proof.
  revert b. induction a as [|x a IH]; intros [|y b] H; cbn; try reflexivity.
  - contradiction H; reflexivity.
  - rewrite IH; [reflexivity|]. cbn in H. lia.
Qed.

(** X18.  Two feature vectors of different lengths are not reported as
    a mismatch: [np.dot] raises [ValueError], and [compare_iris_features],
    which has no handler, raises it to its caller. *)
Theorem compare_iris_features_length_mismatch (v1 v2 : list R) (t : R) :
  length v1 <> length v2 ->
  compare_iris_features (Some v1) (Some v2) t = Raise ValueError.
Proof.
  intros H. unfold compare_iris_features.
  rewrite dot_length_mismatch; [reflexivity|].
  unfold true_divide. rewrite !length_map. exact H.
Qed.

Lemma sum_squares_diff (u v : list R) :
  length u = length v ->
  0 <= sum_squares u + sum_squares v - 2 * Spec.dot_product u v.
Proof.
  revert v. induction u as [|x u IH]; intros [|y v] H; try discriminate H; cbn.
  - lra.
  - specialize (IH v ltac:(cbn in H; lia)).
    pose proof (Rle_0_sqr (x - y)) as Hsq. unfold Rsqr in Hsq. lra.
Qed.

End MatcherLaws.

(** X18 on a sample: one component against two. *)
Lemma compare_iris_features_length_mismatch_witness :
  IrisRecognition.compare_iris_features (Some [1%R]) (Some [1%R; 2%R])
    IrisRecognition.default_threshold = Raise ValueError.
Proof.
  apply compare_iris_features_length_mismatch. cbn. lia.
Defined.

Section EyeRegions.
Import Numpy IrisRecognition.
Context {rect kernel : Type} (cv : api rect kernel).

Lemma py_slice_length {A} (l : list A) (lo hi : Z) :
  0 <= lo -> lo <= hi -> hi <= Z.of_nat (length l) ->
  length (py_slice l lo hi) = Z.to_nat (hi - lo).
Proof.
  intros H0 H1 H2. unfold py_slice, slice_index.
  destruct (Z.ltb_spec lo 0); [lia|]. destruct (Z.ltb_spec hi 0); [lia|].
  rewrite !Z.min_l by lia.
  rewrite length_take, length_drop. lia.
Qed.

(** A slice that starts before the array and ends inside it: the
    negative start counts from the end, and nothing is selected. *)
Lemma py_slice_wraps_empty {A} (l : list A) (lo hi : Z) :
  lo < 0 -> 0 <= hi -> hi - lo <= Z.of_nat (length l) ->
  py_slice l lo hi = [].
Proof.
  intros H0 H1 H2. unfold py_slice, slice_index.
  destruct (Z.ltb_spec lo 0); [|lia]. destruct (Z.ltb_spec hi 0); [lia|].
  replace (Z.to_nat (Z.min hi (Z.of_nat (length l)) - Z.max (lo + Z.of_nat (length l)) 0))
    with 0%nat by lia.
  reflexivity.
Qed.

Lemma py_slice_In {A} (l : list A) (lo hi : Z) (x : A) : In x (py_slice l lo hi) -> In x l.
Proof.
  unfold py_slice. intros H.
  apply list_elem_of_In in H. apply list_elem_of_In.
  apply (subseteq_drop (Z.to_nat (slice_index (Z.of_nat (length l)) lo)) l).
  exact (subseteq_take _ _ _ H).
Qed.

Lemma concat_nil_rows {A} (l : list (list A)) : Forall (fun r => r = []) l -> concat l = [].
Proof. induction 1 as [|r l Hr Hl IH]; [reflexivity|]. cbn. rewrite Hr, IH. reflexivity. Qed.

(** X20.  An eye rectangle that lies inside the image is cut out whole:
    the region [image[y:y+h, x:x+w]] has [h] rows of [w] pixels. *)
Theorem crop_inside {A} (image : list (list A)) (rows cols : nat) (x y w h : Z) :
  has_shape image rows cols ->
  0 <= x -> 0 <= w -> x + w <= Z.of_nat cols ->
  0 <= y -> 0 <= h -> y + h <= Z.of_nat rows ->
  has_shape (crop image y (y + h) x (x + w)) (Z.to_nat h) (Z.to_nat w).
Proof.
  intros [Hrows Hcols] Hx Hw Hxw Hy Hh Hyh. unfold crop. split.
  - rewrite length_map, py_slice_length by lia. f_equal. lia.
  - apply Forall_forall. intros row Hrow. apply list_elem_of_In in Hrow.
    apply in_map_iff in Hrow. destruct Hrow as (r0 & <- & Hr0).
    assert (Hlen : length r0 = cols).
    { rewrite Forall_forall in Hcols. apply Hcols. apply list_elem_of_In.
      exact (py_slice_In _ _ _ _ Hr0). }
    rewrite py_slice_length by lia. f_equal. lia.
Qed.

(** X21.  An eye rectangle that reaches over the left or the top edge
    of the image (a landmark with a negative coordinate) is not clipped
    to the image: the negative start of the slice counts from the other
    end, the region comes out empty, and [_process_eye_region] returns
    [None] for it before any OpenCV call. *)
Theorem eye_region_over_the_edge (image : bgr_image) (rows cols : nat) (x y w h : Z) :
  has_shape image rows cols ->
  (x < 0 /\ 0 <= x + w /\ w <= Z.of_nat cols) \/
  (y < 0 /\ 0 <= y + h /\ h <= Z.of_nat rows) ->
  size (crop image y (y + h) x (x + w)) = 0%nat /\
  _process_eye_region cv (crop image y (y + h) x (x + w)) = Ok None.
Proof.
  intros [Hrows Hcols] Hedge.
  assert (Hsize : size (crop image y (y + h) x (x + w)) = 0%nat).
  { unfold size, crop. destruct Hedge as [(Hx & Hxw & Hw)|(Hy & Hyh & Hh)].
    - rewrite concat_nil_rows; [reflexivity|].
      apply Forall_forall. intros row Hrow. apply list_elem_of_In in Hrow.
      apply in_map_iff in Hrow. destruct Hrow as (r0 & <- & Hr0).
      apply py_slice_wraps_empty; [exact Hx|exact Hxw|].
      rewrite Forall_forall in Hcols.
      rewrite (Hcols r0); [lia|]. apply list_elem_of_In. exact (py_slice_In _ _ _ _ Hr0).
    - rewrite py_slice_wraps_empty; [reflexivity|exact Hy|exact Hyh|lia]. }
  split; [exact Hsize|].
  unfold _process_eye_region. rewrite Hsize. reflexivity.
Qed.

(** X22.  [process_image] returns a feature vector only on one path:
    the upload decoded to an image, the detector found a face, the
    predictor gave landmarks for the first face, and an iris was
    isolated in both eye regions; the vector is then the features of
    the left iris followed by those of the right.  In every other case,
    an exception included, the result is [None]. *)
Theorem process_image_only_if (image_data : bytes) :
  is_Some (process_image cv image_data) ->
  exists image face faces landmarks left_iris right_iris left_features right_features,
    imdecode cv image_data = Ok (Some image) /\
    detector cv (Some image) = Ok (face :: faces) /\
    predictor cv image face = Ok landmarks /\
    _process_eye_region cv (fst (_extract_eye_region cv image landmarks)) =
      Ok (Some left_iris) /\
    _process_eye_region cv (snd (_extract_eye_region cv image landmarks)) =
      Ok (Some right_iris) /\
    _extract_iris_features cv (Some left_iris) = Ok (Some left_features) /\
    _extract_iris_features cv (Some right_iris) = Ok (Some right_features) /\
    process_image cv image_data = Some (left_features ++ right_features).
Proof.
  intros [features H]. rewrite H. revert H.
  unfold process_image, process_image_body.
  destruct (imdecode cv image_data) as [image|] eqn:Hdec; [|discriminate]. cbn [res_bind].
  destruct (detector cv image) as [[|face faces]|] eqn:Hfaces; cbn [res_bind];
    try discriminate.
  destruct image as [image|]; [|discriminate].
  destruct (predictor cv image face) as [landmarks|] eqn:Hpred; [|discriminate].
  cbn [res_bind].
  destruct (_extract_eye_region cv image landmarks) as [left_eye right_eye] eqn:Heye.
  destruct (_process_eye_region cv left_eye) as [left_iris|] eqn:Hleft; [|discriminate].
  cbn [res_bind].
  destruct (_process_eye_region cv right_eye) as [right_iris|] eqn:Hright; [|discriminate].
  cbn [res_bind].
  destruct (_extract_iris_features cv left_iris) as [[lf|]|] eqn:Hlf; cbn [res_bind];
    try discriminate.
  2:{ destruct (_extract_iris_features cv right_iris) as [[rf|]|]; discriminate. }
  destruct (_extract_iris_features cv right_iris) as [[rf|]|] eqn:Hrf; cbn [res_bind];
    try discriminate.
  intros H. injection H as <-.
  destruct left_iris as [li|]; [|discriminate Hlf].
  destruct right_iris as [ri|]; [|discriminate Hrf].
  exists image, face, faces, landmarks, li, ri, lf, rf.
  rewrite Heye. cbn [fst snd]. repeat split; assumption || reflexivity.
Qed.

End EyeRegions.

Lemma grey_2x3_shape : IrisRecognition.has_shape Fixtures.grey_2x3 2 3.
Proof. split; [reflexivity|]. repeat constructor. Defined.

(** X20 on a sample: a 1 x 2 rectangle in a 2 x 3 image. *)
Lemma crop_inside_witness :
  IrisRecognition.has_shape
    (IrisRecognition.crop Fixtures.grey_2x3 0 (0 + 1) 1 (1 + 2)) (Z.to_nat 1) (Z.to_nat 2).
Proof.
  apply (crop_inside Fixtures.grey_2x3 2 3 1 0 2 1 grey_2x3_shape); cbn; lia.
Defined.

(** X21 on a sample: the same rectangle one pixel to the left of the
    image's edge. *)
Lemma eye_region_over_the_edge_witness :
  IrisRecognition.size (IrisRecognition.crop Fixtures.grey_2x3 0 (0 + 1) (-1) (-1 + 2)) = 0%nat /\
  IrisRecognition._process_eye_region Samples.toy_iris_cv
    (IrisRecognition.crop Fixtures.grey_2x3 0 (0 + 1) (-1) (-1 + 2)) = Ok None.
Proof.
  apply (eye_region_over_the_edge Samples.toy_iris_cv Fixtures.grey_2x3 2 3 (-1) 0 2 1
           grey_2x3_shape).
  left. cbn. lia.
Defined.

(** X22 on a sample: the one-pixel upload of the stand-in. *)
Lemma process_image_only_if_witness :
  exists image face faces landmarks left_iris right_iris left_features right_features,
    IrisRecognition.imdecode Samples.toy_iris_cv [Byte.x07] = Ok (Some image) /\
    IrisRecognition.detector Samples.toy_iris_cv (Some image) = Ok (face :: faces) /\
    IrisRecognition.predictor Samples.toy_iris_cv image face = Ok landmarks /\
    IrisRecognition._process_eye_region Samples.toy_iris_cv
      (fst (IrisRecognition._extract_eye_region Samples.toy_iris_cv image landmarks)) =
      Ok (Some left_iris) /\
    IrisRecognition._process_eye_region Samples.toy_iris_cv
      (snd (IrisRecognition._extract_eye_region Samples.toy_iris_cv image landmarks)) =
      Ok (Some right_iris) /\
    IrisRecognition._extract_iris_features Samples.toy_iris_cv (Some left_iris) =
      Ok (Some left_features) /\
    IrisRecognition._extract_iris_features Samples.toy_iris_cv (Some right_iris) =
      Ok (Some right_features) /\
    IrisRecognition.process_image Samples.toy_iris_cv [Byte.x07] =
      Some (left_features ++ right_features).
Proof.
  apply (process_image_only_if Samples.toy_iris_cv [Byte.x07]).
  eexists. reflexivity.
Defined.

(** ** models.py: [record_login_attempt], call after call *)

Section AttemptSequences.
Import Models Attempts.

Lemma replay_app (a b : list (datetime * bool)) (u : User) :
  replay (a ++ b) u = replay b (replay a u).
Proof. unfold replay. apply fold_left_app. Qed.

Lemma replay_failures (times : list datetime) :
  forall u : User,
    failed_attempts (replay (failures times) u) = failed_attempts u + Z.of_nat (length times) /\
    locked_until (replay (failures times) u) = locked_until u /\
    last_login (replay (failures times) u) = last_login u.
Proof.
  induction times as [|t rest IH]; intros u.
  - cbn. split; [lia|auto].
  - cbn [failures map replay fold_left fst snd].
    rewrite record_login_attempt_failure. cbn [fst].
    destruct (IH (with_failed_attempts (failed_attempts u + 1) u)) as (Hf & Hl & Hll).
    unfold failures, replay in Hf, Hl, Hll. rewrite Hf, Hl, Hll. cbn. split; [lia|auto].
Qed.

(** X23.  The failure counter counts the failed attempts since the last
    successful one, without bound: [n] failures in a row add [n] to it
    (nothing stops at 5), and after any history that ends with a success
    followed by [n] failures it is exactly [n], with [last_login] the
    time of that success. *)
Theorem replay_counts_failures_since_success
    (before : list (datetime * bool)) (t : datetime) (times : list datetime) (u : User) :
  failed_attempts (replay (failures times) u) = failed_attempts u + Z.of_nat (length times) /\
  failed_attempts (replay (before ++ (t, true) :: failures times) u) = Z.of_nat (length times) /\
  last_login (replay (before ++ (t, true) :: failures times) u) = Some t.
Proof.
  split; [apply replay_failures|].
  rewrite replay_app.
  change (replay ((t, true) :: failures times) (replay before u))
    with (replay (failures times) (fst (record_login_attempt t (replay before u) true))).
  destruct (replay_failures times (fst (record_login_attempt t (replay before u) true)))
    as (Hf & _ & Hll).
  rewrite Hf, Hll. cbn. split; [lia|reflexivity].
Qed.

(** X24.  No sequence of attempts locks an account: a user who is not
    locked at some time is not locked at that time after any number of
    calls of [record_login_attempt], failed or successful, in any
    order. *)
Theorem replay_never_locks (attempts : list (datetime * bool)) (u : User) (now : datetime) :
  Active now u -> Active now (replay attempts u).
Proof.
  revert u. induction attempts as [|[t success] rest IH]; intros u Hact; [exact Hact|].
  cbn [replay fold_left fst snd]. apply IH.
  destruct success.
  - cbn. intros (t' & H & _). discriminate H.
  - rewrite record_login_attempt_failure. cbn. exact Hact.
Qed.

End AttemptSequences.

(** X24 on a sample: seven failed attempts on a new account. *)
Lemma replay_never_locks_witness :
  Models.Active 8
    (Attempts.replay (Attempts.failures [1; 2; 3; 4; 5; 6; 7]) Samples.sample_user).
Proof.
  apply replay_never_locks. intros (t & H & _). discriminate H.
Defined.

(** ** manage.py: [clean_logs] *)

Section CleanLogs.
Import Manage.

(** X25.  The clean-logs command deletes nothing, whatever the age of
    the rows and the number of days: manage.py imports [datetime] but
    not [timedelta], so computing the cutoff date raises [NameError],
    the handler prints the error and rolls back, and both tables are as
    before.  With [timedelta] bound, the same body keeps exactly the
    rows that are not older than the cutoff. *)
Theorem clean_logs_deletes_nothing (utcnow : datetime) (days : Z) (db : log_tables) :
  clean_logs utcnow days db = (db, [ErrorCleaningLogs (NameError "timedelta")]) /\
  (forall namespace, "timedelta" ∈ namespace ->
     forall r,
       (In r (access_logs (fst (clean_logs_in namespace utcnow days db))) <->
        In r (access_logs db) /\ utcnow - timedelta_days days <= timestamp r) /\
       (In r (security_events (fst (clean_logs_in namespace utcnow days db))) <->
        In r (security_events db) /\ utcnow - timedelta_days days <= timestamp r)).
Proof.
  split; [reflexivity|].
  intros namespace Hin r. unfold clean_logs_in, load_global.
  destruct (decide ("timedelta" ∈ namespace)); [|contradiction].
  cbn. split; rewrite List.filter_In;
    destruct (Z.ltb_spec (timestamp r) (utcnow - timedelta_days days)); cbn;
    intuition (try discriminate; try lia).
Qed.

End CleanLogs.

(** ** security.py: the limiter, address by address and over a window *)

Section LimiterLaws.
Import Facts.
Variable env : Security.environ.

Lemma rate_limit_key_inj (ip ip' : string) :
  Security.get_rate_limit_key ip = Security.get_rate_limit_key ip' -> ip = ip'.
Proof. unfold Security.get_rate_limit_key. cbn. intros H. repeat injection H as H. exact H. Qed.

Lemma is_rate_limited_answer (ip : string) (w : world) :
  result (Security.is_rate_limited env ip w) = answer env ip w.
Proof.
  unfold Security.is_rate_limited, answer, result.
  destruct (redis_client w) as [db|].
  - destruct (Security.redis_get _ _ _) as [n|]; [|reflexivity].
    destruct (_ <=? _); reflexivity.
  - destruct (rate_limit_storage w !! ip) as [d|]; [|reflexivity].
    destruct (_ <? _); [reflexivity|]. destruct (_ <=? _); reflexivity.
Qed.

(** X26.  The limiter keeps addresses apart: a call for one address
    leaves the entry of every other address as it was, in the
    in-memory store and in Redis, and does not change the answer that
    the other address gets. *)
Theorem is_rate_limited_other_address (ip ip' : string) (w : world) :
  ip <> ip' ->
  let w1 := final (Security.is_rate_limited env ip w) in
  rate_limit_storage w1 !! ip' = rate_limit_storage w !! ip' /\
  (forall db, redis_client w = Some db ->
     exists db1, redis_client w1 = Some db1 /\
       db1 !! Security.get_rate_limit_key ip' = db !! Security.get_rate_limit_key ip') /\
  result (Security.is_rate_limited env ip' w1) = result (Security.is_rate_limited env ip' w).
Proof.
  intros Hne w1.
  assert (Hkey : Security.get_rate_limit_key ip <> Security.get_rate_limit_key ip').
  { intros H. apply Hne. now apply rate_limit_key_inj. }
  rewrite !is_rate_limited_answer.
  subst w1. unfold Security.is_rate_limited, final, answer.
  destruct (redis_client w) as [db|] eqn:Hr.
  - destruct (Security.redis_get (clock w) db (Security.get_rate_limit_key ip)) as [n|] eqn:Hg.
    + destruct (Security.max_attempts_of env <=? n); cbn [fst snd].
      * rewrite Hr. split; [reflexivity|]. split; [|reflexivity].
        intros db0 H0. exists db0. split; [exact H0|reflexivity].
      * cbn [redis_client with_redis clock rate_limit_storage].
        assert (Hother : Security.redis_incr (clock w) db (Security.get_rate_limit_key ip)
                           !! Security.get_rate_limit_key ip' = db !! Security.get_rate_limit_key ip').
        { unfold Security.redis_incr.
          destruct (db !! Security.get_rate_limit_key ip) as [e|];
            [destruct (Security.redis_live (clock w) e)|]; apply lookup_insert_ne; exact Hkey. }
        split; [reflexivity|]. split.
        -- intros db0 H0. injection H0 as <-. eexists. split; [reflexivity|exact Hother].
        -- unfold Security.redis_get. rewrite Hother. reflexivity.
    + cbn [fst snd redis_client with_redis clock rate_limit_storage].
      assert (Hother : Security.redis_setex (clock w) db (Security.get_rate_limit_key ip)
                         (Security.window_of env) 1
                         !! Security.get_rate_limit_key ip' = db !! Security.get_rate_limit_key ip').
      { unfold Security.redis_setex. apply lookup_insert_ne; exact Hkey. }
      split; [reflexivity|]. split.
      * intros db0 H0. injection H0 as <-. eexists. split; [reflexivity|exact Hother].
      * unfold Security.redis_get. rewrite Hother. reflexivity.
  - destruct (rate_limit_storage w !! ip) as [d|] eqn:Hs.
    + destruct (timedelta_seconds (Security.window_of env) <? clock w - start_time d).
      * cbn [fst snd redis_client with_rate_limit_storage clock rate_limit_storage].
        rewrite Hr. rewrite lookup_insert_ne by exact Hne.
        split; [reflexivity|]. split; [discriminate|reflexivity].
      * destruct (Security.max_attempts_of env <=? attempts d);
          cbn [fst snd redis_client with_rate_limit_storage clock rate_limit_storage];
          rewrite Hr; rewrite ?lookup_insert_ne by exact Hne;
          (split; [reflexivity|]; split; [discriminate|reflexivity]).
    + cbn [fst snd redis_client with_rate_limit_storage clock rate_limit_storage].
      rewrite Hr. rewrite lookup_insert_ne by exact Hne.
      split; [reflexivity|]. split; [discriminate|reflexivity].
Qed.


End LimiterLaws.

(** X26 on a sample: two addresses on the sample process. *)
Lemma is_rate_limited_other_address_witness :
  let w1 := final (Security.is_rate_limited Security.default_environ "10.0.0.1" Samples.world0) in
  rate_limit_storage w1 !! "10.0.0.2" = rate_limit_storage Samples.world0 !! "10.0.0.2" /\
  (forall db, redis_client Samples.world0 = Some db ->
     exists db1, redis_client w1 = Some db1 /\
       db1 !! Security.get_rate_limit_key "10.0.0.2" =
       db !! Security.get_rate_limit_key "10.0.0.2") /\
  result (Security.is_rate_limited Security.default_environ "10.0.0.2" w1) =
    result (Security.is_rate_limited Security.default_environ "10.0.0.2" Samples.world0).
Proof.
  apply (is_rate_limited_other_address Security.default_environ "10.0.0.1" "10.0.0.2"
           Samples.world0).
  discriminate.
Defined.


(** At the very end of the window the two stores part: the in-memory
    store resets only when more than the window has passed, a Redis key
    is gone when its time to live has passed.  A sixth request exactly
    an hour after the first is limited by the one and admitted by the
    other. *)
Lemma limiter_stores_differ_at_window_end :
  fst (Spec.limiter_answers Security.default_environ "10.0.0.1"
         [1000; 1001; 1002; 1003; 1004; 1000 + timedelta_seconds 3600] Samples.world0) =
    [false; false; false; false; false; true] /\
  fst (Spec.limiter_answers Security.default_environ "10.0.0.1"
         [1000; 1001; 1002; 1003; 1004; 1000 + timedelta_seconds 3600] Samples.world0_redis) =
    [false; false; false; false; false; false].
Proof. split; vm_compute; reflexivity. Qed.

(** ** iris_recognition.py: the matcher under rounding *)

Section RoundingErrors.
Import Numpy IrisRecognition Rounded.
Local Open Scope R_scope.

Lemma unit_roundoff_bounds : 0 < unit_roundoff < / 2.
Proof.
  unfold unit_roundoff. split.
  - apply Rinv_0_lt_compat. apply pow_lt. lra.
  - apply Rinv_lt_contravar; [|].
    + apply Rmult_lt_0_compat; [lra|apply pow_lt; lra].
    + replace 2 with (2 ^ 1) at 1 by lra. apply Rlt_pow; [lra|lia].
Qed.

Lemma shrink_bounds : / 2 < shrink < 1.
Proof. pose proof unit_roundoff_bounds. unfold shrink. lra. Qed.

Lemma shrink_pow_pos (k : nat) : 0 < shrink ^ k.
Proof. apply pow_lt. pose proof shrink_bounds. lra. Qed.

Lemma shrink_pow_le_1 (k : nat) : shrink ^ k <= 1.
Proof.
  pose proof shrink_bounds.
  induction k as [|k IH]; cbn; [lra|].
  pose proof (shrink_pow_pos k). nra.
Qed.

Lemma shrink_pow_mono (j k : nat) : (j <= k)%nat -> shrink ^ k <= shrink ^ j.
Proof.
  intros H. replace k with (j + (k - j))%nat by lia. rewrite pow_add.
  pose proof (shrink_pow_pos j). pose proof (shrink_pow_le_1 (k - j)).
  pose proof (shrink_pow_pos (k - j)). nra.
Qed.

Lemma near_refl (x : R) : near 0 x x.
Proof. unfold near. cbn. split; lra. Qed.

Lemma near_nonneg (k : nat) (x y : R) : 0 <= x -> near k x y -> 0 <= y.
Proof.
  intros Hx [Hl _]. pose proof (shrink_pow_pos k). nra.
Qed.

Lemma near_pos (k : nat) (x y : R) : 0 < x -> near k x y -> 0 < y.
Proof.
  intros Hx [Hl _]. pose proof (shrink_pow_pos k). nra.
Qed.

Lemma near_zero (k : nat) (y : R) : near k 0 y -> y = 0.
Proof. unfold near. intros [Hl Hu]. unfold Rdiv in Hu. lra. Qed.

Lemma near_weaken (j k : nat) (x y : R) :
  0 <= x -> (j <= k)%nat -> near j x y -> near k x y.
Proof.
  intros Hx Hjk [Hl Hu]. pose proof (shrink_pow_mono j k Hjk) as Hm.
  pose proof (shrink_pow_pos j) as Hj. pose proof (shrink_pow_pos k) as Hk.
  split.
  - nra.
  - apply Rle_trans with (x / shrink ^ j); [exact Hu|].
    unfold Rdiv. apply Rmult_le_compat_l; [exact Hx|].
    apply Rinv_le_contravar; assumption.
Qed.

Lemma Rabs_le_both (a b : R) : Rabs a <= b -> - b <= a <= b.
Proof. unfold Rabs. destruct (Rcase_abs a); lra. Qed.

Lemma near_round (x y : R) : 0 <= x -> rounds x y -> near 1 x y.
Proof.
  unfold rounds, near. intros Hx [_ H]. rewrite (Rabs_right x) in H by lra.
  apply Rabs_le_both in H. pose proof unit_roundoff_bounds as Hu.
  pose proof shrink_bounds as Hs. cbn. rewrite Rmult_1_r. split.
  - unfold shrink. lra.
  - apply Rmult_le_reg_r with shrink; [lra|].
    unfold Rdiv. rewrite Rmult_assoc, Rinv_l by lra.
    unfold shrink in *. nra.
Qed.

Lemma near_trans (j k : nat) (x y z : R) :
  0 <= x -> near j x y -> near k y z -> near (j + k) x z.
Proof.
  intros Hx Hxy Hyz. pose proof (near_nonneg _ _ _ Hx Hxy) as Hy.
  destruct Hxy as [Hl1 Hu1], Hyz as [Hl2 Hu2].
  pose proof (shrink_pow_pos j) as Hj. pose proof (shrink_pow_pos k) as Hk.
  unfold near. rewrite pow_add. split.
  - apply Rle_trans with (y * shrink ^ k); [|exact Hl2]. nra.
  - apply Rle_trans with (y / shrink ^ k); [exact Hu2|].
    unfold Rdiv in *. rewrite Rinv_mult.
    pose proof (Rinv_0_lt_compat _ Hk). nra.
Qed.

Lemma near_mult (j k : nat) (a a' b b' : R) :
  0 <= a -> 0 <= b -> near j a a' -> near k b b' -> near (j + k) (a * b) (a' * b').
Proof.
  intros Ha Hb Haa Hbb.
  pose proof (near_nonneg _ _ _ Ha Haa) as Ha'.
  pose proof (near_nonneg _ _ _ Hb Hbb) as Hb'.
  destruct Haa as [Hl1 Hu1], Hbb as [Hl2 Hu2].
  pose proof (shrink_pow_pos j) as Hj. pose proof (shrink_pow_pos k) as Hk.
  pose proof (Rinv_0_lt_compat _ Hj) as Hij. pose proof (Rinv_0_lt_compat _ Hk) as Hik.
  unfold near. rewrite pow_add. unfold Rdiv in *. rewrite Rinv_mult. split.
  - replace (a * b * (shrink ^ j * shrink ^ k)) with ((a * shrink ^ j) * (b * shrink ^ k)) by ring.
    apply Rmult_le_compat; nra.
  - replace (a * b * (/ shrink ^ j * / shrink ^ k)) with ((a * / shrink ^ j) * (b * / shrink ^ k)) by ring.
    apply Rmult_le_compat; nra.
Qed.

Lemma near_inv (k : nat) (b b' : R) : 0 < b -> near k b b' -> near k (/ b) (/ b').
Proof.
  intros Hb Hbb. pose proof (near_pos _ _ _ Hb Hbb) as Hb'.
  destruct Hbb as [Hl Hu].
  pose proof (shrink_pow_pos k) as Hk. pose proof (Rinv_0_lt_compat _ Hk) as Hik.
  pose proof (Rinv_0_lt_compat _ Hb) as Hib.
  unfold near, Rdiv in *. split.
  - (* / b * s^k <= / b' , from b' <= b / s^k *)
    replace (/ b * shrink ^ k) with (/ (b * / shrink ^ k)).
    2:{ rewrite Rinv_mult, Rinv_inv. reflexivity. }
    apply Rinv_le_contravar; [exact Hb'|exact Hu].
  - replace (/ b * / shrink ^ k) with (/ (b * shrink ^ k)) by (rewrite Rinv_mult; reflexivity).
    apply Rinv_le_contravar; [nra|exact Hl].
Qed.

Lemma near_div (j k : nat) (a a' b b' : R) :
  0 <= a -> 0 < b -> near j a a' -> near k b b' -> near (j + k) (a / b) (a' / b').
Proof.
  intros Ha Hb Haa Hbb. unfold Rdiv.
  apply near_mult; [exact Ha| |exact Haa|now apply near_inv].
  left. now apply Rinv_0_lt_compat.
Qed.

Lemma near_plus (k : nat) (a a' b b' : R) :
  near k a a' -> near k b b' -> near k (a + b) (a' + b').
Proof. unfold near, Rdiv. intros [Hl1 Hu1] [Hl2 Hu2]. split; lra. Qed.

Lemma near_sqrt (k : nat) (x y : R) : 0 <= x -> near k x y -> near k (sqrt x) (sqrt y).
Proof.
  intros Hx Hxy. pose proof (near_nonneg _ _ _ Hx Hxy) as Hy.
  destruct Hxy as [Hl Hu].
  pose proof (shrink_pow_pos k) as Hk. pose proof (shrink_pow_le_1 k) as Hk1.
  pose proof (sqrt_pos x) as Hsx.
  unfold near. split.
  - (* sqrt x * s <= sqrt (x * s * s) <= sqrt (x * s) <= sqrt y *)
    apply Rle_trans with (sqrt (x * shrink ^ k)); [|apply sqrt_le_1_alt; exact Hl].
    rewrite sqrt_mult by lra.
    apply Rmult_le_compat_l; [exact Hsx|].
    rewrite <- (sqrt_square (shrink ^ k)) at 1 by lra.
    apply sqrt_le_1_alt. nra.
  - apply Rle_trans with (sqrt (x / shrink ^ k)); [apply sqrt_le_1_alt; exact Hu|].
    unfold Rdiv. rewrite sqrt_mult; [|lra|left; now apply Rinv_0_lt_compat].
    apply Rmult_le_compat_l; [exact Hsx|].
    pose proof (Rinv_0_lt_compat _ Hk) as Hik.
    assert (H1 : 1 <= / shrink ^ k).
    { rewrite <- Rinv_1 at 1. apply Rinv_le_contravar; lra. }
    rewrite <- (sqrt_square (/ shrink ^ k)) at 2 by lra.
    apply sqrt_le_1_alt. nra.
Qed.

Lemma sum_app (a b : list R) : sum (a ++ b) = sum a + sum b.
Proof. induction a as [|x a IH]; cbn; [lra|rewrite IH; lra]. Qed.

Lemma sum_perm (a b : list R) : Permutation a b -> sum a = sum b.
Proof. induction 1; cbn; lra. Qed.

(** A rounded sum of numbers that are not negative is the exact sum up
    to as many roundings as there are numbers, whatever the order. *)
Lemma sums_near (l : list R) (s : R) :
  sums l s -> Forall (fun x => 0 <= x) l -> l <> [] /\ near (length l) (sum l) s.
Proof.
  induction 1 as [x|l1 l2 s1 s2 s H1 IH1 H2 IH2 Hr|l l' s Hp H IH]; intros Hpos.
  - split; [discriminate|]. cbn. rewrite Rplus_0_r.
    apply Forall_inv in Hpos.
    apply (near_weaken 0); [exact Hpos|lia|apply near_refl].
  - apply Forall_app in Hpos. destruct Hpos as [Hp1 Hp2].
    destruct (IH1 Hp1) as [Hn1 N1]. destruct (IH2 Hp2) as [Hn2 N2].
    split; [destruct l1; [contradiction|discriminate]|].
    rewrite sum_app, length_app.
    assert (Hl1 : (1 <= length l1)%nat) by (destruct l1; [contradiction|cbn; lia]).
    assert (Hl2 : (1 <= length l2)%nat) by (destruct l2; [contradiction|cbn; lia]).
    assert (Hs1 : 0 <= sum l1) by (apply sum_nonneg; exact Hp1).
    assert (Hs2 : 0 <= sum l2) by (apply sum_nonneg; exact Hp2).
    set (m := (length l1 + length l2 - 1)%nat).
    assert (Nm : near m (sum l1 + sum l2) (s1 + s2)).
    { apply near_plus; [apply (near_weaken (length l1))|apply (near_weaken (length l2))];
        auto; subst m; lia. }
    replace (length l1 + length l2)%nat with (m + 1)%nat by (subst m; lia).
    apply (near_trans m 1 _ (s1 + s2)); [lra|exact Nm|].
    apply near_round; [|exact Hr].
    apply (near_nonneg m (sum l1 + sum l2)); [lra|exact Nm].
  - assert (Hpos' : Forall (fun x => 0 <= x) l).
    { rewrite Forall_forall in *. intros x Hx. apply Hpos.
      rewrite <- Hp. exact Hx. }
    destruct (IH Hpos') as [Hn N]. split.
    + intros ->. apply Permutation_nil_r in Hp. contradiction.
    + rewrite <- (sum_perm _ _ Hp), <- (Permutation_length Hp). exact N.
Qed.

Lemma Forall2_near_sum (k : nat) (xs ys : list R) :
  Forall2 (near k) xs ys -> Forall (fun x => 0 <= x) xs ->
  near k (sum xs) (sum ys) /\ Forall (fun y => 0 <= y) ys.
Proof.
  induction 1 as [|x y xs ys Hxy H IH]; intros Hpos.
  - split; [|constructor]. unfold near, Rdiv. cbn. split; lra.
  - apply Forall_cons in Hpos. destruct Hpos as [Hx Hxs].
    destruct (IH Hxs) as [N Hys]. split.
    + cbn. now apply near_plus.
    + constructor; [exact (near_nonneg _ _ _ Hx Hxy)|exact Hys].
Qed.

Lemma sqrt_between (x lo hi : R) :
  0 <= lo -> lo * lo <= x -> x <= hi * hi -> 0 <= hi -> lo <= sqrt x <= hi.
Proof.
  intros Hlo Hl Hu Hhi. split.
  - rewrite <- (sqrt_square lo) by exact Hlo. apply sqrt_le_1_alt. exact Hl.
  - rewrite <- (sqrt_square hi) by exact Hhi. apply sqrt_le_1_alt. exact Hu.
Qed.

End RoundingErrors.

Section MatcherUnderRounding.
Import Numpy IrisRecognition Rounded.
Local Open Scope R_scope.

Lemma Forall2_rounds_near (xs ys : list R) :
  Forall2 rounds xs ys -> Forall (fun x => 0 <= x) xs -> Forall2 (near 1) xs ys.
Proof.
  induction 1 as [|x y xs ys Hxy H IH]; intros Hpos; [constructor|].
  apply Forall_cons in Hpos. destruct Hpos as [Hx Hxs].
  constructor; [now apply near_round|now apply IH].
Qed.

Lemma sum_zip_dot_product (a b : list R) :
  sum (zip_with Rmult a b) = Spec.dot_product a b.
Proof.
  revert b. induction a as [|x a IH]; intros [|y b]; cbn; try reflexivity.
  rewrite IH. reflexivity.
Qed.

Lemma zip_nonneg (a b : list R) :
  Forall (fun x => 0 <= x) a -> Forall (fun x => 0 <= x) b ->
  Forall (fun x => 0 <= x) (zip_with Rmult a b).
Proof.
  intros Ha. revert b. induction Ha as [|x a Hx Ha IH]; intros b Hb; [constructor|].
  destruct Hb as [|y b Hy Hb]; [constructor|]. cbn.
  constructor; [nra|now apply IH].
Qed.

(** A computed dot product of two arrays without negative components is
    the exact one up to one rounding per product and one per
    addition. *)
Lemma dot_near (a b : list R) (d : R) :
  dot a b (Ok d) ->
  Forall (fun x => 0 <= x) a -> Forall (fun x => 0 <= x) b ->
  near (length a + 1) (Spec.dot_product a b) d.
Proof.
  intros Hdot Ha Hb. inversion Hdot as [|a' b' products d' Hlen Hne Hprod Hsum|]; subst.
  - cbn. unfold near, Rdiv. split; lra.
  - pose proof (zip_nonneg a b Ha Hb) as Hz.
    pose proof (Forall2_rounds_near _ _ Hprod Hz) as Hnear.
    destruct (Forall2_near_sum 1 _ _ Hnear Hz) as [N1 Hp].
    destruct (sums_near _ _ Hsum Hp) as [_ N2].
    rewrite sum_zip_dot_product in N1.
    assert (Hl : length products = length a).
    { rewrite <- (Forall2_length _ _ _ Hprod). rewrite length_zip_with.
      rewrite <- Hlen. apply Nat.min_id. }
    rewrite Hl in N2.
    replace (length a + 1)%nat with (1 + length a)%nat by lia.
    apply (near_trans 1 (length a) _ (sum products)); [|exact N1|exact N2].
    rewrite <- sum_zip_dot_product. now apply sum_nonneg.
Qed.

Lemma norm_near (v : list R) (n : R) :
  Rounded.linalg_norm v n -> Forall (fun x => 0 <= x) v ->
  near (length v + 2) (Numpy.linalg_norm v) n.
Proof.
  intros (sq & Hdot & Hr) Hv.
  pose proof (dot_near v v sq Hdot Hv Hv) as N. rewrite dot_product_self in N.
  pose proof (sum_squares_nonneg v) as Hs.
  pose proof (near_sqrt _ _ _ Hs N) as Nq.
  replace (length v + 2)%nat with ((length v + 1) + 1)%nat by lia.
  apply (near_trans _ 1 _ (sqrt sq)); [apply sqrt_pos|exact Nq|].
  apply near_round; [apply sqrt_pos|exact Hr].
Qed.

Lemma divide_near (k : nat) (v q : list R) (n : R) :
  Rounded.true_divide v n q ->
  0 < Numpy.linalg_norm v -> near k (Numpy.linalg_norm v) n ->
  Forall (fun x => 0 <= x) v ->
  Forall2 (near (k + 1)) (map (fun x => x / Numpy.linalg_norm v) v) q.
Proof.
  intros Hdiv Hpos Hn Hv. set (m := Numpy.linalg_norm v) in *. clearbody m.
  induction Hdiv as [|x y v q Hxy H IH]; [constructor|].
  apply Forall_cons in Hv. destruct Hv as [Hx Hv].
  cbn. constructor; [|now apply IH].
  assert (Nd : near k (x / m) (x / n)).
  { replace k with (0 + k)%nat by lia.
    apply near_div; [exact Hx|exact Hpos|apply near_refl|exact Hn]. }
  apply (near_trans k 1 _ (x / n)); [|exact Nd|].
  - apply Rmult_le_pos; [exact Hx|left; now apply Rinv_0_lt_compat].
  - apply near_round; [|exact Hxy].
    apply (near_nonneg k (x / m)); [|exact Nd].
    apply Rmult_le_pos; [exact Hx|left; now apply Rinv_0_lt_compat].
Qed.

Lemma dot_product_near (j k : nat) (u1 q1 u2 q2 : list R) :
  Forall2 (near j) u1 q1 -> Forall2 (near k) u2 q2 ->
  Forall (fun x => 0 <= x) u1 -> Forall (fun x => 0 <= x) u2 ->
  near (j + k) (Spec.dot_product u1 u2) (Spec.dot_product q1 q2).
Proof.
  intros H1. revert u2 q2. induction H1 as [|x y u1 q1 Hxy H1 IH]; intros u2 q2 H2 Hp1 Hp2.
  - cbn. unfold near, Rdiv. split; lra.
  - destruct H2 as [|x' y' u2 q2 Hxy' H2]; [cbn; unfold near, Rdiv; split; lra|].
    apply Forall_cons in Hp1, Hp2. destruct Hp1 as [Hx Hp1], Hp2 as [Hx' Hp2].
    cbn. apply near_plus; [now apply near_mult|now apply IH].
Qed.

Lemma Forall2_near_nonneg (k : nat) (us qs : list R) :
  Forall2 (near k) us qs -> Forall (fun x => 0 <= x) us -> Forall (fun x => 0 <= x) qs.
Proof.
  induction 1 as [|x y us qs Hxy H IH]; intros Hp; [constructor|].
  apply Forall_cons in Hp. destruct Hp as [Hx Hp].
  constructor; [exact (near_nonneg _ _ _ Hx Hxy)|now apply IH].
Qed.

Lemma unit_nonneg (v : list R) :
  0 < Numpy.linalg_norm v -> Forall (fun x => 0 <= x) v ->
  Forall (fun x => 0 <= x) (map (fun x => x / Numpy.linalg_norm v) v).
Proof.
  intros Hn Hv. apply Forall_map. eapply Forall_impl; [exact Hv|].
  cbn. intros x Hx. apply Rmult_le_pos; [exact Hx|left; now apply Rinv_0_lt_compat].
Qed.

(** The computed similarity of two vectors without negative components
    is their cosine up to [3 n + 7] roundings. *)
Lemma similarity_near (v1 v2 : list R) (d : res R) :
  Rounded.similarity v1 v2 d ->
  length v1 = length v2 ->
  Forall (fun x => 0 <= x) v1 -> Forall (fun x => 0 <= x) v2 ->
  0 < Numpy.linalg_norm v1 -> 0 < Numpy.linalg_norm v2 ->
  exists s, d = Ok s /\ near (3 * length v1 + 7) (cosine v1 v2) s.
Proof.
  intros Hsim Hlen Hv1 Hv2 Hn1 Hn2.
  destruct Hsim as [f1 f2 n1 n2 q1 q2 d Hnorm1 _ Hnorm2 _ Hdiv1 Hdiv2 Hdot].
  pose proof (norm_near _ _ Hnorm1 Hv1) as N1.
  pose proof (norm_near _ _ Hnorm2 Hv2) as N2.
  pose proof (divide_near _ _ _ _ Hdiv1 Hn1 N1 Hv1) as Q1.
  pose proof (divide_near _ _ _ _ Hdiv2 Hn2 N2 Hv2) as Q2.
  pose proof (unit_nonneg _ Hn1 Hv1) as U1. pose proof (unit_nonneg _ Hn2 Hv2) as U2.
  pose proof (Forall2_near_nonneg _ _ _ Q1 U1) as P1.
  pose proof (Forall2_near_nonneg _ _ _ Q2 U2) as P2.
  assert (Hl1 : length q1 = length f1).
  { rewrite <- (Forall2_length _ _ _ Q1). apply length_map. }
  assert (Hl2 : length q2 = length f2).
  { rewrite <- (Forall2_length _ _ _ Q2). apply length_map. }
  inversion Hdot as [E1 E2|a b products s Hl Hne Hprod Hsum|a b Hl]; subst.
  - exists 0. split; [reflexivity|].
    destruct f1; [|discriminate Hl1]. destruct f2; [|discriminate Hl2].
    cbn. unfold near, Rdiv. split; lra.
  - exists s. split; [reflexivity|].
    pose proof (dot_near _ _ _ Hdot P1 P2) as D.
    pose proof (dot_product_near _ _ _ _ _ _ Q1 Q2 U1 U2) as C. fold (cosine f1 f2) in C.
    rewrite Hl1 in D.
    replace (3 * length f1 + 7)%nat
      with ((length f1 + 2 + 1 + (length f2 + 2 + 1)) + (length f1 + 1))%nat by lia.
    apply (near_trans _ _ _ (Spec.dot_product q1 q2)); [|exact C|exact D].
    unfold cosine. rewrite <- sum_zip_dot_product. apply sum_nonneg.
    now apply zip_nonneg.
  - exfalso. apply Hl. rewrite Hl1, Hl2. exact Hlen.
Qed.

End MatcherUnderRounding.

Section MatcherTolerance.
Import Numpy IrisRecognition Rounded.
Local Open Scope R_scope.

(** Bernoulli's inequality for the shrinking factor. *)
Lemma shrink_pow_bernoulli (k : nat) : 1 - INR k * unit_roundoff <= shrink ^ k.
Proof.
  pose proof unit_roundoff_bounds as Hu.
  induction k as [|k IH].
  - cbn. lra.
  - rewrite S_INR. cbn [pow]. pose proof (pos_INR k) as Hk.
    pose proof (shrink_pow_le_1 k) as H1. pose proof (shrink_pow_pos k) as H0.
    unfold shrink in *. nra.
Qed.

Lemma unit_roundoff_value : unit_roundoff = / 9007199254740992.
Proof. unfold unit_roundoff. f_equal. cbn [pow]. lra. Qed.

(** Up to 720,007 roundings stay within the tolerance. *)
Lemma shrink_pow_tolerance (k : nat) :
  (Z.of_nat k <= 720007)%Z ->
  1 - tolerance <= shrink ^ k /\ / shrink ^ k <= 1 + tolerance.
Proof.
  intros Hk. pose proof (shrink_pow_bernoulli k) as Hb.
  pose proof (shrink_pow_pos k) as Hp.
  assert (HK : INR k <= 720007).
  { rewrite INR_IZR_INZ. apply IZR_le. exact Hk. }
  pose proof (pos_INR k) as H0.
  assert (Ht : tolerance = / 1000000000).
  { unfold tolerance. f_equal. cbn [pow]. lra. }
  rewrite unit_roundoff_value in Hb. rewrite Ht.
  assert (Hlow : 1 - / 2000000000 <= shrink ^ k).
  { apply Rle_trans with (1 - INR k * / 9007199254740992); [|exact Hb]. lra. }
  split; [lra|].
  apply Rle_trans with (/ (1 - / 2000000000)).
  - apply Rinv_le_contravar; lra.
  - apply Rmult_le_reg_l with (1 - / 2000000000); [lra|].
    rewrite Rinv_r by lra. lra.
Qed.

Lemma near_tolerance (k : nat) (c s : R) :
  (Z.of_nat k <= 720007)%Z -> 0 <= c <= 1 -> near k c s -> Rabs (s - c) <= tolerance.
Proof.
  intros Hk [Hc0 Hc1] [Hl Hu]. destruct (shrink_pow_tolerance k Hk) as [H1 H2].
  assert (Ht : 0 < tolerance).
  { unfold tolerance. apply Rinv_0_lt_compat. apply pow_lt. lra. }
  unfold Rdiv in Hu. apply Rabs_le. split; nra.
Qed.

Lemma component_nonneg (b : Byte.byte) : 0 <= component b.
Proof. unfold component. apply IZR_le. lia. Qed.

Lemma component_zero (b : Byte.byte) : component b = 0 -> b = Byte.x00.
Proof.
  unfold component. intros H. apply eq_IZR in H.
  assert (Hn : Byte.to_N b = 0%N) by lia.
  pose proof (Byte.of_to_N b) as Hb. rewrite Hn in Hb. cbn in Hb. congruence.
Qed.

Lemma components_nonneg (bs : list Byte.byte) :
  Forall (fun x => 0 <= x) (map component bs).
Proof. apply Forall_map. apply Forall_true. exact component_nonneg. Qed.

(** A byte vector with a byte that is not 0 has a positive norm. *)
Lemma components_norm_pos (bs : list Byte.byte) :
  Exists (fun b => b <> Byte.x00) bs -> 0 < Numpy.linalg_norm (map component bs).
Proof.
  intros Hex. apply Exists_exists in Hex. destruct Hex as (b & Hin & Hb).
  assert (Hne : Numpy.linalg_norm (map component bs) <> 0).
  { apply nonzero_component_norm. exists (component b). split.
    - apply in_map. apply list_elem_of_In. exact Hin.
    - intros H. apply Hb. now apply component_zero. }
  pose proof (linalg_norm_nonneg (map component bs)). lra.
Qed.

Lemma unit_sum_squares (v : list R) :
  Numpy.linalg_norm v <> 0 ->
  sum_squares (map (fun x => x / Numpy.linalg_norm v) v) = 1.
Proof.
  intros Hn. destruct (normalize_unit v Hn) as [Hu _].
  unfold Numpy.linalg_norm in Hu at 1.
  apply (sqrt_inj _ 1); [apply sum_squares_nonneg|lra|]. rewrite sqrt_1. exact Hu.
Qed.

(** The cosine of two vectors without negative components lies between
    0 and 1. *)
Lemma cosine_bounds (v1 v2 : list R) :
  length v1 = length v2 ->
  Forall (fun x => 0 <= x) v1 -> Forall (fun x => 0 <= x) v2 ->
  0 < Numpy.linalg_norm v1 -> 0 < Numpy.linalg_norm v2 ->
  0 <= cosine v1 v2 <= 1.
Proof.
  intros Hlen Hv1 Hv2 Hn1 Hn2. unfold cosine. split.
  - rewrite <- sum_zip_dot_product. apply sum_nonneg.
    apply zip_nonneg; now apply unit_nonneg.
  - pose proof (sum_squares_diff (map (fun x => x / Numpy.linalg_norm v1) v1)
                  (map (fun x => x / Numpy.linalg_norm v2) v2)) as Hd.
    rewrite !unit_sum_squares in Hd by lra.
    specialize (Hd ltac:(rewrite !length_map; exact Hlen)). lra.
Qed.

(** The words of the specification, for vectors of non-zero norm: the
    threshold is at most the cosine. *)
Lemma cosine_match_cosine (v1 v2 : list R) (t : R) :
  Numpy.linalg_norm v1 <> 0 -> Numpy.linalg_norm v2 <> 0 ->
  Spec.cosine_match v1 v2 t <-> t <= cosine v1 v2.
Proof.
  intros Hn1 Hn2. unfold cosine. split.
  - intros (u1 & u2 & H1 & H2 & Ht).
    destruct (unit_normalized_unique _ _ H1) as [_ ->].
    destruct (unit_normalized_unique _ _ H2) as [_ ->]. exact Ht.
  - intros Ht. eexists _, _. split; [now apply normalize_unit|].
    split; [now apply normalize_unit|exact Ht].
Qed.

Lemma normal_range_moderate (x : R) :
  x = 0 \/ / 2 ^ 60 <= x <= 2 ^ 60 -> normal_range x.
Proof.
  intros [->|[Hl Hh]]; [left; reflexivity|right].
  assert (H0 : 0 < / 2 ^ 60) by (apply Rinv_0_lt_compat, pow_lt; lra).
  rewrite Rabs_right by lra. unfold smallest_normal, largest_power. split.
  - apply Rle_trans with (/ 2 ^ 60); [|exact Hl].
    apply Rinv_le_contravar; [apply pow_lt; lra|apply Rle_pow; [lra|lia]].
  - apply Rle_trans with (2 ^ 60); [exact Hh|apply Rle_pow; [lra|lia]].
Qed.

Lemma rounds_exact (x : R) : normal_range x -> rounds x x.
Proof.
  intros Hx. split; [exact Hx|]. replace (x - x) with 0 by lra. rewrite Rabs_R0.
  pose proof unit_roundoff_bounds. pose proof (Rabs_pos x). nra.
Qed.

Lemma sum_zero_or_above (lo : R) (l : list R) :
  0 < lo -> Forall (fun x => x = 0 \/ lo <= x) l -> sum l = 0 \/ lo <= sum l.
Proof.
  intros Hlo. induction 1 as [|x l Hx Hl IH]; cbn; [left; reflexivity|].
  destruct Hx as [->|Hx], IH as [->|IH]; [left|right|right|right]; lra.
Qed.

(** The numbers of a list added from the right without any rounding
    error, when no partial sum leaves the normal range. *)
Lemma sums_exact (l : list R) :
  l <> [] -> Forall (fun x => x = 0 \/ / 2 ^ 60 <= x) l -> sum l <= 2 ^ 60 ->
  sums l (sum l).
Proof.
  assert (H0 : 0 < / 2 ^ 60) by (apply Rinv_0_lt_compat, pow_lt; lra).
  induction l as [|x l IH]; [contradiction|]. intros _ Hl Hsum.
  destruct l as [|y l].
  - cbn. rewrite Rplus_0_r. constructor.
  - pose proof (sum_zero_or_above _ _ H0 Hl) as Hall.
    apply Forall_cons in Hl. destruct Hl as [Hx Hl].
    pose proof (sum_zero_or_above _ _ H0 Hl) as Hrest.
    change (x :: y :: l) with ([x] ++ y :: l).
    apply (sums_add [x] (y :: l) x (sum (y :: l))); [constructor| |].
    + apply IH; [discriminate|exact Hl|]. cbn [sum] in Hsum |- *. destruct Hx; lra.
    + apply rounds_exact. apply normal_range_moderate.
      change (x + sum (y :: l)) with (sum (x :: y :: l)).
      destruct Hall as [E|Hall]; [left; exact E|right; split; [exact Hall|exact Hsum]].
Qed.

Lemma elem_le_sum (l : list R) (p : R) :
  Forall (fun x => 0 <= x) l -> p ∈ l -> p <= sum l.
Proof.
  induction 1 as [|z l Hz Hl IH]; intros Hp.
  - apply list_elem_of_In in Hp. destruct Hp.
  - pose proof (sum_nonneg l Hl). cbn.
    apply elem_of_cons in Hp. destruct Hp as [->|Hp]; [lra|].
    specialize (IH Hp). lra.
Qed.

Lemma dot_exact (a b : list R) :
  length a = length b ->
  Forall (fun x => x = 0 \/ / 2 ^ 60 <= x) (zip_with Rmult a b) ->
  Spec.dot_product a b <= 2 ^ 60 ->
  Rounded.dot a b (Ok (Spec.dot_product a b)).
Proof.
  assert (H0 : 0 < / 2 ^ 60) by (apply Rinv_0_lt_compat, pow_lt; lra).
  intros Hlen Hz Hsum. rewrite <- sum_zip_dot_product in *. destruct a as [|x a].
  - destruct b; [constructor|discriminate Hlen].
  - assert (Hpos : Forall (fun x => 0 <= x) (zip_with Rmult (x :: a) b)).
    { eapply Forall_impl; [exact Hz|]. cbn. intros z [->|Hz']; lra. }
    apply (dot_sums _ _ (zip_with Rmult (x :: a) b)); [exact Hlen|discriminate| |].
    + apply Forall_Forall2_diag. apply Forall_forall. intros p Hp.
      apply rounds_exact, normal_range_moderate.
      rewrite Forall_forall in Hz.
      destruct (Hz p Hp) as [->|Hlo]; [left; reflexivity|right]. split; [exact Hlo|].
      apply Rle_trans with (sum (zip_with Rmult (x :: a) b)); [|exact Hsum].
      now apply elem_le_sum.
    + apply sums_exact; [destruct b; [discriminate Hlen|discriminate]|exact Hz|exact Hsum].
Qed.

Lemma component_range (b : Byte.byte) : component b = 0 \/ 1 <= component b <= 255.
Proof.
  unfold component. pose proof (Byte.to_N_bounded b) as Hb.
  destruct (Z.eq_dec (Z.of_N (Byte.to_N b)) 0%Z) as [->|Hz]; [left; reflexivity|right].
  split; apply IZR_le; lia.
Qed.

Lemma sum_squares_components (bs : list Byte.byte) :
  sum_squares (map component bs) <= 65025 * INR (length bs).
Proof.
  induction bs as [|b bs IH]; [cbn; lra|].
  cbn [map sum_squares]. cbn [length]. rewrite S_INR.
  destruct (component_range b) as [->|[Hl Hh]]; pose proof (pos_INR (length bs)); nra.
Qed.

(** The norm of a byte vector of at most 240,000 components, one of
    them not 0, lies between 1 and 2^17. *)
Lemma components_norm_range (bs : list Byte.byte) :
  (Z.of_nat (length bs) <= 240000)%Z -> Exists (fun b => b <> Byte.x00) bs ->
  1 <= sum_squares (map component bs) <= 17179869184 /\
  1 <= Numpy.linalg_norm (map component bs) <= 131072.
Proof.
  intros Hmax Hex.
  assert (Hs : 1 <= sum_squares (map component bs) <= 17179869184).
  { split.
    - clear Hmax. induction Hex as [b bs Hb|b bs Hex IH]; cbn [map sum_squares].
      + pose proof (sum_squares_nonneg (map component bs)).
        destruct (component_range b) as [H0|[Hl Hh]]; [|nra].
        apply component_zero in H0. contradiction.
      + pose proof (component_nonneg b). nra.
    - apply Rle_trans with (65025 * INR (length bs)); [apply sum_squares_components|].
      assert (HK : INR (length bs) <= 240000).
      { rewrite INR_IZR_INZ. apply IZR_le. exact Hmax. }
      lra. }
  split; [exact Hs|]. unfold Numpy.linalg_norm. apply sqrt_between; lra.
Qed.

(** The computation without any rounding error, the products added
    from the right, is one of the computations on the extractor's
    vectors: the relation is not empty there. *)
Lemma similarity_exact (b1 b2 : list Byte.byte) :
  length b1 = length b2 ->
  (Z.of_nat (length b1) <= 240000)%Z ->
  Exists (fun b => b <> Byte.x00) b1 -> Exists (fun b => b <> Byte.x00) b2 ->
  Rounded.similarity (map component b1) (map component b2)
    (Ok (cosine (map component b1) (map component b2))).
Proof.
  intros Hlen Hmax1 Hex1 Hex2.
  assert (Hmax2 : (Z.of_nat (length b2) <= 240000)%Z) by (rewrite <- Hlen; exact Hmax1).
  assert (H60 : / 2 ^ 60 = / 1152921504606846976) by (f_equal; cbn [pow]; lra).
  assert (P60 : 2 ^ 60 = 1152921504606846976) by (cbn [pow]; lra).
  assert (Hnorm : forall bs, (Z.of_nat (length bs) <= 240000)%Z ->
                    Exists (fun b => b <> Byte.x00) bs ->
                    Rounded.linalg_norm (map component bs)
                      (Numpy.linalg_norm (map component bs))).
  { intros bs Hmax Hex. destruct (components_norm_range bs Hmax Hex) as [Hs Hn].
    exists (sum_squares (map component bs)). split.
    - rewrite <- dot_product_self. apply dot_exact; [reflexivity| |].
      + clear. induction bs as [|b bs IH]; [constructor|].
        cbn [map fmap list_fmap zip_with]. constructor; [|exact IH].
        assert (H60 : / 2 ^ 60 = / 1152921504606846976) by (f_equal; cbn [pow]; lra).
        destruct (component_range b) as [->|[Hl Hh]]; [left; lra|right].
        rewrite H60. nra.
      + rewrite dot_product_self, P60. lra.
    - apply rounds_exact, normal_range_moderate. right.
      fold (Numpy.linalg_norm (map component bs)). rewrite H60, P60. lra. }
  assert (Hunit : forall bs, (Z.of_nat (length bs) <= 240000)%Z ->
                    Exists (fun b => b <> Byte.x00) bs ->
                    Forall (fun x => x = 0 \/ / 131072 <= x <= 255)
                      (map (fun x => x / Numpy.linalg_norm (map component bs))
                           (map component bs))).
  { intros bs Hmax Hex. destruct (components_norm_range bs Hmax Hex) as [_ [Hn1 Hn2]].
    set (m := Numpy.linalg_norm (map component bs)) in *.
    rewrite <- list_fmap_compose. apply Forall_map. apply Forall_true. intros b. cbn.
    assert (Hi : / 131072 <= / m <= 1).
    { split; [apply Rinv_le_contravar; lra|].
      rewrite <- Rinv_1. apply Rinv_le_contravar; lra. }
    unfold Rdiv. destruct (component_range b) as [->|[Hl Hh]]; [left; lra|right]. nra. }
  assert (Hdiv : forall bs, (Z.of_nat (length bs) <= 240000)%Z ->
                   Exists (fun b => b <> Byte.x00) bs ->
                   Rounded.true_divide (map component bs)
                     (Numpy.linalg_norm (map component bs))
                     (map (fun x => x / Numpy.linalg_norm (map component bs))
                          (map component bs))).
  { intros bs Hmax Hex. pose proof (Hunit bs Hmax Hex) as Hu.
    unfold Rounded.true_divide. apply Forall2_fmap_r. apply Forall_Forall2_diag.
    rewrite Forall_map in Hu. eapply Forall_impl; [exact Hu|]. cbn. intros x Hx.
    apply rounds_exact, normal_range_moderate. rewrite H60, P60.
    destruct Hx as [->|Hx]; [left; reflexivity|right; lra]. }
  destruct (components_norm_range b1 Hmax1 Hex1) as [_ [Hn1 _]].
  destruct (components_norm_range b2 Hmax2 Hex2) as [_ [Hn2 _]].
  apply (similarity_dot _ _ (Numpy.linalg_norm (map component b1))
           (Numpy.linalg_norm (map component b2))
           (map (fun x => x / Numpy.linalg_norm (map component b1)) (map component b1))
           (map (fun x => x / Numpy.linalg_norm (map component b2)) (map component b2)));
    auto; try lra.
  apply dot_exact.
  - rewrite !length_map. exact Hlen.
  - pose proof (Hunit b1 Hmax1 Hex1) as U1. pose proof (Hunit b2 Hmax2 Hex2) as U2.
    revert U1 U2.
    generalize (map (fun x => x / Numpy.linalg_norm (map component b1)) (map component b1)).
    generalize (map (fun x => x / Numpy.linalg_norm (map component b2)) (map component b2)).
    intros l2 l1 U1. revert l2. induction U1 as [|x l1 Hx U1 IH]; intros l2 U2; [constructor|].
    destruct U2 as [|y l2 Hy U2]; [constructor|].
    cbn [zip_with]. constructor; [|now apply IH].
    rewrite H60. destruct Hx as [->|Hx]; [left; lra|].
    destruct Hy as [->|Hy]; [left; lra|right]. nra.
  - fold (cosine (map component b1) (map component b2)).
    assert (Hc : cosine (map component b1) (map component b2) <= 1).
    { apply cosine_bounds; auto using components_nonneg; try lra.
      rewrite !length_map. exact Hlen. }
    rewrite P60. lra.
Qed.

(** The similarity that the matcher computes for two vectors of the
    extractor differs from their cosine by at most the tolerance. *)
Lemma similarity_tolerance (b1 b2 : list Byte.byte) (d : res R) :
  length b1 = length b2 ->
  (Z.of_nat (length b1) <= 240000)%Z ->
  Exists (fun b => b <> Byte.x00) b1 -> Exists (fun b => b <> Byte.x00) b2 ->
  Rounded.similarity (map component b1) (map component b2) d ->
  exists s, d = Ok s /\
    Rabs (s - cosine (map component b1) (map component b2)) <= tolerance.
Proof.
  intros Hlen Hmax Hex1 Hex2 Hsim.
  pose proof (components_norm_pos _ Hex1) as Hn1.
  pose proof (components_norm_pos _ Hex2) as Hn2.
  assert (Hl : length (map component b1) = length (map component b2)).
  { rewrite !length_map. exact Hlen. }
  destruct (similarity_near _ _ _ Hsim Hl (components_nonneg b1) (components_nonneg b2)
              Hn1 Hn2) as (s & -> & N).
  exists s. split; [reflexivity|].
  apply (near_tolerance (3 * length (map component b1) + 7)); [| |exact N].
  - rewrite length_map. lia.
  - apply cosine_bounds; auto using components_nonneg.
Qed.

(** C5 (amended): for two present feature vectors as the extractor
    produces them (uint8 components, one length of at most 240,000, a
    component other than 0 in each) and every threshold [t], the
    similarity that the Matcher computes in float64 differs from the dot
    product of the two unit-normalized vectors by at most 1e-9: it
    declares a match whenever that dot product is at least [t + 1e-9],
    and no match whenever it is below [t - 1e-9]; in between the
    rounding decides.  If either vector is absent it returns no match.
    The computation is taken with every operation rounded, in any order
    of summation. *)
Theorem compare_iris_features_rounded_cosine (b1 b2 : list Byte.byte) (t : R) :
  length b1 = length b2 ->
  (Z.of_nat (length b1) <= 240000)%Z ->
  Exists (fun b => b <> Byte.x00) b1 -> Exists (fun b => b <> Byte.x00) b2 ->
  let v1 := map component b1 in
  let v2 := map component b2 in
  (exists out, Rounded.compare_iris_features (Some v1) (Some v2) t out) /\
  (forall d, Rounded.similarity v1 v2 d ->
     exists s, d = Ok s /\ Rabs (s - cosine v1 v2) <= tolerance) /\
  (forall out, Rounded.compare_iris_features (Some v1) (Some v2) t out ->
     (Spec.cosine_match v1 v2 (t + tolerance) -> out = Ok true) /\
     (~ Spec.cosine_match v1 v2 (t - tolerance) -> out = Ok false)) /\
  (forall features out,
     Rounded.compare_iris_features None features t out \/
     Rounded.compare_iris_features features None t out -> out = Ok false).
Proof.
  intros Hlen Hmax Hex1 Hex2 v1 v2.
  pose proof (components_norm_pos _ Hex1) as Hn1.
  pose proof (components_norm_pos _ Hex2) as Hn2.
  fold v1 in Hn1. fold v2 in Hn2.
  split; [|split; [|split]].
  - eexists. apply compare_present. now apply similarity_exact.
  - intros d Hd. exact (similarity_tolerance b1 b2 d Hlen Hmax Hex1 Hex2 Hd).
  - intros out Hout. inversion Hout as [| |f1 f2 t' d Hsim]; subst.
    destruct (similarity_tolerance b1 b2 d Hlen Hmax Hex1 Hex2 Hsim) as (s & -> & Hs).
    fold v1 v2 in Hs. apply Rabs_le_both in Hs. cbn [res_bind].
    rewrite !cosine_match_cosine by lra. split; intros Hc.
    + destruct (Rge_dec s t); [reflexivity|lra].
    + destruct (Rge_dec s t); [lra|reflexivity].
  - intros features out [Hout|Hout]; inversion Hout; reflexivity.
Qed.

(** C8 (amended): for every feature vector as the extractor produces
    them (uint8 components, at most 240,000 of them) with a component
    other than 0, the similarity of the vector with itself, as the
    Matcher computes it in float64, is 1.0 up to 1e-9, and the pair
    (v, v) is accepted at every threshold up to [1 - 1e-9].  The
    computation is taken with every operation rounded, in any order of
    summation. *)
Theorem compare_iris_features_rounded_self (b : list Byte.byte) (t : R) :
  (Z.of_nat (length b) <= 240000)%Z ->
  Exists (fun x => x <> Byte.x00) b ->
  t <= 1 - tolerance ->
  let v := map component b in
  (exists out, Rounded.compare_iris_features (Some v) (Some v) t out) /\
  (forall d, Rounded.similarity v v d ->
     exists s, d = Ok s /\ Rabs (s - 1) <= tolerance) /\
  (forall out, Rounded.compare_iris_features (Some v) (Some v) t out -> out = Ok true).
Proof.
  intros Hmax Hex Ht v.
  pose proof (components_norm_pos _ Hex) as Hn. fold v in Hn.
  assert (Hc : cosine v v = 1).
  { unfold cosine. rewrite dot_product_self. apply unit_sum_squares. lra. }
  assert (Hsim : forall d, Rounded.similarity v v d ->
                   exists s, d = Ok s /\ Rabs (s - 1) <= tolerance).
  { intros d Hd.
    destruct (similarity_tolerance b b d eq_refl Hmax Hex Hex Hd) as (s & -> & Hs).
    fold v in Hs. rewrite Hc in Hs. exists s. auto. }
  split; [|split; [exact Hsim|]].
  - eexists. apply compare_present. now apply similarity_exact.
  - intros out Hout. inversion Hout as [| |f1 f2 t' d Hd]; subst.
    destruct (Hsim d Hd) as (s & -> & Hs). apply Rabs_le_both in Hs. cbn [res_bind].
    destruct (Rge_dec s t); [reflexivity|lra].
Qed.

(** X19.  The similarity is at most 1 up to rounding, so a threshold
    above 1 + 1e-9 matches nothing: for two feature vectors as the
    extractor produces them (uint8 components, one length of at most
    240,000, a component other than 0 in each) the answer is [False],
    also for a vector compared with itself.  Just above 1 this is not
    so: in float64 the similarity of (1, 1, 1) with itself is
    1 + 2^-52. *)
Theorem compare_iris_features_above_one (b1 b2 : list Byte.byte) (t : R) :
  length b1 = length b2 ->
  (Z.of_nat (length b1) <= 240000)%Z ->
  Exists (fun b => b <> Byte.x00) b1 -> Exists (fun b => b <> Byte.x00) b2 ->
  1 + tolerance < t ->
  let v1 := map component b1 in
  let v2 := map component b2 in
  (exists out, Rounded.compare_iris_features (Some v1) (Some v2) t out) /\
  (forall out, Rounded.compare_iris_features (Some v1) (Some v2) t out -> out = Ok false).
Proof.
  intros Hlen Hmax Hex1 Hex2 Ht v1 v2.
  pose proof (components_norm_pos _ Hex1) as Hn1.
  pose proof (components_norm_pos _ Hex2) as Hn2.
  fold v1 in Hn1. fold v2 in Hn2.
  assert (Hl : length v1 = length v2) by (subst v1 v2; rewrite !length_map; exact Hlen).
  split.
  - eexists. apply compare_present. now apply similarity_exact.
  - intros out Hout. inversion Hout as [| |f1 f2 t' d Hsim]; subst.
    destruct (similarity_tolerance b1 b2 d Hlen Hmax Hex1 Hex2 Hsim) as (s & -> & Hs).
    fold v1 v2 in Hs. apply Rabs_le_both in Hs. cbn [res_bind].
    pose proof (cosine_bounds v1 v2 Hl (components_nonneg b1) (components_nonneg b2) Hn1 Hn2).
    destruct (Rge_dec s t); [lra|reflexivity].
Qed.

End MatcherTolerance.

(** C5, as stated, fails in both directions.  Two arrays without
    components are declared a match at threshold 0 (the similarity is
    0.0, in exact arithmetic and in float64), and they have no unit
    normalization.  The vector (1, 2)
    against itself is declared no match at threshold 1.0: in float64 the
    similarity comes out as 1 - 2^-53, while the dot product of the
    unit-normalized vectors is 1.  And the one-component vector
    (2^-600) against itself is declared a match at threshold 2.0: its
    square underflows to 0, the norm is 0.0, the quotient and the
    similarity are infinite. *)
Lemma compare_iris_features_not_cosine :
  (IrisRecognition.compare_iris_features (Some []) (Some []) 0 = Ok true /\
   Binary64.compare_iris_features (Some []) (Some []) Binary64.zero = Ok true /\
   ~ Spec.cosine_match [] [] 0) /\
  (Binary64.compare_iris_features
     (Some [Binary64.of_Z 1; Binary64.of_Z 2]) (Some [Binary64.of_Z 1; Binary64.of_Z 2])
     (Binary64.of_Z 1) = Ok false /\
   Spec.cosine_match [1; 2]%R [1; 2]%R 1) /\
  (Binary64.compare_iris_features
     (Some [Binary64.ldexp (Binary64.of_Z 1) (-600)])
     (Some [Binary64.ldexp (Binary64.of_Z 1) (-600)])
     (Binary64.of_Z 2) = Ok true /\
   ~ Spec.cosine_match [/ 2 ^ 600]%R [/ 2 ^ 600]%R 2).
Proof.
  split; [|split].
  - split; [|split].
    + rewrite compare_iris_features_empty. destruct (Rge_dec 0 0); [reflexivity|lra].
    + vm_compute; reflexivity.
    + intros (u1 & u2 & H1 & _). destruct (unit_normalized_unique _ _ H1) as [Hn _].
      apply Hn. unfold Numpy.linalg_norm. cbn. apply sqrt_0.
  - split; [vm_compute; reflexivity|].
    assert (Hn : Numpy.linalg_norm [1; 2]%R <> 0%R).
    { apply nonzero_component_norm. exists 1%R. split; [left; reflexivity|lra]. }
    apply cosine_match_cosine; [exact Hn|exact Hn|].
    unfold Rounded.cosine. rewrite dot_product_self, unit_sum_squares by exact Hn. lra.
  - split; [vm_compute; reflexivity|].
    assert (Hx : (/ 2 ^ 600 <> 0)%R).
    { apply Rinv_neq_0_compat. apply pow_nonzero. lra. }
    assert (Hn : Numpy.linalg_norm [/ 2 ^ 600]%R <> 0%R).
    { apply nonzero_component_norm. exists (/ 2 ^ 600)%R. split; [left; reflexivity|exact Hx]. }
    rewrite cosine_match_cosine by exact Hn.
    unfold Rounded.cosine. rewrite dot_product_self, unit_sum_squares by exact Hn. lra.
Qed.

(** C8, as stated, also fails for vectors other than the all-zero one.
    In float64 the similarity of (1, 2) with itself is 1 - 2^-53, and
    the pair is rejected at threshold 1.0; the squares of (2^600, 2^600)
    overflow, the norm is infinite, the similarity 0.0, and the pair is
    rejected at the default threshold. *)
Lemma binary64_self_match_fails :
  res_bind
    (Binary64.dot
       (Binary64.true_divide [Binary64.of_Z 1; Binary64.of_Z 2]
          (Binary64.linalg_norm [Binary64.of_Z 1; Binary64.of_Z 2]))
       (Binary64.true_divide [Binary64.of_Z 1; Binary64.of_Z 2]
          (Binary64.linalg_norm [Binary64.of_Z 1; Binary64.of_Z 2])))
    (fun similarity => Ok (Binary64.to_Q similarity))
    = Ok (Some (9007199254740991 # 9007199254740992)%Q) /\
  Binary64.compare_iris_features
    (Some [Binary64.of_Z 1; Binary64.of_Z 2]) (Some [Binary64.of_Z 1; Binary64.of_Z 2])
    (Binary64.of_Z 1) = Ok false /\
  Binary64.compare_iris_features
    (Some [Binary64.of_Z (2 ^ 600); Binary64.of_Z (2 ^ 600)])
    (Some [Binary64.of_Z (2 ^ 600); Binary64.of_Z (2 ^ 600)])
    (Binary64.fdiv (Binary64.of_Z 8) (Binary64.of_Z 10)) = Ok false.
Proof. repeat split; vm_compute; reflexivity. Qed.

(** Just above 1 a match is possible: in float64 the similarity of
    (1, 1, 1) with itself is 1 + 2^-52, and the pair is accepted at that
    threshold. *)
Lemma binary64_similarity_above_one :
  Binary64.compare_iris_features
    (Some [Binary64.of_Z 1; Binary64.of_Z 1; Binary64.of_Z 1])
    (Some [Binary64.of_Z 1; Binary64.of_Z 1; Binary64.of_Z 1])
    (Binary64.fadd (Binary64.of_Z 1) (Binary64.ldexp (Binary64.of_Z 1) (-52))) = Ok true /\
  Binary64.to_Q (Binary64.fadd (Binary64.of_Z 1) (Binary64.ldexp (Binary64.of_Z 1) (-52))) =
    Some (4503599627370497 # 4503599627370496)%Q.
Proof. split; vm_compute; reflexivity. Qed.

Section Binary64Admitted.
Import Rounded.
Local Open Scope R_scope.

Lemma rounds_between (x y : R) :
  / 2 ^ 60 <= x <= 2 ^ 60 ->
  x * (1 - unit_roundoff) <= y <= x * (1 + unit_roundoff) -> rounds x y.
Proof.
  intros Hx [Hl Hu].
  assert (H0 : 0 < / 2 ^ 60) by (apply Rinv_0_lt_compat, pow_lt; lra).
  split; [apply normal_range_moderate; right; exact Hx|].
  rewrite (Rabs_right x) by lra. apply Rabs_le. split; lra.
Qed.

(** The float64 computation on (1, 2) is one of the computations that
    [Rounded] describes: the norm, the two quotients and the similarity
    that [Binary64] computes, bit by bit, satisfy its relations. *)
Lemma binary64_computation_is_rounded :
  let x := [Binary64.of_Z 1; Binary64.of_Z 2] in
  let n := Binary64.linalg_norm x in
  let q := Binary64.true_divide x n in
  let N := Q2R (5035177455121576 # 2251799813685248) in
  let Q1 := Q2R (8056283928194521 # 18014398509481984) in
  let Q2 := Q2R (8056283928194521 # 9007199254740992) in
  let S := Q2R (9007199254740991 # 9007199254740992) in
  (Binary64.to_Q n = Some (5035177455121576 # 2251799813685248)%Q /\
   map Binary64.to_Q q = [Some (8056283928194521 # 18014398509481984)%Q;
                          Some (8056283928194521 # 9007199254740992)%Q] /\
   res_bind (Binary64.dot q q) (fun s => Ok (Binary64.to_Q s)) =
     Ok (Some (9007199254740991 # 9007199254740992)%Q)) /\
  Rounded.linalg_norm [1; 2] N /\
  Rounded.true_divide [1; 2] N [Q1; Q2] /\
  Rounded.dot [Q1; Q2] [Q1; Q2] (Ok S) /\
  Rounded.similarity [1; 2] [1; 2] (Ok S).
Proof.
  intros x n q N Q1 Q2 S.
  split; [repeat split; vm_compute; reflexivity|].
  pose proof unit_roundoff_value as Hu.
  assert (Hexact : forall z : R, 1 <= z <= 5 -> rounds z z).
  { intros z Hz. apply rounds_exact, normal_range_moderate. right. cbn [pow]. lra. }
  assert (HN : Rounded.linalg_norm [1; 2] N).
  { exists 5. split.
    - apply (dot_sums _ _ [1; 4]); [reflexivity|discriminate| |].
      + cbn [zip_with]. replace (1 * 1) with 1 by lra. replace (2 * 2) with 4 by lra.
        constructor; [apply Hexact; lra|].
        constructor; [apply Hexact; lra|constructor].
      + apply (sums_add [1] [4] 1 4); [constructor|constructor|].
        replace (1 + 4) with 5 by lra. apply Hexact. lra.
    - assert (Hs : N / (1 + unit_roundoff) <= sqrt 5 <= N / (1 - unit_roundoff)).
      { apply sqrt_between; rewrite Hu; unfold N, Q2R; cbn; lra. }
      rewrite Hu in Hs. destruct Hs as [Hl Hh].
      assert (H1 : N <= sqrt 5 * (1 + / 9007199254740992)).
      { apply Rmult_le_reg_r with (/ (1 + / 9007199254740992)).
        - apply Rinv_0_lt_compat. lra.
        - rewrite Rmult_assoc, Rinv_r by lra. unfold Rdiv in Hl. lra. }
      assert (H2 : sqrt 5 * (1 - / 9007199254740992) <= N).
      { apply Rmult_le_reg_r with (/ (1 - / 9007199254740992)).
        - apply Rinv_0_lt_compat. lra.
        - rewrite Rmult_assoc, Rinv_r by lra. unfold Rdiv in Hh. lra. }
      assert (HNv : 2 <= N <= 3) by (unfold N, Q2R; cbn; lra).
      apply rounds_between; [cbn [pow]|rewrite Hu]; lra. }
  assert (HQ : Rounded.true_divide [1; 2] N [Q1; Q2]).
  { unfold Rounded.true_divide.
    constructor; [|constructor; [|constructor]];
      (apply rounds_between; rewrite ?Hu; unfold N, Q1, Q2, Q2R; cbn; lra). }
  assert (HD : Rounded.dot [Q1; Q2] [Q1; Q2] (Ok S)).
  { apply (dot_sums _ _ [Q2R (7205759403792793 # 36028797018963968);
                         Q2R (7205759403792793 # 9007199254740992)]);
      [reflexivity|discriminate| |].
    - cbn [zip_with].
      constructor; [|constructor; [|constructor]];
        (apply rounds_between; rewrite ?Hu; unfold Q1, Q2, Q2R; cbn; lra).
    - apply (sums_add [_] [_] _ _ S (sums_one _) (sums_one _)).
      apply rounds_between; rewrite ?Hu; unfold S, Q2R; cbn; lra. }
  split; [exact HN|]. split; [exact HQ|]. split; [exact HD|].
  assert (HN0 : N <> 0) by (unfold N, Q2R; cbn; lra).
  exact (similarity_dot _ _ _ _ _ _ _ HN HN0 HN HN0 HQ HQ HD).
Qed.

End Binary64Admitted.

(** The amended C5 on the byte vectors (3, 4) and (4, 3) at the default
    threshold. *)
Lemma compare_iris_features_rounded_cosine_witness :
  let v1 := map IrisRecognition.component [Byte.x03; Byte.x04] in
  let v2 := map IrisRecognition.component [Byte.x04; Byte.x03] in
  (exists out,
     Rounded.compare_iris_features (Some v1) (Some v2) IrisRecognition.default_threshold out) /\
  (forall d, Rounded.similarity v1 v2 d ->
     exists s, d = Ok s /\ (Rabs (s - Rounded.cosine v1 v2) <= Rounded.tolerance)%R) /\
  (forall out,
     Rounded.compare_iris_features (Some v1) (Some v2) IrisRecognition.default_threshold out ->
     (Spec.cosine_match v1 v2 (IrisRecognition.default_threshold + Rounded.tolerance) ->
      out = Ok true) /\
     (~ Spec.cosine_match v1 v2 (IrisRecognition.default_threshold - Rounded.tolerance) ->
      out = Ok false)) /\
  (forall features out,
     Rounded.compare_iris_features None features IrisRecognition.default_threshold out \/
     Rounded.compare_iris_features features None IrisRecognition.default_threshold out ->
     out = Ok false).
Proof.
  apply (compare_iris_features_rounded_cosine [Byte.x03; Byte.x04] [Byte.x04; Byte.x03]
           IrisRecognition.default_threshold).
  - reflexivity.
  - cbn. lia.
  - constructor. discriminate.
  - constructor. discriminate.
Defined.

(** The amended C8 on the byte vector (1, 2) at threshold 0.99. *)
Lemma compare_iris_features_rounded_self_witness :
  let v := map IrisRecognition.component [Byte.x01; Byte.x02] in
  (exists out, Rounded.compare_iris_features (Some v) (Some v) (99 / 100) out) /\
  (forall d, Rounded.similarity v v d ->
     exists s, d = Ok s /\ (Rabs (s - 1) <= Rounded.tolerance)%R) /\
  (forall out, Rounded.compare_iris_features (Some v) (Some v) (99 / 100) out ->
     out = Ok true).
Proof.
  apply (compare_iris_features_rounded_self [Byte.x01; Byte.x02] (99 / 100)).
  - cbn. lia.
  - constructor. discriminate.
  - unfold Rounded.tolerance. cbn [pow]. lra.
Defined.

(** X19 on a sample: the byte vector (3, 4) against itself, threshold 2. *)
Lemma compare_iris_features_above_one_witness :
  let v1 := map IrisRecognition.component [Byte.x03; Byte.x04] in
  let v2 := map IrisRecognition.component [Byte.x03; Byte.x04] in
  (exists out, Rounded.compare_iris_features (Some v1) (Some v2) 2 out) /\
  (forall out, Rounded.compare_iris_features (Some v1) (Some v2) 2 out -> out = Ok false).
Proof.
  apply (compare_iris_features_above_one [Byte.x03; Byte.x04] [Byte.x03; Byte.x04] 2).
  - reflexivity.
  - cbn. lia.
  - constructor. discriminate.
  - constructor. discriminate.
  - unfold Rounded.tolerance. cbn [pow]. lra.
Defined.
